(** * ATS generation route: stop-work guardrail and checklist reconciliation

    Shallow embedding of [app/api/generate-ats/route.ts] (the second module
    of [src/app/api/export-pdf/route.ts]): the helpers, the deterministic
    seeds, the sanitizers, the fallback synthesizer and the [POST] handler
    with the body it answers, followed by the properties of the
    reconciliation pipeline.  A [TypeError] is an outcome of its own: the
    handler's [catch] turns it into the answer with status 500. *)

From Stdlib Require Import List NArith ZArith QArith Bool String Ascii Lia.
Import ListNotations.
Close Scope Q_scope.
Open Scope list_scope.

Set Implicit Arguments.
Set Warnings "-register-all".

(** ** JavaScript strings

    A string is the list of its code points.  The source only compares,
    concatenates, trims and lower-cases strings and tests them for
    emptiness, and these agree on code points and on UTF-16 code units. *)

Definition jstring := list N.

(** Literals are written as UTF-8 text and decoded once. *)
Fixpoint js (s : string) : jstring :=
  match s with
  | EmptyString => []
  | String a r =>
      let b := N_of_ascii a in
      if (b <? 128)%N then b :: js r
      else if (b <? 224)%N then
        match r with
        | String a2 r2 => ((b mod 32) * 64 + N_of_ascii a2 mod 64)%N :: js r2
        | EmptyString => [b]
        end
      else if (b <? 240)%N then
        match r with
        | String a2 (String a3 r3) =>
            ((b mod 16) * 4096 + (N_of_ascii a2 mod 64) * 64
             + N_of_ascii a3 mod 64)%N :: js r3
        | _ => [b]
        end
      else
        match r with
        | String a2 (String a3 (String a4 r4)) =>
            ((b mod 8) * 262144 + (N_of_ascii a2 mod 64) * 4096
             + (N_of_ascii a3 mod 64) * 64 + N_of_ascii a4 mod 64)%N :: js r4
        | _ => [b]
        end
  end.

Fixpoint jstring_eqb (a b : jstring) : bool :=
  match a, b with
  | [], [] => true
  | x :: a', y :: b' => (x =? y)%N && jstring_eqb a' b'
  | _, _ => false
  end.

(** [arr.includes(s)] on an array of strings. *)
Definition includes (l : list jstring) (s : jstring) : bool :=
  existsb (jstring_eqb s) l.

(** [!s] on a string. *)
Definition is_empty (s : jstring) : bool :=
  match s with [] => true | _ => false end.

(** White space and line terminators removed by [String.prototype.trim]. *)
Definition is_ws (c : N) : bool :=
  existsb (N.eqb c)
    [9; 10; 11; 12; 13; 32; 160; 5760; 8232; 8233; 8239; 8287; 12288; 65279]%N
  || ((8192 <=? c)%N && (c <=? 8202)%N).

Fixpoint trimStart (s : jstring) : jstring :=
  match s with
  | [] => []
  | c :: r => if is_ws c then trimStart r else s
  end.

Definition trimEnd (s : jstring) : jstring := rev (trimStart (rev s)).

Definition trim (s : jstring) : jstring := trimEnd (trimStart s).

(** [toLowerCase] on Basic Latin and Latin-1 Supplement, the range of every
    literal the route compares against; other code points are kept. *)
Definition lower_cp (c : N) : N :=
  if ((65 <=? c) && (c <=? 90))%N then (c + 32)%N
  else if ((192 <=? c) && (c <=? 222) && negb (c =? 215))%N then (c + 32)%N
  else c.

Definition toLowerCase (s : jstring) : jstring := map lower_cp s.

(** ** JavaScript values

    The request body, the drafting service's draft and the enrichment reply
    are whatever [JSON.parse] returns.  [VUndef] is the value of an absent
    property.  An object is the list of its own properties, looked up from
    the front (for a parsed text with a repeated key the list holds the
    binding that survives). *)

Inductive number := Finite (q : Q) | PosInfinity | NegInfinity.

(** A number carries its value and the text [String(n)] gives for it. *)
Record jsnum := { num_val : number; num_text : jstring }.

Inductive value :=
| VUndef
| VNull
| VBool (b : bool)
| VNum (n : jsnum)
| VStr (s : jstring)
| VArr (l : list value)
| VObj (props : list (jstring * value)).

Definition num_ge (n : number) (k : Q) : bool :=
  match n with
  | Finite q => Qle_bool k q
  | PosInfinity => true
  | NegInfinity => false
  end.

Definition num_is_zero (n : number) : bool :=
  match n with
  | Finite q => Qeq_bool q (0 # 1)
  | _ => false
  end.

(** [!!v] *)
Definition truthy (v : value) : bool :=
  match v with
  | VUndef | VNull => false
  | VBool b => b
  | VNum n => negb (num_is_zero (num_val n))
  | VStr s => negb (is_empty s)
  | VArr _ | VObj _ => true
  end.

(** [v === undefined || v === null] *)
Definition nullish (v : value) : bool :=
  match v with VUndef | VNull => true | _ => false end.

(** [a ?? b] *)
Definition coalesce (a b : value) : value := if nullish a then b else a.

(** [a || b] *)
Definition or_else (a b : value) : value := if truthy a then a else b.

(** [typeof v === "object"] *)
Definition typeof_object (v : value) : bool :=
  match v with VNull | VArr _ | VObj _ => true | _ => false end.

Definition isArray (v : value) : bool :=
  match v with VArr _ => true | _ => false end.

Fixpoint lookup (k : jstring) (props : list (jstring * value)) : value :=
  match props with
  | [] => VUndef
  | (k', v) :: r => if jstring_eqb k k' then v else lookup k r
  end.

(** [v?.k]: reading a named property.  The names the route reads are no
    property of strings, numbers or booleans, and none of arrays but [shift]:
    on an array that is a method, which is read through [pickString] only
    and replaced by the fallback as [undefined] is.  So only objects
    answer. *)
Definition get (v : value) (k : string) : value :=
  match v with
  | VObj props => lookup (js k) props
  | _ => VUndef
  end.

(** The named own properties copied by a spread [{...v}].  Arrays and strings
    contribute index keys only, which the route never reads. *)
Definition spread (v : value) : list (jstring * value) :=
  match v with VObj props => props | _ => [] end.

(** A property can be created on objects and arrays; on [null] or a primitive
    the assignment throws a [TypeError] (the module is strict). *)
Definition writable (v : value) : bool :=
  match v with VObj _ | VArr _ => true | _ => false end.

Definition comma : jstring := [44%N].

(** A computation that returns or throws. *)
Inductive outcome (A : Type) :=
| Returns (a : A)
| Throws.
Arguments Returns {A} a.
Arguments Throws {A}.

Definition bind {A B : Type} (o : outcome A) (k : A -> outcome B) : outcome B :=
  match o with
  | Returns a => k a
  | Throws => Throws
  end.

Notation "x <- e ;; k" := (bind e (fun x => k))
  (at level 61, e at next level, right associativity).

(** [l.map(f)] for an [f] that may throw. *)
Fixpoint mapM {A B : Type} (f : A -> outcome B) (l : list A) : outcome (list B) :=
  match l with
  | [] => Returns []
  | x :: r => y <- f x ;; ys <- mapM f r ;; Returns (y :: ys)
  end.

(** Whether a parsed object has the own property [k]. *)
Definition has_own (props : list (jstring * value)) (k : string) : bool :=
  existsb (fun p => jstring_eqb (fst p) (js k)) props.

(** [String(v)].  An object is converted by its method [toString]; a parsed
    object that has an own property of that name has a value there that
    cannot be called, and the conversion throws a [TypeError].  An array
    joins the conversions of its elements. *)
Fixpoint String_of (v : value) : outcome jstring :=
  match v with
  | VUndef => Returns (js "undefined")
  | VNull => Returns (js "null")
  | VBool true => Returns (js "true")
  | VBool false => Returns (js "false")
  | VNum n => Returns (num_text n)
  | VStr s => Returns s
  | VArr l =>
      (fix join (l : list value) : outcome jstring :=
         match l with
         | [] => Returns []
         | x :: r =>
             match match x with
                   | VUndef | VNull => Returns []
                   | _ => String_of x
                   end with
             | Throws => Throws
             | Returns sx =>
                 match r with
                 | [] => Returns sx
                 | _ => match join r with
                        | Throws => Throws
                        | Returns sr => Returns (sx ++ comma ++ sr)
                        end
                 end
             end
         end) l
  | VObj props =>
      if has_own props "toString" then Throws else Returns (js "[object Object]")
  end.

(** [String(v ?? "")] *)
Definition String_or_empty (v : value) : outcome jstring :=
  match v with VUndef | VNull => Returns [] | _ => String_of v end.

(** What a client reads in the body written by [JSON.stringify]: a number
    that is not finite is written [null], a property whose value is
    [undefined] is left out, an [undefined] element of an array is written
    [null]. *)
Fixpoint serialize (v : value) : value :=
  match v with
  | VNum n => match num_val n with Finite _ => v | _ => VNull end
  | VArr l =>
      VArr (map (fun x => match x with VUndef => VNull | _ => serialize x end) l)
  | VObj props =>
      VObj (flat_map (fun p : jstring * value =>
                        match p with
                        | (k, VUndef) => []
                        | (k, x) => [(k, serialize x)]
                        end) props)
  | _ => v
  end.

(** What [serialize] makes of an element of an array and of a property. *)
Definition element (x : value) : value :=
  match x with VUndef => VNull | _ => serialize x end.

Definition member (p : jstring * value) : list (jstring * value) :=
  match p with
  | (k, VUndef) => []
  | (k, x) => [(k, serialize x)]
  end.

(** ** General helpers *)

Definition pickString (v : value) (fallback : jstring) : jstring :=
  match v with VStr s => s | _ => fallback end.

Definition pickArray (v : value) : list value :=
  match v with VArr l => l | _ => [] end.

Definition nonblank (s : jstring) : bool := negb (is_empty s).

(** [(arr?.length || 0) > 0] *)
Definition has_items {A : Type} (l : list A) : bool :=
  match l with [] => false | _ => true end.

(** [.map((s) => s.trim()).filter(Boolean)] *)
Definition trimmed_nonblank (l : list jstring) : list jstring :=
  filter nonblank (map trim l).

Definition safeArrayStrings (v : value) : outcome (list jstring) :=
  match v with
  | VArr l => ss <- mapM String_or_empty l ;; Returns (trimmed_nonblank ss)
  | _ => Returns []
  end.

(** The loop of [mergeUnique]: [out] is the accumulated array (the set
    [seen] holds exactly its elements). *)
Fixpoint mergeUnique_loop (out : list jstring) (l : list jstring) : list jstring :=
  match l with
  | [] => out
  | s :: r =>
      let v := trim s in
      if is_empty v then mergeUnique_loop out r
      else if includes out v then mergeUnique_loop out r
      else mergeUnique_loop (out ++ [v]) r
  end.

Definition mergeUnique (listA listB : list jstring) : list jstring :=
  mergeUnique_loop [] (listA ++ listB).

Definition Si : jstring := js "Si".
Definition No : jstring := js "No".

Definition normalizeYesNo (v : value) : outcome jstring :=
  text <- String_or_empty v ;;
  let s := toLowerCase (trim text) in
  Returns
    (if is_empty s then []
     else if includes [js "si"; js "sí"; js "sÍ"; js "true"; js "1"; js "yes"; js "y"] s
          then Si
     else if includes [js "no"; js "false"; js "0"; js "n"] s then No
     else []).

Arguments js _ : simpl never.

(** Building the values the route hands back to its own normalizers. *)
Definition VStrs (l : list jstring) : value := VArr (map VStr l).

Definition VOptStr (o : option jstring) : value :=
  match o with Some s => VStr s | None => VNull end.

Definition VOptNum (o : option jsnum) : value :=
  match o with Some n => VNum n | None => VNull end.

Definition prop (k : string) (v : value) : jstring * value := (js k, v).

(** ** Normative references *)

Record NormRef := {
  standard : jstring;
  clause : option jstring;
  note : option jstring;
  url : option jstring
}.

Definition str_or_null (s : jstring) : option jstring :=
  if is_empty s then None else Some s.

Definition normalizeNormRefs (v : value) : outcome (list NormRef) :=
  let arr := pickArray v in
  raw <- mapM (fun x =>
                 s <- String_or_empty (get x "standard") ;;
                 c <- String_or_empty (get x "clause") ;;
                 n <- String_or_empty (get x "note") ;;
                 u <- String_or_empty (get x "url") ;;
                 Returns (trim s, trim c, trim n, trim u)) arr ;;
  let kept := filter (fun x => match x with (s, _, _, _) => nonblank s end) raw in
  Returns
    (map (fun x => match x with
                   | (s, c, n, u) =>
                       {| standard := s; clause := str_or_null c;
                          note := str_or_null n; url := str_or_null u |}
                   end) kept).

Definition NormRef_value (n : NormRef) : value :=
  VObj [prop "standard" (VStr (standard n)); prop "clause" (VOptStr (clause n));
        prop "note" (VOptStr (note n)); prop "url" (VOptStr (url n))].

(** ** Environment *)

Record Environment := {
  timeOfDay : option jstring;
  weather : option jstring;
  temperatureC : option jsnum;
  humidityPct : option jsnum;
  wind : option jstring;
  lighting : option jstring;
  terrain : option jstring;
  visibility : option jstring;
  noiseLevel : option jstring;
  procedureUsedText : option jstring;
  controlsAvailable : list jstring
}.

Definition toStrOrNull (v : value) : option jstring :=
  match v with
  | VStr s => if is_empty (trim s) then None else Some s
  | _ => None
  end.

Definition numOrNull (v : value) : option jsnum :=
  match v with VNum n => Some n | _ => None end.

Definition normalizeEnvironment (env : value) : outcome Environment :=
  let e := if truthy env && typeof_object env then env else VObj [] in
  controls <- match get e "controlsAvailable" with
              | VArr l => ss <- mapM String_of l ;; Returns (trimmed_nonblank ss)
              | _ => Returns []
              end ;;
  Returns
  {| timeOfDay := toStrOrNull (get e "timeOfDay");
     weather := toStrOrNull (get e "weather");
     temperatureC := numOrNull (get e "temperatureC");
     humidityPct := numOrNull (get e "humidityPct");
     wind := toStrOrNull (get e "wind");
     lighting := toStrOrNull (get e "lighting");
     terrain := toStrOrNull (get e "terrain");
     visibility := toStrOrNull (get e "visibility");
     noiseLevel := toStrOrNull (get e "noiseLevel");
     procedureUsedText := toStrOrNull (get e "procedureUsedText");
     controlsAvailable := controls |}.

Definition Environment_value (e : Environment) : value :=
  VObj [prop "timeOfDay" (VOptStr (timeOfDay e));
        prop "weather" (VOptStr (weather e));
        prop "temperatureC" (VOptNum (temperatureC e));
        prop "humidityPct" (VOptNum (humidityPct e));
        prop "wind" (VOptStr (wind e));
        prop "lighting" (VOptStr (lighting e));
        prop "terrain" (VOptStr (terrain e));
        prop "visibility" (VOptStr (visibility e));
        prop "noiseLevel" (VOptStr (noiseLevel e));
        prop "procedureUsedText" (VOptStr (procedureUsedText e));
        prop "controlsAvailable" (VStrs (controlsAvailable e))].

(** ** Deterministic stop-work triggers (environment and task) *)

Record Tasks := { lifting : bool; hotWork : bool; workAtHeight : bool }.

Definition tasks_of (payload : value) : Tasks :=
  {| lifting := truthy (get payload "lifting");
     hotWork := truthy (get payload "hotWork");
     workAtHeight := truthy (get payload "workAtHeight") |}.

(** [(v || "").toString()]: the method is the one [String] calls. *)
Definition text_of (v : value) : outcome jstring := String_of (or_else v (VStr [])).

(** One [if (c) triggers.push(t)]. *)
Definition push_if (c : bool) (t : jstring) : list jstring :=
  if c then [t] else [].

Definition is_str (s : jstring) (lit : string) : bool := jstring_eqb s (js lit).

Definition computeStopWorkTriggers (payload : value) : outcome (list jstring) :=
  let env := or_else (get payload "environment") (VObj []) in
  let tasks := tasks_of payload in
  weather <- text_of (get env "weather") ;;
  wind <- text_of (get env "wind") ;;
  lighting <- text_of (get env "lighting") ;;
  terrain <- text_of (get env "terrain") ;;
  visibility <- text_of (get env "visibility") ;;
  timeOfDay <- text_of (get env "timeOfDay") ;;
  let temperatureC := numOrNull (get env "temperatureC") in
  let humidityPct := numOrNull (get env "humidityPct") in
  let temp_ge k := match temperatureC with
                   | Some n => num_ge (num_val n) k
                   | None => false
                   end in
  let hum_ge k := match humidityPct with
                  | Some n => num_ge (num_val n) k
                  | None => false
                  end in
  Returns
  (push_if (is_str weather "Tormenta eléctrica"
           && (lifting tasks || workAtHeight tasks || hotWork tasks))
    (js "Tormenta eléctrica: suspender actividades expuestas (izaje/alturas/hot work) y asegurar el área.")
  ++ push_if (is_str weather "Lluvia" && workAtHeight tasks)
    (js "Lluvia: evaluar superficie resbalosa, anclajes y visibilidad; si no hay condiciones seguras → STOP WORK en alturas.")
  ++ push_if ((is_str wind "Fuerte" || is_str weather "Viento fuerte") && lifting tasks)
    (js "Viento fuerte: STOP WORK para izaje hasta que condiciones sean seguras (control de oscilación/carga).")
  ++ push_if ((is_str wind "Fuerte" || is_str weather "Viento fuerte") && workAtHeight tasks)
    (js "Viento fuerte: suspender trabajo en alturas si compromete estabilidad o control del trabajador.")
  ++ push_if (is_str visibility "Baja")
    (js "Visibilidad baja: STOP WORK si no se puede garantizar control del área, señalización, comunicación y supervisión.")
  ++ push_if (is_str lighting "Deficiente")
    (js "Iluminación deficiente: STOP WORK si no se puede corregir con iluminación artificial adecuada.")
  ++ push_if (is_str timeOfDay "Noche" && is_empty lighting)
    (js "Trabajo nocturno sin especificar iluminación: STOP WORK hasta confirmar iluminación y controles.")
  ++ (if is_str terrain "Húmedo/Resbaloso" || is_str terrain "Barro" then
        if workAtHeight tasks || lifting tasks
        then [js "Superficie resbalosa/barro: STOP WORK si compromete estabilidad de equipos/personas o zonas de exclusión."]
        else [js "Superficie resbalosa/barro: reforzar control de caídas al mismo nivel y demarcación; detener si no hay control."]
      else [])
  ++ push_if (temp_ge (35 # 1)%Q)
    (js "Temperatura elevada (≥35°C): detener si no hay pausas, hidratación, sombra y monitoreo (estrés térmico).")
  ++ push_if (hum_ge (85 # 1)%Q && temp_ge (30 # 1)%Q)
    (js "Alta humedad + calor: riesgo de estrés térmico; detener si no hay control administrativo y vigilancia.")
  ++ push_if (is_str weather "Neblina" && lifting tasks)
    (js "Neblina: STOP WORK para izaje si la visibilidad compromete señalización, señalero y control de área.")).

(** ** Procedure references *)

Record Controls := {
  engineering : list jstring;
  administrative : list jstring;
  ppe : list jstring
}.

Record Brief := {
  scope : jstring;
  mandatory_permits : list jstring;
  critical_controls : Controls;
  brief_stop_work : list jstring;
  mandatory_steps : list jstring;
  restrictions : list jstring
}.

Record Source := { title : jstring; code : jstring; origin : jstring }.

Record ProcedureRef := { ref_source : Source; parseable : bool; brief : Brief }.

Definition normalizeProcedureRef (p : value) : outcome ProcedureRef :=
  let b := if truthy (get p "brief") && typeof_object (get p "brief")
           then get p "brief" else VObj [] in
  let critical :=
    if truthy (get b "critical_controls") && typeof_object (get b "critical_controls")
    then get b "critical_controls" else VObj [] in
  permits <- safeArrayStrings (get b "mandatory_permits") ;;
  eng <- safeArrayStrings (get critical "engineering") ;;
  adm <- safeArrayStrings (get critical "administrative") ;;
  epp <- safeArrayStrings (get critical "ppe") ;;
  stop <- safeArrayStrings (get b "stop_work") ;;
  steps <- safeArrayStrings (get b "mandatory_steps") ;;
  restr <- safeArrayStrings (get b "restrictions") ;;
  Returns
  {| ref_source := {| title := pickString (get p "title") (js "Procedimiento");
                      code := pickString (get p "code") [];
                      origin := pickString (get p "origin") [] |};
     parseable := match get p "parseable" with VBool x => x | _ => true end;
     brief := {| scope := pickString (get b "scope") [];
                 mandatory_permits := permits;
                 critical_controls :=
                   {| engineering := eng; administrative := adm; ppe := epp |};
                 brief_stop_work := stop;
                 mandatory_steps := steps;
                 restrictions := restr |} |}.

Definition Controls_value (c : Controls) : value :=
  VObj [prop "engineering" (VStrs (engineering c));
        prop "administrative" (VStrs (administrative c));
        prop "ppe" (VStrs (ppe c))].

Definition Brief_value (b : Brief) : value :=
  VObj [prop "scope" (VStr (scope b));
        prop "mandatory_permits" (VStrs (mandatory_permits b));
        prop "critical_controls" (Controls_value (critical_controls b));
        prop "stop_work" (VStrs (brief_stop_work b));
        prop "mandatory_steps" (VStrs (mandatory_steps b));
        prop "restrictions" (VStrs (restrictions b))].

Definition ProcedureRef_value (p : ProcedureRef) : value :=
  VObj [prop "title" (VStr (title (ref_source p)));
        prop "code" (VStr (code (ref_source p)));
        prop "origin" (VStr (origin (ref_source p)));
        prop "parseable" (VBool (parseable p));
        prop "brief" (Brief_value (brief p))].

Inductive Level := Engineering | Administrative | Ppe.

Definition Level_text (l : Level) : jstring :=
  match l with
  | Engineering => js "engineering"
  | Administrative => js "administrative"
  | Ppe => js "ppe"
  end.

Definition Level_eqb (a b : Level) : bool :=
  match a, b with
  | Engineering, Engineering | Administrative, Administrative | Ppe, Ppe => true
  | _, _ => false
  end.

Record DerivedControl := { level : Level; control : jstring; source : Source }.

Record ProcedureInfluence := {
  applied : list Source;
  not_parseable : list Source;
  derived_controls : list DerivedControl
}.

(** [x.source.code || x.source.title] *)
Definition source_id (s : Source) : jstring :=
  if is_empty (code s) then title s else code s.

(** The key of the deduplication filter:
    [`${x.level}::${x.control}::${x.source.code || x.source.title}`]. *)
Definition dedup_key (x : DerivedControl) : jstring :=
  Level_text (level x) ++ js "::" ++ control x ++ js "::" ++ source_id (source x).

(** [derived_controls.filter(...)] with the set [seen]. *)
Fixpoint dedup_loop (seen : list jstring) (l : list DerivedControl) : list DerivedControl :=
  match l with
  | [] => []
  | x :: r =>
      let k := dedup_key x in
      if includes seen k then dedup_loop seen r
      else x :: dedup_loop (k :: seen) r
  end.

(** The three inner loops over one applied reference. *)
Definition controls_of_ref (p : ProcedureRef) : list DerivedControl :=
  let src := ref_source p in
  let pick lv l :=
    map (fun c => {| level := lv; control := c; source := src |})
        (filter (fun c => nonblank (trim c)) l) in
  pick Engineering (engineering (critical_controls (brief p)))
  ++ pick Administrative (administrative (critical_controls (brief p)))
  ++ pick Ppe (ppe (critical_controls (brief p))).

Definition buildProcedureInfluence (procedure_refs : list value)
    : outcome ProcedureInfluence :=
  normalized <- mapM normalizeProcedureRef procedure_refs ;;
  let applied_refs := filter parseable normalized in
  let notParseable := filter (fun p => negb (parseable p)) normalized in
  let derived := flat_map controls_of_ref applied_refs in
  Returns
  {| applied := map ref_source applied_refs;
     not_parseable := map ref_source notParseable;
     derived_controls := dedup_loop [] derived |}.

(** ** Lesson learned *)

Definition extractLessonLearnedRef (body : value) : outcome (option ProcedureRef) :=
  let ll :=
    coalesce (get body "lesson_learned_brief")
      (coalesce (get body "lesson_learned_ref")
         (coalesce (get (get body "lesson") "lesson_learned_brief")
            (coalesce (get (get body "data") "lesson_learned_brief")
               (coalesce (get (get body "lessonLearned") "lesson_learned_brief")
                  VNull)))) in
  if negb (truthy ll) || negb (typeof_object ll) then Returns None
  else
    normalized <-
      normalizeProcedureRef
        (VObj ([prop "origin" (VStr (pickString (get ll "origin") (js "Lección aprendida")));
                prop "title" (VStr (pickString (get ll "title") (js "Lección aprendida")));
                prop "parseable" (VBool true)] ++ spread ll)) ;;
    let b := brief normalized in
    let hasUsefulBrief :=
      nonblank (scope b)
      || has_items (mandatory_permits b) || has_items (mandatory_steps b)
      || has_items (brief_stop_work b) || has_items (restrictions b)
      || has_items (engineering (critical_controls b))
      || has_items (administrative (critical_controls b))
      || has_items (ppe (critical_controls b)) in
    Returns (if hasUsefulBrief then Some normalized else None).

(** ** Checklist (Formato Estrella) *)

Inductive ChecklistDecisionHint := STOP | REVIEW_REQUIRED | CONTINUE.

Inductive Priority := critical | high | medium | low.

Record ChecklistAction := {
  priority : Priority;
  category : Level;
  action : jstring;
  evidence : list jstring
}.

Record ChecklistActionsPayload := {
  decision_hint : ChecklistDecisionHint;
  missing : list jstring;
  critical_fails : list jstring;
  cl_derived_controls : Controls;
  actions : list ChecklistAction;
  snapshot : value
}.

Definition hint_text (h : ChecklistDecisionHint) : jstring :=
  match h with
  | STOP => js "STOP"
  | REVIEW_REQUIRED => js "REVIEW_REQUIRED"
  | CONTINUE => js "CONTINUE"
  end.

Definition Priority_text (p : Priority) : jstring :=
  match p with
  | critical => js "critical"
  | high => js "high"
  | medium => js "medium"
  | low => js "low"
  end.

(** [["STOP", "REVIEW_REQUIRED", "CONTINUE"].includes(v) ? v : ...] *)
Definition parse_hint (v : value) : option ChecklistDecisionHint :=
  match v with
  | VStr s =>
      if is_str s "STOP" then Some STOP
      else if is_str s "REVIEW_REQUIRED" then Some REVIEW_REQUIRED
      else if is_str s "CONTINUE" then Some CONTINUE
      else None
  | _ => None
  end.

Definition parse_priority (v : value) : option Priority :=
  match v with
  | VStr s =>
      if is_str s "critical" then Some critical
      else if is_str s "high" then Some high
      else if is_str s "medium" then Some medium
      else if is_str s "low" then Some low
      else None
  | _ => None
  end.

Definition parse_level (v : value) : option Level :=
  match v with
  | VStr s =>
      if is_str s "administrative" then Some Administrative
      else if is_str s "engineering" then Some Engineering
      else if is_str s "ppe" then Some Ppe
      else None
  | _ => None
  end.

Definition ChecklistAction_value (a : ChecklistAction) : value :=
  VObj [prop "priority" (VStr (Priority_text (priority a)));
        prop "category" (VStr (Level_text (category a)));
        prop "action" (VStr (action a));
        prop "evidence" (VStrs (evidence a))].

Definition Payload_value (p : ChecklistActionsPayload) : value :=
  VObj [prop "decision_hint" (VStr (hint_text (decision_hint p)));
        prop "missing" (VStrs (missing p));
        prop "critical_fails" (VStrs (critical_fails p));
        prop "derived_controls" (Controls_value (cl_derived_controls p));
        prop "actions" (VArr (map ChecklistAction_value (actions p)));
        prop "snapshot" (snapshot p)].

Definition dquote : jstring := [34%N].

(** The rows of [supMap]: label, property of [checks], statement. *)
Definition supItems : list (string * string * string) :=
  [("Claridad de etapas", "stagesClarity",
    "Tengo claridad de todas las etapas del trabajo a ejecutar");
   ("Peligros controlados", "hazardsControlled",
    "Se han identificado y controlado todos los peligros y es seguro comenzar");
   ("Aislamiento confirmado", "isolationConfirmed",
    "He confirmado el aislamiento de todas las fuentes de energías peligrosas");
   ("Comunicación acordada", "commsAgreed",
    "Se han acordado responsabilidades y canales de comunicación del equipo");
   ("Herramientas OK", "toolsOk",
    "Cuento con herramientas y equipos necesarios en buenas condiciones")]%string.

Definition sup_missing_msg (label : string) : jstring :=
  js "Falta selección en verificación del supervisor: " ++ js label ++ js ".".

Definition sup_fail_msg (label : string) : jstring :=
  js "Supervisor marcó NO: " ++ js label ++ js ".".

Definition sup_action (text : string) : ChecklistAction :=
  {| priority := critical;
     category := Administrative;
     action := js "Detener el trabajo y corregir el ítem: " ++ dquote ++ js text
               ++ dquote ++ js ". Revalidar antes de reiniciar.";
     evidence := [js "Checklist supervisor"] |}.

(** State of the three arrays the checklist evaluator pushes to. *)
Record Findings := {
  f_missing : list jstring;
  f_criticalFails : list jstring;
  f_actions : list ChecklistAction
}.

(** [for (const [label, val, text] of supMap) ...] *)
Fixpoint supervisor_loop (rows : list (string * jstring * string)) (st : Findings) : Findings :=
  match rows with
  | [] => st
  | (label, val, text) :: r =>
      if is_empty val then
        supervisor_loop r
          {| f_missing := f_missing st ++ [sup_missing_msg label];
             f_criticalFails := f_criticalFails st;
             f_actions := f_actions st |}
      else if is_str val "NO" then
        supervisor_loop r
          {| f_missing := f_missing st;
             f_criticalFails := f_criticalFails st ++ [sup_fail_msg label];
             f_actions := f_actions st ++ [sup_action text] |}
      else supervisor_loop r st
  end.

(** [PPE_MAP[k]]: the seven entries of the table, and the properties every
    object inherits from [Object.prototype], which are truthy too; for those
    the text is what [String] gives when the control is sanitized. *)
Definition PPE_MAP (k : jstring) : option jstring :=
  if is_str k "Casco" then Some (js "Uso obligatorio de casco de seguridad.")
  else if is_str k "Guantes" then Some (js "Uso obligatorio de guantes adecuados a la tarea.")
  else if is_str k "Botas de seguridad" then Some (js "Uso obligatorio de botas de seguridad.")
  else if is_str k "Gafas de Seguridad" then Some (js "Uso obligatorio de gafas de seguridad.")
  else if is_str k "Protección Auditiva"
    then Some (js "Uso obligatorio de protección auditiva según niveles de ruido.")
  else if is_str k "Protección Respiratoria"
    then Some (js "Uso obligatorio de protección respiratoria según exposición.")
  else if is_str k "Arnés de Seguridad"
    then Some (js "Uso de arnés y sistema anticaídas certificado (si aplica trabajo en alturas).")
  else if is_str k "__proto__" then Some (js "[object Object]")
  else if includes (map js ["constructor"; "hasOwnProperty"; "isPrototypeOf";
                            "propertyIsEnumerable"; "toLocaleString"; "toString";
                            "valueOf"; "__defineGetter__"; "__defineSetter__";
                            "__lookupGetter__"; "__lookupSetter__"]%string) k
    then Some (js "function " ++ (if is_str k "constructor" then js "Object" else k)
               ++ js "() { [native code] }")
  else None.

Definition ppe_of (k : jstring) : list jstring :=
  match PPE_MAP k with Some c => [c] | None => [] end.

Definition act (p : Priority) (a : string) (ev : list string) : ChecklistAction :=
  {| priority := p; category := Administrative; action := js a; evidence := map js ev |}.

(** [actions.some((a) => a.priority === "high" || a.priority === "medium")] *)
Definition high_or_medium (a : ChecklistAction) : bool :=
  match priority a with high | medium => true | _ => false end.

Definition decide_hint (criticalFails missing : list jstring)
    (actions : list ChecklistAction) : ChecklistDecisionHint :=
  if has_items criticalFails then STOP
  else if has_items missing || existsb high_or_medium actions then REVIEW_REQUIRED
  else CONTINUE.

(** [estrella && typeof estrella === "object" ? estrella : {}] *)
Definition estrella_object (estrella : value) : value :=
  if truthy estrella && typeof_object estrella then estrella else VObj [].

(** [pickString(supervisorChecks?.key, "")] for the checklist object [s]. *)
Definition supervisor_answer (s : value) (key : string) : jstring :=
  let supervisorChecks :=
    or_else (get (get (get s "authorizations") "supervisor") "checks") (VObj []) in
  pickString (get supervisorChecks key) [].

Definition supMap (s : value) : list (string * jstring * string) :=
  map (fun row => match row with
                  | (label, key, text) => (label, supervisor_answer s key, text)
                  end) supItems.

Definition sup_findings (s : value) : Findings :=
  supervisor_loop (supMap s) {| f_missing := []; f_criticalFails := []; f_actions := [] |}.

(** The answers the evaluator reads from the checklist object before it
    classifies them. *)
Record Answers := {
  incidentsReference : jstring;
  otherCompanies : jstring;
  dangerTypes : list jstring;
  environmentDangers : list jstring;
  emergencies : list jstring;
  safetyEquipment : list jstring;
  lifeSavingRules : list jstring
}.

Definition read_answers (s : value) : outcome Answers :=
  incidents <- normalizeYesNo (get s "incidentsReference") ;;
  others <- normalizeYesNo (get s "otherCompanies") ;;
  dangers <- safeArrayStrings (get s "dangerTypes") ;;
  envDangers <- safeArrayStrings (get s "environmentDangers") ;;
  emerg <- safeArrayStrings (get s "emergencies") ;;
  equipment <- safeArrayStrings (get s "safetyEquipment") ;;
  rules <- safeArrayStrings (get s "lifeSavingRules") ;;
  Returns {| incidentsReference := incidents; otherCompanies := others;
             dangerTypes := dangers; environmentDangers := envDangers;
             emergencies := emerg; safetyEquipment := equipment;
             lifeSavingRules := rules |}.

(** The array [missing] when the evaluator returns. *)
Definition det_missing (s : value) (a : Answers) : list jstring :=
  let elab := pickString (get s "elaborationDate") [] in
  let exec := pickString (get s "executionDate") [] in
  f_missing (sup_findings s)
  ++ push_if (is_empty elab) (js "Falta fecha de elaboración (Formato Estrella).")
  ++ push_if (is_empty exec) (js "Falta fecha de ejecución (Formato Estrella).")
  ++ push_if (is_empty (incidentsReference a))
       (js "No se respondió: Incidentes en trabajos similares (Si/No).")
  ++ push_if (is_empty (otherCompanies a))
       (js "No se respondió: Involucra personal de otras compañías (Si/No).").

(** The actions pushed after the supervisor loop. *)
Definition det_late_actions (a : Answers) (body : value) : list ChecklistAction :=
  (if negb (is_empty (incidentsReference a)) && jstring_eqb (incidentsReference a) Si
   then [act high
           "Revisar lecciones aprendidas/incidentes similares, definir controles específicos y socializarlos en charla preoperacional."
           ["Incidentes en trabajos similares = Sí"%string]]
   else [])
  ++ (if negb (is_empty (otherCompanies a)) && jstring_eqb (otherCompanies a) Si
      then [act high
              "Asegurar coordinación inter-contratistas: roles, responsable de área, permisos, comunicación, y control de interferencias (SIMOPS)."
              ["Otras compañías = Sí"%string]]
      else [])
  ++ (if includes (dangerTypes a) (js "Trabajo en alturas")
         && negb (truthy (get body "workAtHeight"))
      then [act medium
              "Validar coherencia: se marcó 'Trabajo en alturas' pero la condición 'Trabajo en alturas' no está activa. Confirmar si aplica y ajustar."
              ["Tipos de peligros"%string]]
      else [])
  ++ (if has_items (emergencies a) then []
      else [act medium
              "Confirmar escenarios de emergencia aplicables (médica, incendio, H2S, ambiental, etc.) y verificar plan de respuesta (rutas, puntos, comunicación)."
              ["Emergencias sin selección"%string]])
  ++ (if has_items (lifeSavingRules a) then []
      else [act medium
              "Seleccionar y verificar 'Acuerdos de Vida' aplicables antes de iniciar. Si algún control no está implementado → detener y solicitar ayuda."
              ["Acuerdos de vida sin selección"%string]]).

Definition det_actions (s : value) (a : Answers) (body : value) : list ChecklistAction :=
  f_actions (sup_findings s) ++ det_late_actions a body.

Definition det_controls (a : Answers) : Controls :=
  {| engineering := [];
     administrative :=
       push_if (includes (safetyEquipment a) (js "Señalización/Conos/Limitación de Área"))
         (js "Delimitar y señalizar el área de trabajo; controlar accesos.")
       ++ push_if (includes (safetyEquipment a) (js "Medición de gases"))
         (js "Realizar medición de gases previa y continua cuando aplique; registrar resultados.")
       ++ push_if (includes (safetyEquipment a) (js "Extintores / Matafuegos"))
         (js "Verificar extintor disponible/operativo y permiso de trabajo en caliente cuando aplique.")
       ++ push_if (includes (safetyEquipment a) (js "Lockout/Layout/ EMN"))
         (js "Aplicar aislamiento de energías peligrosas (LOTO) y verificación de energía cero si aplica.");
     ppe := flat_map ppe_of (safetyEquipment a) |}.

Definition det_snapshot (s : value) (a : Answers) : value :=
  VObj [prop "incidentsReference" (VStr (incidentsReference a));
        prop "otherCompanies" (VStr (otherCompanies a));
        prop "dangerTypes" (VStrs (dangerTypes a));
        prop "environmentDangers" (VStrs (environmentDangers a));
        prop "emergencies" (VStrs (emergencies a));
        prop "safetyEquipment" (VStrs (safetyEquipment a));
        prop "lifeSavingRules" (VStrs (lifeSavingRules a));
        prop "supervisorChecks"
          (VObj [prop "stagesClarity" (VStr (supervisor_answer s "stagesClarity"));
                 prop "hazardsControlled" (VStr (supervisor_answer s "hazardsControlled"));
                 prop "isolationConfirmed" (VStr (supervisor_answer s "isolationConfirmed"));
                 prop "commsAgreed" (VStr (supervisor_answer s "commsAgreed"));
                 prop "toolsOk" (VStr (supervisor_answer s "toolsOk"))])].

Definition deriveChecklistDeterministic (estrella body : value)
    : outcome ChecklistActionsPayload :=
  let s := estrella_object estrella in
  a <- read_answers s ;;
  Returns
  {| decision_hint :=
       decide_hint (f_criticalFails (sup_findings s)) (det_missing s a)
         (det_actions s a body);
     missing := det_missing s a;
     critical_fails := f_criticalFails (sup_findings s);
     cl_derived_controls := det_controls a;
     actions := det_actions s a body;
     snapshot := det_snapshot s a |}.

Definition sanitize_action (a : value) : outcome ChecklistAction :=
  ev <- safeArrayStrings (get a "evidence") ;;
  Returns
  {| priority := match parse_priority (get a "priority") with
                 | Some p => p
                 | None => medium
                 end;
     category := match parse_level (get a "category") with
                 | Some c => c
                 | None => Administrative
                 end;
     action := pickString (get a "action") [];
     evidence := ev |}.

Definition sanitizeChecklistActions (x : value) (fallback : ChecklistActionsPayload)
    : outcome ChecklistActionsPayload :=
  let o := if truthy x && typeof_object x then x else Payload_value fallback in
  acts <- match get o "actions" with
          | VArr l =>
              sanitized <- mapM sanitize_action l ;;
              Returns (filter (fun a => nonblank (trim (action a))) sanitized)
          | _ => Returns (actions fallback)
          end ;;
  eng <- safeArrayStrings (get (get o "derived_controls") "engineering") ;;
  adm <- safeArrayStrings (get (get o "derived_controls") "administrative") ;;
  epp <- safeArrayStrings (get (get o "derived_controls") "ppe") ;;
  miss <- safeArrayStrings (get o "missing") ;;
  fails <- safeArrayStrings (get o "critical_fails") ;;
  Returns
  {| decision_hint := match parse_hint (get o "decision_hint") with
                      | Some h => h
                      | None => decision_hint fallback
                      end;
     missing := miss;
     critical_fails := fails;
     cl_derived_controls := {| engineering := eng; administrative := adm; ppe := epp |};
     actions := acts;
     snapshot := if truthy (get o "snapshot") && typeof_object (get o "snapshot")
                 then get o "snapshot" else snapshot fallback |}.

(** ** Optional enrichment of the checklist by the drafting service *)

(** What a call of [client.responses.create] followed by [JSON.parse] of its
    output text comes to: the call rejects, the text does not parse, or it
    parses to a value. *)
Inductive reply :=
| CallFails
| Unparseable
| Parsed (v : value).

(** [o.k = v]: the [TypeError] is the one on [null] or a primitive.  An array
    takes the property; it is read back by name only, so the array is
    represented by its named properties. *)
Definition assign (o : value) (k : string) (v : value) : outcome value :=
  match o with
  | VObj props => Returns (VObj (prop k v :: props))
  | VArr _ => Returns (VObj [prop k v])
  | _ => Throws
  end.

(** The body of the [try] after [JSON.parse] succeeded. *)
Definition enrich_parsed (base : ChecklistActionsPayload) (parsed : value)
    : outcome ChecklistActionsPayload :=
  p1 <- (if has_items (critical_fails base)
         then assign parsed "decision_hint" (VStr (js "STOP"))
         else Returns parsed) ;;
  p2 <- (if negb (has_items (critical_fails base)) && has_items (missing base)
         then assign p1 "decision_hint" (VStr (js "REVIEW_REQUIRED"))
         else Returns p1) ;;
  sanitizeChecklistActions p2 base.

(** The call itself is awaited outside the [try]: its rejection is thrown to
    the caller.  What the [try] throws is caught and answered with [base]. *)
Definition enrichChecklistWithAI (api_key : bool) (base : ChecklistActionsPayload)
    (r : reply) : outcome ChecklistActionsPayload :=
  if negb api_key then Returns base
  else
    let hasSignal := has_items (actions base) || has_items (missing base)
                     || has_items (critical_fails base) in
    if negb hasSignal then Returns base
    else match r with
         | CallFails => Throws
         | Unparseable => Returns base
         | Parsed parsed =>
             match enrich_parsed base parsed with
             | Returns p => Returns p
             | Throws => Returns base
             end
         end.

(** ** The ATS document *)

Record Meta := {
  meta_title : jstring;
  company : jstring;
  location : jstring;
  date : jstring;
  shift : jstring
}.

Record Step := {
  step : jstring;
  step_hazards : list jstring;
  step_controls : list jstring
}.

(** [decision] is whatever the draft held unless a guardrail rewrote it. *)
Record StopWork := {
  decision : value;
  auto_triggers : list jstring;
  criteria : list jstring;
  rationale : jstring
}.

Inductive Verification := ok | requires_verification.

Record Recommendation := {
  topic : jstring;
  recommendation : jstring;
  based_on : list (jstring * option jstring);
  verification : Verification
}.

(** The eleven properties the route writes on [ats] before answering.  (A
    property the draft adds beside them is left where it is and is not part
    of this record.) *)
Record ATS := {
  meta : Meta;
  environment : Environment;
  hazards : list jstring;
  controls : Controls;
  steps : list Step;
  stop_work : StopWork;
  procedure_refs_used : list Source;
  procedure_influence : ProcedureInfluence;
  checklist_actions : ChecklistActionsPayload;
  normative_refs : list NormRef;
  recommendations : list Recommendation
}.

(** ** Fallbacks (when the model returns too few hazards or steps) *)

Definition opt_is (o : option jstring) (lit : string) : bool :=
  match o with Some s => is_str s lit | None => false end.

(** [if (c) hazards = mergeUnique(hazards, [h])] *)
Definition merge_if (c : bool) (h : string) (hz : list jstring) : list jstring :=
  if c then mergeUnique hz [js h] else hz.

Definition buildFallbackHazards (checklist : ChecklistActionsPayload) (tasks : Tasks)
    (environment : Environment) (autoTriggers : list jstring) : outcome (list jstring) :=
  dangers <- safeArrayStrings (get (snapshot checklist) "dangerTypes") ;;
  envDangers <- safeArrayStrings (get (snapshot checklist) "environmentDangers") ;;
  let h0 := mergeUnique dangers envDangers in
  let h1 := merge_if (lifting tasks)
    "Izaje / manejo de cargas: golpeado por carga, atrapamiento, caída de carga, zona de exclusión deficiente." h0 in
  let h2 := merge_if (hotWork tasks)
    "Trabajo en caliente: incendio/quemaduras, chispas/proyección, atmósferas inflamables, exposición a humos." h1 in
  let h3 := merge_if (workAtHeight tasks)
    "Trabajo en alturas: caída a distinto nivel, caída de objetos, anclajes/linea de vida inadecuados." h2 in
  let h4 := merge_if (opt_is (visibility environment) "Baja")
    "Visibilidad baja: riesgo de atropellamiento/colisión y pérdida de control del área." h3 in
  let h5 := merge_if (opt_is (lighting environment) "Deficiente")
    "Iluminación deficiente: errores operacionales, tropiezos/caídas, colisiones." h4 in
  let h6 := merge_if (opt_is (terrain environment) "Húmedo/Resbaloso"
                      || opt_is (terrain environment) "Barro")
    "Superficie resbalosa/inestable: caídas al mismo nivel, pérdida de estabilidad de equipos." h5 in
  let h7 := merge_if (opt_is (weather environment) "Tormenta eléctrica")
    "Tormenta eléctrica: exposición a descarga, pérdida de control de tareas expuestas." h6 in
  let h8 := merge_if (opt_is (wind environment) "Fuerte"
                      || opt_is (weather environment) "Viento fuerte")
    "Viento fuerte: oscilación de cargas y pérdida de estabilidad/ control." h7 in
  let h9 := merge_if (has_items autoTriggers)
    "Condiciones críticas detectadas (STOP/REVIEW): ver auto_triggers y criterios de Stop Work." h8 in
  Returns
    (if has_items h9 then h9
     else [js "Riesgos generales de operación: interacción hombre-máquina, energías peligrosas, orden y aseo, y condiciones del entorno."]).

Definition mkStep (s : string) (hz ctl : list jstring) : Step :=
  {| step := js s; step_hazards := hz; step_controls := ctl |}.

Definition buildFallbackSteps (meta : Meta) (hazards : list jstring) (controls : Controls)
    (tasks : Tasks) (checklist : ChecklistActionsPayload) : list Step :=
  let topHazards := firstn 6 hazards in
  let topControls :=
    firstn 8 (mergeUnique (mergeUnique (engineering controls) (administrative controls))
                          (ppe controls)) in
  [mkStep "1) Charla preoperacional, roles, comunicación y verificación de competencias."
     topHazards
     (mergeUnique
        [js "Definir roles, responsable del trabajo, canales de comunicación y señales (incluye señalero si aplica)."]
        (firstn 3 (trimmed_nonblank (map action (actions checklist)))));
   mkStep "2) Inspección del área, demarcación, control de accesos y verificación de condiciones (ambiente/orden y aseo)."
     topHazards
     (mergeUnique
        [js "Delimitar y señalizar el área; establecer zonas de exclusión y rutas seguras.";
         js "Verificar iluminación/visibilidad/terreno y ajustar controles antes de iniciar."]
        topControls);
   mkStep "3) Verificación de equipos/herramientas y controles críticos antes de iniciar (incluye EPP)."
     topHazards
     (mergeUnique
        [js "Inspección preoperacional de equipos/herramientas; detener si hay defectos críticos."]
        topControls)]
  ++ (if lifting tasks then
        [mkStep "4) Ejecución de izaje/manejo de carga con control de zona de exclusión y comunicación señalero-operador."
           (mergeUnique topHazards
              [js "Caída de carga, golpeado por carga, atrapamiento, interacción con equipos móviles."])
           (mergeUnique
              [js "Aplicar plan de izaje (si aplica), verificar accesorios, puntos de izaje y capacidad; usar señalero competente."]
              topControls)]
      else [])
  ++ (if hotWork tasks then
        [mkStep "4) Ejecución de trabajo en caliente con control de ignición y vigilancia de incendio."
           (mergeUnique topHazards
              [js "Incendio/quemaduras, chispas/proyección, atmósfera inflamable, humos."])
           (mergeUnique
              [js "Validar permiso de trabajo en caliente (si aplica), extintor operativo, retirar combustibles y mantener vigilancia de fuego."]
              topControls)]
      else [])
  ++ (if workAtHeight tasks then
        [mkStep "4) Ejecución de trabajo en alturas con sistema anticaídas y control de caída de objetos."
           (mergeUnique topHazards
              [js "Caída a distinto nivel, anclajes inadecuados, caída de objetos."])
           (mergeUnique
              [js "Verificar anclajes/linea de vida, plan de rescate (si aplica) y uso correcto del arnés/sistema anticaídas."]
              topControls)]
      else [])
  ++ (if negb (lifting tasks) && negb (hotWork tasks) && negb (workAtHeight tasks) then
        [mkStep "4) Ejecución del trabajo según plan y controles definidos."
           topHazards topControls]
      else [])
  ++ [mkStep "5) Cierre del trabajo: retiro de demarcación, housekeeping, verificación final y registro de novedades."
        [js "Exposición residual por energías/orden y aseo, interacción con equipos en retiro."]
        [js "Asegurar condición segura final del área, retiro controlado de señalización y entrega del sitio.";
         js "Registrar observaciones/incidentes/casi-incidentes y controles implementados.";
         js "Registrar ATS: " ++ meta_title meta ++ js " | " ++ location meta ++ js " | "
           ++ date meta ++ js " | Turno: " ++ shift meta]].

(** ** The route *)

(** Process environment: whether [OPENAI_API_KEY] is set and the value of
    [REQUIRE_LESSON_LEARNED_ON_INCIDENTS], if any. *)
Record Config := {
  api_key : bool;
  require_lesson_env : option jstring
}.

Definition REQUIRE_LESSON_LEARNED_ON_INCIDENTS (cfg : Config) : bool :=
  negb (jstring_eqb
          (toLowerCase (match require_lesson_env cfg with
                        | Some s => s
                        | None => js "true"
                        end))
          (js "false")).

(** The answers of the route: the document of the body [{ ats }] as a client
    reads it, or an error. *)
Inductive response :=
| Json200 (ats : value)
| Json400 (error details : jstring)
| Json500 (error : jstring).

Definition generalCriteria : list jstring :=
  [js "Condiciones meteorológicas severas (tormenta eléctrica, vientos fuertes) que comprometan el control de la tarea.";
   js "Visibilidad/iluminación insuficiente para operar de forma segura.";
   js "Superficie/terreno inestable o resbaloso sin mitigación efectiva.";
   js "Fallas de equipos críticos, ausencia de permisos/aislamientos, o falta de personal competente.";
   js "Cualquier condición insegura que no pueda controlarse inmediatamente."].

(** What the route has computed when it calls the drafting service. *)
Record Seeds := {
  s_meta : Meta;
  s_environment : Environment;
  s_tasks : Tasks;
  s_autoTriggers : list jstring;
  s_procedure_refs : list ProcedureRef;
  s_normativeRefs : list NormRef;
  s_procedureInfluence : ProcedureInfluence;
  s_checklistBase : ChecklistActionsPayload
}.

Inductive prepared :=
| Ready (sd : Seeds)
| Answered (r : response).

Definition lesson_missing_msg : jstring :=
  js "Incidentes en trabajos similares = Sí, pero no se adjuntó lección aprendida (lesson_learned_brief).".

Definition lesson_action : ChecklistAction :=
  act high
    "Adjuntar y revisar una Lección Aprendida (procesada con /api/lesson-learned-brief) antes de iniciar. Socializar controles y validar aplicabilidad."
    ["Incidentes = Sí"; "Lección aprendida pendiente"]%string.

(** Flexible mode: the three updates of [checklistBase]. *)
Definition flexible_mode (base : ChecklistActionsPayload) : ChecklistActionsPayload :=
  {| decision_hint := match decision_hint base with
                      | CONTINUE => REVIEW_REQUIRED
                      | h => h
                      end;
     missing := mergeUnique (missing base) [lesson_missing_msg];
     critical_fails := critical_fails base;
     cl_derived_controls := cl_derived_controls base;
     actions := actions base ++ [lesson_action];
     snapshot := snapshot base |}.

Definition lesson_required : response :=
  Json400 (js "Lección aprendida requerida")
    (js "Marcaste 'Si' en incidentes en trabajos similares. Debes cargar una lección aprendida y procesarla con /api/lesson-learned-brief antes de generar el ATS.").

Definition server_error : response := Json500 (js "Error generando ATS").

(** The route up to the call of the drafting service. *)
Definition prepare_steps (cfg : Config) (body : value) : outcome prepared :=
  environment <- normalizeEnvironment (get body "environment") ;;
  normativeRefs <- normalizeNormRefs (get body "normative_refs") ;;
  let estrella := coalesce (get body "estrella_format") VNull in
  checklistBase <- deriveChecklistDeterministic estrella body ;;
  incidentsFlag <- normalizeYesNo (get (snapshot checklistBase) "incidentsReference") ;;
  lessonLearnedRef <- extractLessonLearnedRef body ;;
  let lacking := jstring_eqb incidentsFlag Si
                 && match lessonLearnedRef with Some _ => false | None => true end in
  if lacking && REQUIRE_LESSON_LEARNED_ON_INCIDENTS cfg then Returns (Answered lesson_required)
  else
    let checklistBase := if lacking then flexible_mode checklistBase else checklistBase in
    let procedure_refs_raw := pickArray (get body "procedure_refs") in
    let procedure_refs_combined :=
      match lessonLearnedRef with
      | Some ll => procedure_refs_raw ++ [ProcedureRef_value ll]
      | None => procedure_refs_raw
      end in
    procedure_refs <- mapM normalizeProcedureRef procedure_refs_combined ;;
    procedureInfluence <-
      buildProcedureInfluence (map ProcedureRef_value procedure_refs) ;;
    autoTriggersEnv <-
      computeStopWorkTriggers
        (VObj (prop "environment" (Environment_value environment) :: spread body)) ;;
    let lessonStopWork :=
      match lessonLearnedRef with
      | Some ll => trimmed_nonblank (brief_stop_work (brief ll))
      | None => []
      end in
    let autoTriggers :=
      mergeUnique autoTriggersEnv
        (map (fun x => js "Lección aprendida: " ++ x) lessonStopWork) in
    (* [body.jobTitle] throws on a [null] body *)
    if nullish body then Throws
    else
      Returns
        (Ready {| s_meta := {| meta_title := pickString (get body "jobTitle") (js "ATS");
                               company := pickString (get body "company") [];
                               location := pickString (get body "location") [];
                               date := pickString (get body "date") [];
                               shift := pickString (get body "shift") [] |};
                  s_environment := environment;
                  s_tasks := tasks_of body;
                  s_autoTriggers := autoTriggers;
                  s_procedure_refs := procedure_refs;
                  s_normativeRefs := normativeRefs;
                  s_procedureInfluence := procedureInfluence;
                  s_checklistBase := checklistBase |}).

(** A [TypeError] on the way is caught by the handler. *)
Definition prepare (cfg : Config) (body : value) : prepared :=
  match prepare_steps cfg body with
  | Returns p => p
  | Throws => Answered server_error
  end.

Definition Meta_value (m : Meta) : value :=
  VObj [prop "title" (VStr (meta_title m)); prop "company" (VStr (company m));
        prop "location" (VStr (location m)); prop "date" (VStr (date m));
        prop "shift" (VStr (shift m))].

Definition Source_value (s : Source) : value :=
  VObj [prop "title" (VStr (title s)); prop "code" (VStr (code s));
        prop "origin" (VStr (origin s))].

Definition DerivedControl_value (d : DerivedControl) : value :=
  VObj [prop "level" (VStr (Level_text (level d)));
        prop "control" (VStr (control d));
        prop "source" (Source_value (source d))].

Definition ProcedureInfluence_value (p : ProcedureInfluence) : value :=
  VObj [prop "applied" (VArr (map Source_value (applied p)));
        prop "not_parseable" (VArr (map Source_value (not_parseable p)));
        prop "derived_controls" (VArr (map DerivedControl_value (derived_controls p)))].

(** The document put in place of a draft that does not parse. *)
Definition substitute (sd : Seeds) : value :=
  VObj [prop "meta" (Meta_value (s_meta sd));
        prop "environment" (Environment_value (s_environment sd));
        prop "hazards" (VArr []);
        prop "controls" (VObj [prop "engineering" (VArr []);
                               prop "administrative" (VArr []);
                               prop "ppe" (VArr [])]);
        prop "steps" (VArr []);
        prop "stop_work"
          (VObj [prop "decision"
                   (VStr (if has_items (s_autoTriggers sd)
                          then js "REVIEW_REQUIRED" else js "CONTINUE"));
                 prop "auto_triggers" (VStrs (s_autoTriggers sd));
                 prop "criteria" (VStrs generalCriteria);
                 prop "rationale" (VStr (js "Salida no parseable; revisar."))]);
        prop "procedure_refs_used"
          (VArr (map Source_value (applied (s_procedureInfluence sd))));
        prop "procedure_influence" (ProcedureInfluence_value (s_procedureInfluence sd));
        prop "checklist_actions" (Payload_value (s_checklistBase sd));
        prop "normative_refs" (VArr (map NormRef_value (s_normativeRefs sd)));
        prop "recommendations" (VArr [])].

(** *** Deterministic post-processing *)

Definition sanitize_step (s : value) : outcome Step :=
  hz <- safeArrayStrings (get s "hazards") ;;
  ctl <- safeArrayStrings (get s "controls") ;;
  Returns {| step := pickString (get s "step") [];
             step_hazards := hz;
             step_controls := ctl |}.

(** The same on a step the route built itself: its arrays hold strings. *)
Definition resanitize_step (s : Step) : Step :=
  {| step := step s;
     step_hazards := trimmed_nonblank (step_hazards s);
     step_controls := trimmed_nonblank (step_controls s) |}.

Definition Step_value (s : Step) : value :=
  VObj [prop "step" (VStr (step s)); prop "hazards" (VStrs (step_hazards s));
        prop "controls" (VStrs (step_controls s))].

Definition post_meta (sd : Seeds) (ats : value) : Meta :=
  let m := get ats "meta" in
  {| meta_title := pickString (get m "title") (meta_title (s_meta sd));
     company := pickString (get m "company") (company (s_meta sd));
     location := pickString (get m "location") (location (s_meta sd));
     date := pickString (get m "date") (date (s_meta sd));
     shift := pickString (get m "shift") (shift (s_meta sd)) |}.

Definition post_environment (sd : Seeds) (ats : value) : outcome Environment :=
  normalizeEnvironment
    (coalesce (get ats "environment") (Environment_value (s_environment sd))).

(** [ats.controls = ats.controls || {}] and the three assignments that
    follow; on a truthy primitive the first of them throws. *)
Definition post_controls (ats : value) : outcome Controls :=
  let c := or_else (get ats "controls") (VObj []) in
  if writable c then
    eng <- safeArrayStrings (get c "engineering") ;;
    adm <- safeArrayStrings (get c "administrative") ;;
    epp <- safeArrayStrings (get c "ppe") ;;
    Returns {| engineering := eng; administrative := adm; ppe := epp |}
  else Throws.

Definition post_steps (ats : value) : outcome (list Step) :=
  mapM sanitize_step (pickArray (get ats "steps")).

(** [(r ? r + " " : "") + sentence] *)
Definition append_sentence (r : jstring) (sentence : string) : jstring :=
  (if is_empty r then [] else r ++ js " ") ++ js sentence.

Definition decision_is (d : value) (lit : string) : bool :=
  match d with VStr s => is_str s lit | _ => false end.

Definition set_decision (sw : StopWork) (d : string) (r : jstring) : StopWork :=
  {| decision := VStr (js d); auto_triggers := auto_triggers sw;
     criteria := criteria sw; rationale := r |}.

(** [ats.stop_work = ats.stop_work || {}], the seed values written over
    [auto_triggers] and [criteria], and the default rationale. *)
Definition post_stop_work (sd : Seeds) (ats : value) : outcome StopWork :=
  let sw := or_else (get ats "stop_work") (VObj []) in
  if writable sw then
    Returns {| decision := get sw "decision";
               auto_triggers := s_autoTriggers sd;
               criteria := generalCriteria;
               rationale :=
                 pickString (get sw "rationale")
                   (if has_items (s_autoTriggers sd)
                    then js "Condiciones críticas detectadas; requiere revisión."
                    else js "Sin condiciones críticas detectadas.") |}
  else Throws.

(** Triggers detected and a decision of CONTINUE: force a review. *)
Definition trigger_guard (autoTriggers : list jstring) (sw : StopWork) : StopWork :=
  if has_items autoTriggers && decision_is (decision sw) "CONTINUE" then
    set_decision sw "REVIEW_REQUIRED"
      (append_sentence (rationale sw)
         "Hay condiciones críticas detectadas automáticamente; se requiere revisión y control antes de continuar.")
  else sw.

(** No trigger and no valid decision: CONTINUE. *)
Definition default_decision (autoTriggers : list jstring) (sw : StopWork) : StopWork :=
  if negb (has_items autoTriggers)
     && negb (decision_is (decision sw) "STOP" || decision_is (decision sw) "CONTINUE"
              || decision_is (decision sw) "REVIEW_REQUIRED")
  then set_decision sw "CONTINUE" (rationale sw)
  else sw.

(** Checklist and optional enrichment: the merged checklist with its final
    guardrails. *)
Definition merge_checklist (sd : Seeds) (ats : value) (enriched : ChecklistActionsPayload)
    : outcome ChecklistActionsPayload :=
  let checklistBase := s_checklistBase sd in
  let checklistFromModel :=
    coalesce (get ats "checklist_actions") (Payload_value checklistBase) in
  merged <-
    sanitizeChecklistActions
      (VObj (spread (or_else (Payload_value enriched) (VObj []))
             ++ spread (or_else checklistFromModel (VObj []))))
      checklistBase ;;
  Returns
  {| decision_hint :=
       if has_items (critical_fails checklistBase) then STOP
       else if has_items (missing checklistBase) then
         match decision_hint merged with
         | CONTINUE => REVIEW_REQUIRED
         | h => h
         end
       else decision_hint merged;
     missing := missing merged;
     critical_fails := critical_fails merged;
     cl_derived_controls := cl_derived_controls merged;
     actions := actions merged;
     snapshot := snapshot merged |}.

Definition controls_of_level (lv : Level) (l : list DerivedControl) : list jstring :=
  map control (filter (fun x => Level_eqb (level x) lv) l).

(** Controls derived from the checklist, then from the procedures and the
    lesson learned, merged into the controls of the draft. *)
Definition merge_controls (sd : Seeds) (mergedChecklist : ChecklistActionsPayload)
    (c : Controls) : Controls :=
  let derived := cl_derived_controls mergedChecklist in
  let administrative1 :=
    mergeUnique (administrative c) (trimmed_nonblank (administrative derived)) in
  let ppe1 := mergeUnique (ppe c) (trimmed_nonblank (ppe derived)) in
  let engineering1 :=
    mergeUnique (engineering c) (trimmed_nonblank (engineering derived)) in
  let procDerived := derived_controls (s_procedureInfluence sd) in
  {| engineering :=
       mergeUnique engineering1
         (trimmed_nonblank (controls_of_level Engineering procDerived));
     administrative :=
       mergeUnique administrative1
         (trimmed_nonblank (controls_of_level Administrative procDerived));
     ppe :=
       mergeUnique ppe1
         (trimmed_nonblank (controls_of_level Ppe procDerived)) |}.

(** Adjust STOP WORK according to the checklist. *)
Definition checklist_adjust (hint : ChecklistDecisionHint) (sw : StopWork) : StopWork :=
  match hint with
  | STOP =>
      if negb (decision_is (decision sw) "STOP") then
        set_decision sw "STOP"
          (append_sentence (rationale sw)
             "Checklist corporativo (Formato Estrella) indica STOP por verificación negativa o control crítico no cumplido.")
      else sw
  | REVIEW_REQUIRED =>
      if decision_is (decision sw) "CONTINUE" then
        set_decision sw "REVIEW_REQUIRED"
          (append_sentence (rationale sw)
             "Checklist corporativo (Formato Estrella) requiere verificación adicional antes de continuar.")
      else sw
  | CONTINUE => sw
  end.

(** critical_fails -> auto_triggers *)
Definition checklist_triggers (mergedChecklist : ChecklistActionsPayload) (sw : StopWork)
    : StopWork :=
  let cf := trimmed_nonblank (critical_fails mergedChecklist) in
  if has_items cf then
    {| decision := decision sw;
       auto_triggers :=
         mergeUnique (auto_triggers sw) (map (fun x => js "Checklist: " ++ x) cf);
       criteria := criteria sw;
       rationale := rationale sw |}
  else sw.

(** The stop-work assessment of the final document. *)
Definition final_stop_work (sd : Seeds) (mergedChecklist : ChecklistActionsPayload)
    (sw : StopWork) : StopWork :=
  checklist_triggers mergedChecklist
    (checklist_adjust (decision_hint mergedChecklist)
       (default_decision (s_autoTriggers sd)
          (trigger_guard (s_autoTriggers sd) sw))).

Definition parse_verification (v : value) : Verification :=
  match v with
  | VStr s => if is_str s "ok" then ok else requires_verification
  | _ => requires_verification
  end.

Definition post_recommendation (allowed : list jstring) (r : value)
    : outcome Recommendation :=
  let basedOnRaw := pickArray (get r "based_on") in
  raw <- mapM (fun b =>
                 s <- String_or_empty (get b "standard") ;;
                 c <- String_or_empty (get b "clause") ;;
                 Returns (trim s, trim c)) basedOnRaw ;;
  let based :=
    map (fun b => (fst b, str_or_null (snd b)))
      (filter (fun b => nonblank (fst b) && includes allowed (fst b)) raw) in
  Returns
  {| topic := trim (pickString (get r "topic") []);
     recommendation := trim (pickString (get r "recommendation") []);
     based_on := based;
     verification := if has_items based then parse_verification (get r "verification")
                     else requires_verification |}.

Definition post_recommendations (sd : Seeds) (ats : value)
    : outcome (list Recommendation) :=
  let allowed := map standard (s_normativeRefs sd) in
  mapped <- mapM (post_recommendation allowed) (pickArray (get ats "recommendations")) ;;
  Returns
    (firstn 10
       (filter (fun r => nonblank (topic r) && nonblank (recommendation r)) mapped)).

(** *** Completeness: hazards and steps cannot stay empty *)

(** 1) hazards fallback: the synthesizer is called when the draft has none. *)
Definition hazards_or_fallback (fallback : outcome (list jstring)) (hz : list jstring)
    : outcome (list jstring) :=
  if has_items hz then Returns hz else fallback.

(** 3) harden the minimum of three hazards *)
Definition harden_hazards (fallback : outcome (list jstring)) (hz : list jstring)
    : outcome (list jstring) :=
  if (List.length hz <? 3)%nat then
    fb <- fallback ;; Returns (firstn 12 (mergeUnique hz fb))
  else Returns hz.

(** 2) steps fallback, 3) the minimum of four steps, 4) sanitize again:
    [hz1] are the hazards after 1), [hz2] after 3). *)
Definition complete_steps (fallback : list jstring -> list Step)
    (hz1 hz2 : list jstring) (st : list Step) : list Step :=
  let st1 := if has_items st then st else fallback hz1 in
  let st2 := if (List.length st1 <? 4)%nat then fallback hz2 else st1 in
  map resanitize_step st2.

(** The eleven properties the handler writes on the draft, in its order. *)
Definition build_document (cfg : Config) (sd : Seeds) (ats : value) (enrichment : reply)
    : outcome ATS :=
  if negb (writable ats) then Throws
  else
    let meta := post_meta sd ats in
    environment <- post_environment sd ats ;;
    hz0 <- safeArrayStrings (get ats "hazards") ;;
    c0 <- post_controls ats ;;
    st0 <- post_steps ats ;;
    sw0 <- post_stop_work sd ats ;;
    enriched <- enrichChecklistWithAI (api_key cfg) (s_checklistBase sd) enrichment ;;
    mergedChecklist <- merge_checklist sd ats enriched ;;
    let controls := merge_controls sd mergedChecklist c0 in
    let stop_work := final_stop_work sd mergedChecklist sw0 in
    normative <-
      normalizeNormRefs
        (coalesce (get ats "normative_refs")
           (VArr (map NormRef_value (s_normativeRefs sd)))) ;;
    recs <- post_recommendations sd ats ;;
    let fallbackHazards :=
      buildFallbackHazards mergedChecklist (s_tasks sd) environment
        (auto_triggers stop_work) in
    hz1 <- hazards_or_fallback fallbackHazards hz0 ;;
    hz2 <- harden_hazards fallbackHazards hz1 ;;
    let fallbackSteps hz :=
      buildFallbackSteps meta hz controls (s_tasks sd) mergedChecklist in
    Returns
      {| meta := meta;
         environment := environment;
         hazards := hz2;
         controls := controls;
         steps := complete_steps fallbackSteps hz1 hz2 st0;
         stop_work := stop_work;
         procedure_refs_used := applied (s_procedureInfluence sd);
         procedure_influence := s_procedureInfluence sd;
         checklist_actions := mergedChecklist;
         normative_refs := normative;
         recommendations := recs |}.

(** *** The body of the answer *)

Definition StopWork_value (sw : StopWork) : list (jstring * value) :=
  [prop "decision" (decision sw); prop "auto_triggers" (VStrs (auto_triggers sw));
   prop "criteria" (VStrs (criteria sw)); prop "rationale" (VStr (rationale sw))].

Definition Controls_written (c : Controls) : list (jstring * value) :=
  [prop "engineering" (VStrs (engineering c));
   prop "administrative" (VStrs (administrative c));
   prop "ppe" (VStrs (ppe c))].

Definition Verification_text (v : Verification) : jstring :=
  match v with ok => js "ok" | requires_verification => js "requires_verification" end.

Definition based_on_value (b : jstring * option jstring) : value :=
  VObj [prop "standard" (VStr (fst b)); prop "clause" (VOptStr (snd b))].

Definition Recommendation_value (r : Recommendation) : value :=
  VObj [prop "topic" (VStr (topic r)); prop "recommendation" (VStr (recommendation r));
        prop "based_on" (VArr (map based_on_value (based_on r)));
        prop "verification" (VStr (Verification_text (verification r)))].

(** The object [o] after the writes: a property that was written replaces
    the one [o] had, the others stay.  On an array the writes add named
    properties, which are no part of what [JSON.stringify] writes. *)
Definition overwrite (o : value) (written : list (jstring * value)) : value :=
  match o with
  | VArr l => VArr l
  | _ =>
      VObj (written
            ++ filter (fun p => negb (includes (map fst written) (fst p))) (spread o))
  end.

(** The draft with the eleven properties written on it.  [ats.controls] and
    [ats.stop_work] are the draft's own values when those are truthy; a
    decision the draft does not give and no guard sets is [undefined]. *)
Definition ATS_value (ats : value) (doc : ATS) : value :=
  overwrite ats
    [prop "meta" (Meta_value (meta doc));
     prop "environment" (Environment_value (environment doc));
     prop "hazards" (VStrs (hazards doc));
     prop "controls"
       (overwrite (or_else (get ats "controls") (VObj []))
          (Controls_written (controls doc)));
     prop "steps" (VArr (map Step_value (steps doc)));
     prop "stop_work"
       (overwrite (or_else (get ats "stop_work") (VObj []))
          (StopWork_value (stop_work doc)));
     prop "procedure_refs_used" (VArr (map Source_value (procedure_refs_used doc)));
     prop "procedure_influence" (ProcedureInfluence_value (procedure_influence doc));
     prop "checklist_actions" (Payload_value (checklist_actions doc));
     prop "normative_refs" (VArr (map NormRef_value (normative_refs doc)));
     prop "recommendations" (VArr (map Recommendation_value (recommendations doc)))].

(** [NextResponse.json({ ats }, { status: 200 })] *)
Definition answer (ats : value) (doc : ATS) : value := serialize (ATS_value ats doc).

(** From the draft to the response.  Each [Throws] is a [TypeError] caught by
    the handler's [catch], as is a rejected enrichment call. *)
Definition reconcile (cfg : Config) (sd : Seeds) (ats : value) (enrichment : reply)
    : response :=
  match build_document cfg sd ats enrichment with
  | Returns doc => Json200 (answer ats doc)
  | Throws => server_error
  end.

(** [POST]: [draft] is what the drafting call and [JSON.parse] come to,
    [enrichment] the same for the checklist sub-call (consulted only when the
    sub-call is made). *)
Definition POST (cfg : Config) (body : value) (draft enrichment : reply) : response :=
  match prepare cfg body with
  | Answered r => r
  | Ready sd =>
      match draft with
      | CallFails => server_error
      | Unparseable => reconcile cfg sd (substitute sd) enrichment
      | Parsed ats => reconcile cfg sd ats enrichment
      end
  end.

(** ** The output schema [ATS_SCHEMA] *)

(** The fragment of JSON Schema [ATS_SCHEMA] is written in: every object
    lists all its properties as required and allows no other. *)
Inductive schema :=
| SString
| SStringOrNull
| SNumberOrNull
| SEnum (options : list string)
| SArray (items : schema)
| SObject (properties : list (string * schema)).

Definition key_of (ks : string * schema) : jstring := js (fst ks).

Fixpoint validate (s : schema) (v : value) {struct s} : bool :=
  match s with
  | SString => match v with VStr _ => true | _ => false end
  | SStringOrNull => match v with VStr _ | VNull => true | _ => false end
  | SNumberOrNull => match v with VNum _ | VNull => true | _ => false end
  | SEnum options =>
      match v with VStr x => includes (map js options) x | _ => false end
  | SArray items =>
      match v with VArr l => forallb (validate items) l | _ => false end
  | SObject properties =>
      match v with
      | VObj props =>
          forallb (fun ks => validate (snd ks) (lookup (js (fst ks)) props)) properties
          && forallb (fun p => includes (map key_of properties) (fst p)) props
      | _ => false
      end
  end.

Definition meta_schema : schema :=
  SObject [("title", SString); ("company", SString); ("location", SString);
           ("date", SString); ("shift", SString)]%string.

Definition environment_schema : schema :=
  SObject [("timeOfDay", SStringOrNull); ("weather", SStringOrNull);
           ("temperatureC", SNumberOrNull); ("humidityPct", SNumberOrNull);
           ("wind", SStringOrNull); ("lighting", SStringOrNull);
           ("terrain", SStringOrNull); ("visibility", SStringOrNull);
           ("noiseLevel", SStringOrNull); ("procedureUsedText", SStringOrNull);
           ("controlsAvailable", SArray SString)]%string.

Definition controls_schema : schema :=
  SObject [("engineering", SArray SString); ("administrative", SArray SString);
           ("ppe", SArray SString)]%string.

Definition step_schema : schema :=
  SObject [("step", SString); ("hazards", SArray SString);
           ("controls", SArray SString)]%string.

Definition decision_schema : schema :=
  SEnum ["STOP"; "CONTINUE"; "REVIEW_REQUIRED"]%string.

Definition stop_work_schema : schema :=
  SObject [("decision", decision_schema); ("auto_triggers", SArray SString);
           ("criteria", SArray SString); ("rationale", SString)]%string.

Definition source_schema : schema :=
  SObject [("title", SString); ("code", SString); ("origin", SString)]%string.

Definition level_schema : schema := SEnum ["engineering"; "administrative"; "ppe"]%string.

Definition derived_control_schema : schema :=
  SObject [("level", level_schema); ("control", SString);
           ("source", source_schema)]%string.

Definition procedure_influence_schema : schema :=
  SObject [("applied", SArray source_schema); ("not_parseable", SArray source_schema);
           ("derived_controls", SArray derived_control_schema)]%string.

Definition action_schema : schema :=
  SObject [("priority", SEnum ["critical"; "high"; "medium"; "low"]);
           ("category", SEnum ["administrative"; "engineering"; "ppe"]);
           ("action", SString); ("evidence", SArray SString)]%string.

Definition supervisor_checks_schema : schema :=
  SObject [("stagesClarity", SString); ("hazardsControlled", SString);
           ("isolationConfirmed", SString); ("commsAgreed", SString);
           ("toolsOk", SString)]%string.

Definition snapshot_schema : schema :=
  SObject [("incidentsReference", SString); ("otherCompanies", SString);
           ("dangerTypes", SArray SString); ("environmentDangers", SArray SString);
           ("emergencies", SArray SString); ("safetyEquipment", SArray SString);
           ("lifeSavingRules", SArray SString);
           ("supervisorChecks", supervisor_checks_schema)]%string.

Definition checklist_actions_schema : schema :=
  SObject [("decision_hint", SEnum ["STOP"; "REVIEW_REQUIRED"; "CONTINUE"]);
           ("missing", SArray SString); ("critical_fails", SArray SString);
           ("derived_controls", controls_schema);
           ("actions", SArray action_schema);
           ("snapshot", snapshot_schema)]%string.

Definition norm_ref_schema : schema :=
  SObject [("standard", SString); ("clause", SStringOrNull); ("note", SStringOrNull);
           ("url", SStringOrNull)]%string.

Definition based_on_schema : schema :=
  SObject [("standard", SString); ("clause", SStringOrNull)]%string.

Definition recommendation_schema : schema :=
  SObject [("topic", SString); ("recommendation", SString);
           ("based_on", SArray based_on_schema);
           ("verification", SEnum ["ok"; "requires_verification"])]%string.

Definition ATS_SCHEMA : schema :=
  SObject [("meta", meta_schema); ("environment", environment_schema);
           ("hazards", SArray SString); ("controls", controls_schema);
           ("steps", SArray step_schema); ("stop_work", stop_work_schema);
           ("procedure_refs_used", SArray source_schema);
           ("procedure_influence", procedure_influence_schema);
           ("checklist_actions", checklist_actions_schema);
           ("normative_refs", SArray norm_ref_schema);
           ("recommendations", SArray recommendation_schema)]%string.

(** An object written property by property after the schema's list. *)
Definition fields (properties : list (string * schema)) (vs : list value)
    : list (jstring * value) :=
  combine (map key_of properties) vs.

(** * Vocabulary of the properties and sample inputs *)

(** ** Strings *)

(** A string with no white space at either end. *)
Definition trimmed (s : jstring) : Prop := trim s = s.

(** ** Arrays of strings *)

(** An entry as [safeArrayStrings] and [mergeUnique] leave it. *)
Definition tidy (s : jstring) : Prop := trimmed s /\ s <> [].

(** A list as [mergeUnique] leaves it: tidy entries, no repetition. *)
Definition clean (l : list jstring) : Prop := Forall tidy l /\ NoDup l.

Definition tidy_controls (c : Controls) : Prop :=
  Forall tidy (engineering c) /\ Forall tidy (administrative c) /\ Forall tidy (ppe c).

Definition tidy_opt (o : option jstring) : Prop :=
  match o with Some s => tidy s | None => True end.

(** [String(o ?? "")] for a string or [null]. *)
Definition opt_text (o : option jstring) : jstring :=
  match o with Some s => s | None => [] end.

(** A normative reference as [normalizeNormRefs] leaves it. *)
Definition tidy_norm_ref (n : NormRef) : Prop :=
  tidy (standard n) /\ tidy_opt (clause n) /\ tidy_opt (note n) /\ tidy_opt (url n).

(** A brief as [normalizeProcedureRef] leaves it. *)
Definition tidy_brief (b : Brief) : Prop :=
  Forall tidy (mandatory_permits b)
  /\ tidy_controls (critical_controls b)
  /\ Forall tidy (brief_stop_work b)
  /\ Forall tidy (mandatory_steps b)
  /\ Forall tidy (restrictions b).

(** ** The deterministic checklist evaluator *)

Definition row_missing (row : string * jstring * string) : list jstring :=
  match row with
  | (label, val, _) => if is_empty val then [sup_missing_msg label] else []
  end.

Definition row_fails (row : string * jstring * string) : list jstring :=
  match row with
  | (label, val, _) =>
      if negb (is_empty val) && is_str val "NO" then [sup_fail_msg label] else []
  end.

Definition row_actions (row : string * jstring * string) : list ChecklistAction :=
  match row with
  | (_, val, text) =>
      if negb (is_empty val) && is_str val "NO" then [sup_action text] else []
  end.

Definition is_critical (a : ChecklistAction) : bool :=
  match priority a with critical => true | _ => false end.

(** The five supervisor answers are all the string NO. *)
Definition all_negative (s : value) : bool :=
  forallb (fun row => match row with
                      | (_, key, _) => is_str (supervisor_answer s key) "NO"
                      end) supItems.

Definition five_negative : value :=
  VObj [prop "authorizations"
          (VObj [prop "supervisor"
                   (VObj [prop "checks"
                            (VObj [prop "stagesClarity" (VStr (js "NO"));
                                   prop "hazardsControlled" (VStr (js "NO"));
                                   prop "isolationConfirmed" (VStr (js "NO"));
                                   prop "commsAgreed" (VStr (js "NO"));
                                   prop "toolsOk" (VStr (js "NO"))])])])].


(** ** Stop-work decision through reconciliation *)

(** Severity order CONTINUE < REVIEW_REQUIRED < STOP; a decision that is none
    of the three ranks with CONTINUE. *)
Definition severity (d : value) : nat :=
  if decision_is d "STOP" then 2
  else if decision_is d "REVIEW_REQUIRED" then 1
  else 0.

(** The steps that rewrite [stop_work.decision], in the order of the route. *)
Definition decision_steps (autoTriggers : list jstring)
    (mergedChecklist : ChecklistActionsPayload) : list (StopWork -> StopWork) :=
  [trigger_guard autoTriggers;
   default_decision autoTriggers;
   checklist_adjust (decision_hint mergedChecklist);
   checklist_triggers mergedChecklist].

(** ** The procedure aggregator *)

(** The candidates pushed to [derived_controls] before the filter, for the
    normalized references. *)
Definition candidates (normalized : list ProcedureRef) : list DerivedControl :=
  flat_map controls_of_ref (filter parseable normalized).



Definition brief_with (code : string) (eng : list string) : value :=
  VObj [prop "code" (VStr (js code));
        prop "brief"
          (VObj [prop "critical_controls"
                   (VObj [prop "engineering" (VStrs (map js eng))])])].



(** ** Clean lists, by computation *)

Fixpoint nodup_b (l : list jstring) : bool :=
  match l with
  | [] => true
  | x :: r => negb (includes r x) && nodup_b r
  end.

Definition tidy_b (s : jstring) : bool := jstring_eqb (trim s) s && nonblank s.

Definition clean_b (l : list jstring) : bool := forallb tidy_b l && nodup_b l.

(** The entries of [l] whose flag is set, in order: what a run of
    conditional pushes leaves. *)
Definition select (l : list (bool * jstring)) : list jstring :=
  flat_map (fun bx : bool * jstring => if fst bx then [snd bx] else []) l.

(** The nine messages [missing] can hold, with the conditions of their
    pushes. *)
Definition missing_flags (s : value) (a : Answers) : list (bool * jstring) :=
  map (fun row => match row with
                  | (label, key, _) =>
                      (is_empty (supervisor_answer s key), sup_missing_msg label)
                  end) supItems
  ++ [(is_empty (pickString (get s "elaborationDate") []),
       js "Falta fecha de elaboración (Formato Estrella).");
      (is_empty (pickString (get s "executionDate") []),
       js "Falta fecha de ejecución (Formato Estrella).");
      (is_empty (incidentsReference a),
       js "No se respondió: Incidentes en trabajos similares (Si/No).");
      (is_empty (otherCompanies a),
       js "No se respondió: Involucra personal de otras compañías (Si/No).")].

(** ** The lesson-learned precondition *)

(** The normalized incidents answer of the request's checklist. *)
Definition incidents_answer (body : value) : outcome jstring :=
  normalizeYesNo
    (get (estrella_object (coalesce (get body "estrella_format") VNull))
         "incidentsReference").

Definition strict_mode : Config := {| api_key := true; require_lesson_env := None |}.

Definition flexible : Config :=
  {| api_key := true; require_lesson_env := Some (js "false") |}.

(** The references the route normalizes: those of the request, then the
    lesson learned. *)
Definition procedure_refs_combined (body : value) (lessonLearnedRef : option ProcedureRef)
    : list value :=
  match lessonLearnedRef with
  | Some ll => pickArray (get body "procedure_refs") ++ [ProcedureRef_value ll]
  | None => pickArray (get body "procedure_refs")
  end.

(** The triggers of the lesson learned, as the route prefixes them. *)
Definition lesson_triggers (lessonLearnedRef : option ProcedureRef) : list jstring :=
  match lessonLearnedRef with
  | Some ll =>
      map (fun x => js "Lección aprendida: " ++ x)
        (trimmed_nonblank (brief_stop_work (brief ll)))
  | None => []
  end.

(** The request as [computeStopWorkTriggers] receives it. *)
Definition with_environment (body : value) (environment : Environment) : value :=
  VObj (prop "environment" (Environment_value environment) :: spread body).

(** A request with an affirmative incidents answer, no lesson learned, and a
    danger type that [String] cannot convert. *)
Definition incidents_unreadable : value :=
  VObj [prop "jobTitle" (VStr (js "Izaje de bomba"));
        prop "estrella_format"
          (VObj [prop "incidentsReference" (VStr (js "Si"));
                 prop "dangerTypes" (VArr [VObj [prop "toString" (VBool true)]])])].

Definition incidents_without_lesson : value :=
  VObj [prop "jobTitle" (VStr (js "Izaje de bomba"));
        prop "estrella_format" (VObj [prop "incidentsReference" (VStr (js "Si"))])].

(** *** Sample requests *)

Definition checks_all (answer : string) : value :=
  VObj [prop "supervisor"
          (VObj [prop "checks"
                   (VObj [prop "stagesClarity" (VStr (js answer));
                          prop "hazardsControlled" (VStr (js answer));
                          prop "isolationConfirmed" (VStr (js answer));
                          prop "commsAgreed" (VStr (js answer));
                          prop "toolsOk" (VStr (js answer))])])].

(** A request with every checklist question answered, no incident, no
    trigger; only the emergencies and life-saving rules are left unselected. *)
Definition quiet_request : value :=
  VObj [prop "jobTitle" (VStr (js "Cambio de válvula"));
        prop "estrella_format"
          (VObj [prop "incidentsReference" (VStr (js "No"));
                 prop "otherCompanies" (VStr (js "No"));
                 prop "elaborationDate" (VStr (js "2026-01-10"));
                 prop "executionDate" (VStr (js "2026-01-11"));
                 prop "authorizations" (checks_all "SI")])].

(** A request with an electrical storm and a lifting task. *)
Definition storm_request : value :=
  VObj [prop "jobTitle" (VStr (js "Izaje de bomba"));
        prop "lifting" (VBool true);
        prop "environment" (VObj [prop "weather" (VStr (js "Tormenta eléctrica"))])].

(** A request whose supervisor answered NO five times. *)
Definition refused_request : value :=
  VObj [prop "jobTitle" (VStr (js "Cambio de válvula"));
        prop "estrella_format" (VObj [prop "authorizations" (checks_all "NO")])].

(** A draft that decides CONTINUE and brings one step and no hazard. *)
Definition draft_continue : value :=
  VObj [prop "stop_work"
          (VObj [prop "decision" (VStr (js "CONTINUE"));
                 prop "rationale" (VStr (js "Sin novedades."))]);
        prop "steps"
          (VArr [VObj [prop "step" (VStr (js "Cerrar la línea y drenar."));
                       prop "hazards" (VArr []);
                       prop "controls" (VArr [])]])].

(** An enrichment reply that reports a critical fail the seed does not have
    and keeps the hint at CONTINUE. *)
Definition enrichment_adds_fail : value :=
  VObj [prop "decision_hint" (VStr (js "CONTINUE"));
        prop "critical_fails" (VArr [VStr (js "Permiso de trabajo vencido")])].

(** A list of normative references as a request may bring it. *)
Definition sample_norm_refs : value :=
  VArr [VObj [prop "standard" (VStr (js " ISO 45001 ")); prop "clause" (VStr (js " "))];
        VObj [prop "clause" (VStr (js "4.1"))]].

(** An enrichment reply whose snapshot is an empty object. *)
Definition enrichment_bare_snapshot : value := VObj [prop "snapshot" (VObj [])].

(** The document of a 200 answer. *)
Definition document (r : response) : option value :=
  match r with Json200 doc => Some doc | _ => None end.

(** ** Completeness of hazards and steps *)

(** The value the route post-processes: the parsed draft, or the substitute
    document when the draft does not parse. *)
Definition draft_value (sd : Seeds) (draft : reply) : value :=
  match draft with Parsed ats => ats | _ => substitute sd end.

(** ** The answered body *)

(** A value [serialize] leaves as it is, also as an element or a property. *)
Definition plain (v : value) : Prop := element v = v.

(** The eleven properties of the answered document, for a draft that is a
    JSON object. *)
Definition answered_members (ats : value) (doc : ATS) : list (jstring * value) :=
  [prop "meta" (Meta_value (meta doc));
   prop "environment" (serialize (Environment_value (environment doc)));
   prop "hazards" (VStrs (hazards doc));
   prop "controls"
     (serialize (overwrite (or_else (get ats "controls") (VObj []))
                   (Controls_written (controls doc))));
   prop "steps" (VArr (map Step_value (steps doc)));
   prop "stop_work"
     (serialize (overwrite (or_else (get ats "stop_work") (VObj []))
                   (StopWork_value (stop_work doc))));
   prop "procedure_refs_used" (VArr (map Source_value (procedure_refs_used doc)));
   prop "procedure_influence" (ProcedureInfluence_value (procedure_influence doc));
   prop "checklist_actions" (serialize (Payload_value (checklist_actions doc)));
   prop "normative_refs" (VArr (map NormRef_value (normative_refs doc)));
   prop "recommendations" (VArr (map Recommendation_value (recommendations doc)))].

(** The stop-work assessment and the controls of the substitute document
    after they were sanitized. *)
Definition substitute_stop_work (sd : Seeds) : StopWork :=
  {| decision := VStr (if has_items (s_autoTriggers sd)
                       then js "REVIEW_REQUIRED" else js "CONTINUE");
     auto_triggers := s_autoTriggers sd;
     criteria := generalCriteria;
     rationale := js "Salida no parseable; revisar." |}.

Definition no_controls : Controls :=
  {| engineering := []; administrative := []; ppe := [] |}.

(** ** The steps of the post-processing *)

(** What the steps of the post-processing returned for a document that was
    built: [hz0], [c0], [st0] and [sw0] are the hazards, controls, steps and
    stop-work assessment right after the draft was sanitized, [enriched] is
    what the enrichment came to, [hz1] are the hazards after the first
    fallback. *)
Record built (cfg : Config) (sd : Seeds) (ats : value) (e : reply) (doc : ATS)
    (hz0 : list jstring) (c0 : Controls) (st0 : list Step) (sw0 : StopWork)
    (enriched : ChecklistActionsPayload) (hz1 : list jstring) : Prop := {
  b_writable : writable ats = true;
  b_meta : meta doc = post_meta sd ats;
  b_environment : post_environment sd ats = Returns (environment doc);
  b_hazards0 : safeArrayStrings (get ats "hazards") = Returns hz0;
  b_controls0 : post_controls ats = Returns c0;
  b_steps0 : post_steps ats = Returns st0;
  b_stop_work0 : post_stop_work sd ats = Returns sw0;
  b_enriched :
    enrichChecklistWithAI (api_key cfg) (s_checklistBase sd) e = Returns enriched;
  b_checklist : merge_checklist sd ats enriched = Returns (checklist_actions doc);
  b_controls : controls doc = merge_controls sd (checklist_actions doc) c0;
  b_stop_work : stop_work doc = final_stop_work sd (checklist_actions doc) sw0;
  b_normative :
    normalizeNormRefs
      (coalesce (get ats "normative_refs") (VArr (map NormRef_value (s_normativeRefs sd))))
    = Returns (normative_refs doc);
  b_recommendations : post_recommendations sd ats = Returns (recommendations doc);
  b_hazards1 :
    hazards_or_fallback
      (buildFallbackHazards (checklist_actions doc) (s_tasks sd) (environment doc)
         (auto_triggers (stop_work doc))) hz0 = Returns hz1;
  b_hazards :
    harden_hazards
      (buildFallbackHazards (checklist_actions doc) (s_tasks sd) (environment doc)
         (auto_triggers (stop_work doc))) hz1 = Returns (hazards doc);
  b_steps :
    steps doc
    = complete_steps
        (fun hz => buildFallbackSteps (meta doc) hz (controls doc) (s_tasks sd)
                     (checklist_actions doc))
        hz1 (hazards doc) st0;
  b_refs_used : procedure_refs_used doc = applied (s_procedureInfluence sd);
  b_influence : procedure_influence doc = s_procedureInfluence sd
}.

(** ** The checklist seed through the sanitizer *)

Definition tidy_action (a : ChecklistAction) : Prop :=
  nonblank (trim (action a)) = true /\ Forall tidy (evidence a).

Definition tidy_action_b (a : ChecklistAction) : bool :=
  nonblank (trim (action a)) && forallb tidy_b (evidence a).

(** A payload the sanitizer returns as it is, with a hint that agrees with
    its lists. *)
Record settled (p : ChecklistActionsPayload) : Prop := {
  settled_missing : Forall tidy (missing p);
  settled_fails : Forall tidy (critical_fails p);
  settled_controls : tidy_controls (cl_derived_controls p);
  settled_actions : Forall tidy_action (actions p);
  settled_snapshot : truthy (snapshot p) && typeof_object (snapshot p) = true;
  settled_stop : critical_fails p <> [] -> decision_hint p = STOP;
  settled_review : missing p <> [] -> decision_hint p <> CONTINUE
}.

(** * Properties *)

(** ** Literals *)

Example js_accent : js "sí" = [115; 237]%N.
Proof. reflexivity. Qed.

Example normalizeYesNo_upper : normalizeYesNo (VStr (js "  SÍ ")) = Returns Si.
Proof. reflexivity. Qed.

(** ** Strings *)

Lemma jstring_eqb_eq (a b : jstring) : jstring_eqb a b = true <-> a = b.
Proof.
  revert b; induction a as [|x a IH]; intros [|y b]; simpl; split; intro H;
    try reflexivity; try discriminate.
  - apply andb_true_iff in H as [Hx Hab].
    apply N.eqb_eq in Hx. apply IH in Hab. congruence.
  - injection H as -> ->. rewrite N.eqb_refl. apply IH. reflexivity.
Qed.

Lemma jstring_eqb_refl (a : jstring) : jstring_eqb a a = true.
Proof. apply jstring_eqb_eq. reflexivity. Qed.

Lemma includes_In (l : list jstring) (s : jstring) : includes l s = true <-> In s l.
Proof.
  unfold includes. rewrite existsb_exists. split.
  - intros [x [Hin Hx]]. apply jstring_eqb_eq in Hx. subst. exact Hin.
  - intro H. exists s. split; [exact H | apply jstring_eqb_refl].
Qed.

Lemma includes_not_In (l : list jstring) (s : jstring) :
  includes l s = false <-> ~ In s l.
Proof.
  rewrite <- includes_In. destruct (includes l s); split; intro H;
    try discriminate; try reflexivity; try (intro H'; discriminate).
  exfalso. apply H. reflexivity.
Qed.

Lemma trimStart_fixed (s : jstring) : trimStart (trimStart s) = trimStart s.
Proof.
  induction s as [|c r IH]; simpl; [reflexivity|].
  destruct (is_ws c) eqn:E; [exact IH|]. simpl. rewrite E. reflexivity.
Qed.

Lemma trimStart_suffix (s : jstring) : exists p, s = p ++ trimStart s.
Proof.
  induction s as [|c r [p Hp]]; simpl.
  - exists []. reflexivity.
  - destruct (is_ws c).
    + exists (c :: p). simpl. f_equal. exact Hp.
    + exists []. reflexivity.
Qed.

(** Dropping white space at the end keeps a clean start clean. *)
Lemma trimStart_app_fixed (s t : jstring) :
  trimStart (s ++ t) = s ++ t -> s <> [] -> trimStart s = s.
Proof.
  destruct s as [|c r]; [congruence|]. simpl. intros H _.
  destruct (is_ws c); [|reflexivity].
  exfalso. destruct (trimStart_suffix (r ++ t)) as [p Hp].
  rewrite H in Hp. apply (f_equal (@List.length N)) in Hp.
  simpl in Hp. rewrite !length_app in Hp. simpl in Hp. rewrite !length_app in Hp. lia.
Qed.

Lemma trimEnd_prefix (s : jstring) : exists q, s = trimEnd s ++ q.
Proof.
  unfold trimEnd. destruct (trimStart_suffix (rev s)) as [p Hp].
  exists (rev p). apply (f_equal (@rev N)) in Hp.
  rewrite rev_involutive, rev_app_distr in Hp. exact Hp.
Qed.

Lemma trimEnd_fixed (s : jstring) : trimEnd (trimEnd s) = trimEnd s.
Proof.
  unfold trimEnd. rewrite rev_involutive, trimStart_fixed. reflexivity.
Qed.

Lemma trimStart_trimEnd (s : jstring) :
  trimStart s = s -> trimStart (trimEnd s) = trimEnd s.
Proof.
  intro H. destruct (trimEnd_prefix s) as [q Hq].
  destruct (trimEnd s) as [|c r] eqn:E; [reflexivity|].
  apply trimStart_app_fixed with (t := q); [|discriminate].
  rewrite <- Hq. exact H.
Qed.

Theorem trim_trimmed (s : jstring) : trimmed (trim s).
Proof.
  unfold trimmed, trim.
  rewrite trimStart_trimEnd by apply trimStart_fixed.
  apply trimEnd_fixed.
Qed.

(** ** Arrays of strings *)

Lemma is_empty_false (s : jstring) : is_empty s = false <-> s <> [].
Proof. destruct s; simpl; split; congruence. Qed.

Lemma is_empty_true (s : jstring) : is_empty s = true <-> s = [].
Proof. destruct s; simpl; split; congruence. Qed.

Lemma has_items_true {A : Type} (l : list A) : has_items l = true <-> l <> [].
Proof. destruct l; simpl; split; congruence. Qed.

Lemma has_items_false {A : Type} (l : list A) : has_items l = false <-> l = [].
Proof. destruct l; simpl; split; congruence. Qed.

Lemma tidy_trim (s : jstring) : is_empty (trim s) = false -> tidy (trim s).
Proof. intro H. split; [apply trim_trimmed | apply is_empty_false, H]. Qed.

Lemma trimmed_nonblank_tidy (l : list jstring) : Forall tidy (trimmed_nonblank l).
Proof.
  unfold trimmed_nonblank. induction l as [|s r IH]; simpl; [constructor|].
  unfold nonblank at 1. destruct (is_empty (trim s)) eqn:E; simpl; [exact IH|].
  constructor; [apply tidy_trim, E | exact IH].
Qed.

Lemma trimmed_nonblank_id (l : list jstring) : Forall tidy l -> trimmed_nonblank l = l.
Proof.
  unfold trimmed_nonblank. induction 1 as [|s r [Ht Hn] _ IH]; simpl; [reflexivity|].
  rewrite Ht. unfold nonblank at 1.
  apply is_empty_false in Hn. rewrite Hn. simpl. f_equal. exact IH.
Qed.

(** *** Computations that may throw *)

Lemma bind_inv {A B : Type} (o : outcome A) (k : A -> outcome B) (b : B) :
  (x <- o ;; k x) = Returns b -> exists a, o = Returns a /\ k a = Returns b.
Proof. destruct o as [a|]; simpl; [eauto | discriminate]. Qed.

Lemma Returns_inj {A : Type} (a b : A) : Returns a = Returns b -> a = b.
Proof. intro H. injection H as H. exact H. Qed.

(** Splits a hypothesis [x <- o ;; k = Returns b] into the steps that
    returned. *)
Ltac returned H :=
  repeat match type of H with
         | bind _ _ = Returns _ =>
             let x := fresh "x" in
             let E := fresh "E" in
             apply bind_inv in H as [x [E H]]
         end.

Lemma mapM_Forall2 {A B : Type} (f : A -> outcome B) (l : list A) (ys : list B) :
  mapM f l = Returns ys <-> Forall2 (fun x y => f x = Returns y) l ys.
Proof.
  revert ys; induction l as [|x r IH]; intro ys; simpl.
  - split; [intro H; injection H as <-; constructor | intro H; inversion H; reflexivity].
  - split.
    + intro H. returned H. injection H as <-. constructor; [assumption|].
      apply IH. assumption.
    + intro H. inversion H as [|? y ? ys' Hx Hr]; subst.
      rewrite Hx. simpl. apply IH in Hr. rewrite Hr. reflexivity.
Qed.

Lemma mapM_length {A B : Type} (f : A -> outcome B) (l : list A) (ys : list B) :
  mapM f l = Returns ys -> List.length ys = List.length l.
Proof.
  intro H. apply mapM_Forall2 in H. symmetry. eapply Forall2_length, H.
Qed.

Lemma mapM_In {A B : Type} (f : A -> outcome B) (l : list A) (ys : list B) (y : B) :
  mapM f l = Returns ys -> In y ys -> exists x, In x l /\ f x = Returns y.
Proof.
  intro H. apply mapM_Forall2 in H. induction H as [|x y' l' ys' Hxy _ IH];
    intros [].
  - subst. exists x. split; [left; reflexivity | exact Hxy].
  - destruct (IH H) as [x' [Hin Hx]]. exists x'. split; [right; exact Hin | exact Hx].
Qed.


Lemma mapM_app_inv {A B : Type} (f : A -> outcome B) (a b : list A) (ys : list B) :
  mapM f (a ++ b) = Returns ys ->
  exists ya yb, mapM f a = Returns ya /\ mapM f b = Returns yb /\ ys = ya ++ yb.
Proof.
  rewrite mapM_Forall2. intro H. apply Forall2_app_inv_l in H as [ya [yb [Ha [Hb ->]]]].
  exists ya, yb. rewrite !mapM_Forall2. auto.
Qed.

(** A step that returns on every element returns on the array. *)
Lemma mapM_map {A B C : Type} (f : B -> outcome C) (g : A -> B) (h : A -> C)
    (l : list A) :
  (forall x, In x l -> f (g x) = Returns (h x)) ->
  mapM f (map g l) = Returns (map h l).
Proof.
  induction l as [|x r IH]; intro H; simpl; [reflexivity|].
  rewrite (H x (or_introl eq_refl)). simpl. rewrite IH; [reflexivity|].
  intros y Hy. apply H. right. exact Hy.
Qed.

Lemma mapM_VStr (l : list jstring) : mapM String_or_empty (map VStr l) = Returns l.
Proof.
  rewrite (mapM_map String_or_empty VStr (fun s => s)); [rewrite map_id; reflexivity|].
  reflexivity.
Qed.

Lemma safeArrayStrings_tidy (v : value) (l : list jstring) :
  safeArrayStrings v = Returns l -> Forall tidy l.
Proof.
  destruct v; simpl; intro H; try (injection H as <-; constructor).
  returned H. injection H as <-. apply trimmed_nonblank_tidy.
Qed.

Lemma safeArrayStrings_VStrs (l : list jstring) :
  safeArrayStrings (VStrs l) = Returns (trimmed_nonblank l).
Proof. unfold safeArrayStrings, VStrs. rewrite mapM_VStr. reflexivity. Qed.

Lemma safeArrayStrings_id (l : list jstring) :
  Forall tidy l -> safeArrayStrings (VStrs l) = Returns l.
Proof. intro H. rewrite safeArrayStrings_VStrs, trimmed_nonblank_id; auto. Qed.

Lemma mergeUnique_loop_app (out a b : list jstring) :
  mergeUnique_loop out (a ++ b) = mergeUnique_loop (mergeUnique_loop out a) b.
Proof.
  revert out; induction a as [|s r IH]; intro out; simpl; [reflexivity|].
  destruct (is_empty (trim s)); [apply IH|].
  destruct (includes out (trim s)); apply IH.
Qed.

Lemma mergeUnique_loop_prefix (out l : list jstring) :
  exists t, mergeUnique_loop out l = out ++ t.
Proof.
  revert out; induction l as [|s r IH]; intro out; simpl.
  - exists []. symmetry. apply app_nil_r.
  - destruct (is_empty (trim s)); [apply IH|].
    destruct (includes out (trim s)); [apply IH|].
    destruct (IH (out ++ [trim s])) as [t Ht].
    exists (trim s :: t). rewrite Ht, <- app_assoc. reflexivity.
Qed.

Lemma mergeUnique_loop_clean (out l : list jstring) :
  clean out -> clean (mergeUnique_loop out l).
Proof.
  revert out; induction l as [|s r IH]; intros out Hc; simpl; [exact Hc|].
  destruct (is_empty (trim s)) eqn:E; [apply IH, Hc|].
  destruct (includes out (trim s)) eqn:I; [apply IH, Hc|].
  apply IH. destruct Hc as [Ht Hn]. split.
  - apply Forall_app. split; [exact Ht|]. constructor; [apply tidy_trim, E | constructor].
  - apply NoDup_app; [exact Hn | repeat constructor; intros [] |].
    intros x Hx [<-|[]]. apply includes_not_In in I. contradiction.
Qed.

Lemma mergeUnique_loop_id (out l : list jstring) :
  Forall tidy l -> NoDup (out ++ l) -> mergeUnique_loop out l = out ++ l.
Proof.
  revert out; induction l as [|s r IH]; intros out Ht Hn; simpl.
  - symmetry. apply app_nil_r.
  - inversion Ht as [|? ? [Hs Hne] Hr]; subst.
    rewrite Hs. apply is_empty_false in Hne. rewrite Hne.
    assert (I : includes out s = false).
    { apply includes_not_In. intro Hin.
      apply NoDup_remove_2 in Hn. apply Hn. apply in_or_app. left. exact Hin. }
    rewrite I. rewrite IH.
    + rewrite <- app_assoc. reflexivity.
    + exact Hr.
    + rewrite <- app_assoc. exact Hn.
Qed.

Lemma clean_nil : clean [].
Proof. split; constructor. Qed.

Theorem mergeUnique_clean (a b : list jstring) : clean (mergeUnique a b).
Proof. apply mergeUnique_loop_clean, clean_nil. Qed.

(** Merging into a clean list only appends to it. *)
Theorem mergeUnique_extends (a b : list jstring) :
  clean a -> exists t, mergeUnique a b = a ++ t.
Proof.
  intros [Ht Hn]. unfold mergeUnique. rewrite mergeUnique_loop_app.
  rewrite (mergeUnique_loop_id [] Ht Hn). simpl. apply mergeUnique_loop_prefix.
Qed.

Lemma mergeUnique_loop_In (out l : list jstring) (x : jstring) :
  In x (mergeUnique_loop out l) <->
  In x out \/ (exists s, In s l /\ trim s = x /\ x <> []).
Proof.
  revert out; induction l as [|s r IH]; intro out; simpl.
  - split; [auto | intros [H|[s [[] _]]]; exact H].
  - destruct (is_empty (trim s)) eqn:E.
    + rewrite IH. split; intros [H|[s' [Hin Hs']]]; auto.
      * right. exists s'. auto.
      * destruct Hin as [<-|Hin]; [|right; exists s'; auto].
        destruct Hs' as [Hs' Hne]. apply is_empty_true in E. congruence.
    + destruct (includes out (trim s)) eqn:I.
      * rewrite IH. split; intros [H|[s' [Hin Hs']]]; auto.
        -- right. exists s'. auto.
        -- destruct Hin as [<-|Hin]; [|right; exists s'; auto].
           left. apply includes_In in I. destruct Hs' as [<- _]. exact I.
      * rewrite IH, in_app_iff. simpl. split.
        -- intros [[H|[<-|[]]]|[s' [Hin Hs']]]; auto.
           ++ right. exists s. apply is_empty_false in E. auto.
           ++ right. exists s'. auto.
        -- intros [H|[s' [[<-|Hin] [Hs' Hne]]]]; auto.
           right. exists s'. auto.
Qed.

(** ** The deterministic checklist evaluator *)

Lemma supervisor_loop_spec (rows : list (string * jstring * string)) (st : Findings) :
  supervisor_loop rows st =
  {| f_missing := f_missing st ++ flat_map row_missing rows;
     f_criticalFails := f_criticalFails st ++ flat_map row_fails rows;
     f_actions := f_actions st ++ flat_map row_actions rows |}.
Proof.
  revert st; induction rows as [|[[label val] text] r IH]; intro st; simpl.
  - rewrite !app_nil_r. destruct st; reflexivity.
  - destruct (is_empty val); simpl.
    + rewrite IH. simpl. rewrite <- !app_assoc. reflexivity.
    + destruct (is_str val "NO"); simpl; rewrite IH; simpl;
        rewrite <- ?app_assoc; reflexivity.
Qed.

Lemma sup_findings_spec (s : value) :
  sup_findings s =
  {| f_missing := flat_map row_missing (supMap s);
     f_criticalFails := flat_map row_fails (supMap s);
     f_actions := flat_map row_actions (supMap s) |}.
Proof. unfold sup_findings. rewrite supervisor_loop_spec. reflexivity. Qed.

Lemma late_actions_not_critical (a : Answers) (body : value) :
  filter is_critical (det_late_actions a body) = [].
Proof.
  unfold det_late_actions.
  repeat match goal with
         | |- context [if ?c then _ else _] => destruct c
         end; reflexivity.
Qed.

Lemma is_str_refl (lit : string) : is_str (js lit) lit = true.
Proof. apply jstring_eqb_refl. Qed.

Lemma is_str_eq (s : jstring) (lit : string) : is_str s lit = true <-> s = js lit.
Proof. apply jstring_eqb_eq. Qed.

Lemma all_negative_rows (s : value) :
  all_negative s = true ->
  supMap s = map (fun row => match row with
                             | (label, _, text) => (label, js "NO", text)
                             end) supItems.
Proof.
  unfold all_negative, supMap. intro H. rewrite forallb_forall in H.
  apply map_ext_in. intros [[label key] text] Hin.
  specialize (H _ Hin). simpl in H. apply is_str_eq in H. rewrite H. reflexivity.
Qed.

(** What the evaluator returns, when no answer of the checklist makes
    [String] throw. *)
Lemma derive_returned (estrella body : value) (p : ChecklistActionsPayload) :
  deriveChecklistDeterministic estrella body = Returns p ->
  exists a, read_answers (estrella_object estrella) = Returns a
  /\ p = {| decision_hint :=
              decide_hint (f_criticalFails (sup_findings (estrella_object estrella)))
                (det_missing (estrella_object estrella) a)
                (det_actions (estrella_object estrella) a body);
            missing := det_missing (estrella_object estrella) a;
            critical_fails := f_criticalFails (sup_findings (estrella_object estrella));
            cl_derived_controls := det_controls a;
            actions := det_actions (estrella_object estrella) a body;
            snapshot := det_snapshot (estrella_object estrella) a |}.
Proof.
  unfold deriveChecklistDeterministic. cbv zeta. intro H.
  apply bind_inv in H as [a [Ha H]]. exists a. split; [exact Ha|].
  injection H as <-. reflexivity.
Qed.

(** C6: in every payload the evaluator returns, the hint is STOP exactly
    when there is a critical fail, it is CONTINUE only when nothing is
    missing and no action has medium or high priority, and five negative
    supervisor answers give five critical fails, five critical actions and
    the hint STOP. *)
Theorem checklist_hint_rule (estrella body : value) (p : ChecklistActionsPayload) :
  deriveChecklistDeterministic estrella body = Returns p ->
  (decision_hint p = STOP <-> critical_fails p <> [])
  /\ (decision_hint p = CONTINUE ->
      missing p = []
      /\ Forall (fun a => priority a <> medium /\ priority a <> high) (actions p))
  /\ (all_negative (estrella_object estrella) = true ->
      List.length (critical_fails p) = 5%nat
      /\ List.length (filter is_critical (actions p)) = 5%nat
      /\ decision_hint p = STOP).
Proof.
  intro Hp. apply derive_returned in Hp as [a [_ ->]].
  cbn [decision_hint critical_fails missing actions].
  set (s := estrella_object estrella).
  split; [|split].
  - unfold decide_hint. destruct (f_criticalFails (sup_findings s)); simpl.
    + split; [|congruence].
      destruct (has_items (det_missing s a) || existsb high_or_medium (det_actions s a body));
        discriminate.
    + split; [discriminate | reflexivity].
  - unfold decide_hint. destruct (has_items (f_criticalFails (sup_findings s)));
      [discriminate|].
    destruct (has_items (det_missing s a)) eqn:Hm; simpl; [discriminate|].
    destruct (existsb high_or_medium (det_actions s a body)) eqn:Ha; [discriminate|].
    intros _. split; [apply has_items_false, Hm|].
    apply Forall_forall. intros x Hin.
    assert (Hq : high_or_medium x = false).
    { destruct (high_or_medium x) eqn:E; [|reflexivity].
      assert (existsb high_or_medium (det_actions s a body) = true)
        by (apply existsb_exists; exists x; auto).
      congruence. }
    unfold high_or_medium in Hq. destruct (priority x); split; congruence.
  - intro Hall. unfold det_actions, decide_hint.
    rewrite sup_findings_spec. cbn [f_criticalFails f_actions].
    rewrite (@all_negative_rows _ Hall).
    rewrite filter_app, late_actions_not_critical, app_nil_r.
    split; [|split]; reflexivity.
Qed.

Lemma checklist_hint_rule_witness :
  exists p,
    deriveChecklistDeterministic five_negative VNull = Returns p
    /\ all_negative (estrella_object five_negative) = true
    /\ List.length (critical_fails p) = 5%nat
    /\ decision_hint p = STOP.
Proof.
  assert (H : all_negative (estrella_object five_negative) = true) by reflexivity.
  destruct (deriveChecklistDeterministic five_negative VNull) as [p|] eqn:E;
    [|vm_compute in E; discriminate E].
  exists p. split; [reflexivity|]. split; [exact H|].
  destruct (@checklist_hint_rule five_negative VNull p E) as [_ [_ Hfive]].
  destruct (Hfive H) as [Hlen [_ Hstop]].
  split; [exact Hlen | exact Hstop].
Defined.

(** Which row a supervisor message belongs to. *)
Ltac row_cases H :=
  simpl in H;
  repeat (destruct H as [H|H]; [injection H as <- <- <-|]);
  try contradiction.










(** ** Stop-work decision through reconciliation *)

Lemma decision_is_eq (d : value) (lit : string) :
  decision_is d lit = true <-> d = VStr (js lit).
Proof.
  destruct d; simpl; split; intro H; try discriminate.
  - apply is_str_eq in H. congruence.
  - injection H as ->. apply is_str_refl.
Qed.

Lemma final_stop_work_steps (sd : Seeds) (m : ChecklistActionsPayload) (sw : StopWork) :
  final_stop_work sd m sw =
  fold_left (fun acc f => f acc) (decision_steps (s_autoTriggers sd) m) sw.
Proof. reflexivity. Qed.

Lemma trigger_guard_raises (t : list jstring) (sw : StopWork) :
  (severity (decision sw) <= severity (decision (trigger_guard t sw)))%nat.
Proof.
  unfold trigger_guard.
  destruct (has_items t && decision_is (decision sw) "CONTINUE") eqn:E; [|lia].
  apply andb_true_iff in E as [_ E]. apply decision_is_eq in E. rewrite E.
  vm_compute. lia.
Qed.

Lemma default_decision_raises (t : list jstring) (sw : StopWork) :
  (severity (decision sw) <= severity (decision (default_decision t sw)))%nat.
Proof.
  unfold default_decision.
  destruct (negb (has_items t)); [|simpl; lia].
  unfold severity at 1.
  destruct (decision_is (decision sw) "STOP") eqn:ES;
    [rewrite andb_false_r; unfold severity; rewrite ES; lia|].
  destruct (decision_is (decision sw) "REVIEW_REQUIRED") eqn:ER;
    [rewrite orb_true_r, andb_false_r; unfold severity; rewrite ES, ER; lia|].
  lia.
Qed.

Lemma checklist_adjust_raises (h : ChecklistDecisionHint) (sw : StopWork) :
  (severity (decision sw) <= severity (decision (checklist_adjust h sw)))%nat.
Proof.
  unfold checklist_adjust. destruct h; [| |lia].
  - destruct (decision_is (decision sw) "STOP") eqn:E; simpl; [lia|].
    unfold severity at 1. rewrite E.
    destruct (decision_is (decision sw) "REVIEW_REQUIRED"); vm_compute; lia.
  - destruct (decision_is (decision sw) "CONTINUE") eqn:E; [|lia].
    apply decision_is_eq in E. rewrite E. vm_compute. lia.
Qed.

Lemma checklist_triggers_decision (m : ChecklistActionsPayload) (sw : StopWork) :
  decision (checklist_triggers m sw) = decision sw.
Proof.
  unfold checklist_triggers.
  destruct (has_items (trimmed_nonblank (critical_fails m))); reflexivity.
Qed.

Lemma checklist_adjust_STOP (sw : StopWork) :
  decision (checklist_adjust STOP sw) = VStr (js "STOP").
Proof.
  unfold checklist_adjust.
  destruct (decision_is (decision sw) "STOP") eqn:E; simpl; [|reflexivity].
  apply decision_is_eq, E.
Qed.

Lemma checklist_adjust_REVIEW (sw : StopWork) :
  decision (checklist_adjust REVIEW_REQUIRED sw) =
  if decision_is (decision sw) "CONTINUE" then VStr (js "REVIEW_REQUIRED")
  else decision sw.
Proof.
  unfold checklist_adjust.
  destruct (decision_is (decision sw) "CONTINUE"); reflexivity.
Qed.

Lemma STOP_kept_by_guards (t : list jstring) (sw : StopWork) :
  decision sw = VStr (js "STOP") ->
  decision (trigger_guard t sw) = VStr (js "STOP")
  /\ decision (default_decision t sw) = VStr (js "STOP").
Proof.
  intro H. unfold trigger_guard, default_decision. rewrite H.
  replace (decision_is (VStr (js "STOP")) "CONTINUE") with false by reflexivity.
  replace (decision_is (VStr (js "STOP")) "STOP") with true by reflexivity.
  rewrite andb_false_r. simpl. rewrite andb_false_r. auto.
Qed.

Lemma STOP_kept_by_checklist (h : ChecklistDecisionHint) (sw : StopWork) :
  decision sw = VStr (js "STOP") ->
  decision (checklist_adjust h sw) = VStr (js "STOP").
Proof.
  intro H. unfold checklist_adjust. rewrite H.
  replace (decision_is (VStr (js "STOP")) "CONTINUE") with false by reflexivity.
  replace (decision_is (VStr (js "STOP")) "STOP") with true by reflexivity.
  destruct h; simpl; exact H.
Qed.

(** C3: every step of the reconciliation leaves the severity of the decision
    where it is or raises it, so the final decision is at least as severe as
    the draft's; a hint of STOP gives STOP, a hint of REVIEW_REQUIRED only
    turns CONTINUE into REVIEW_REQUIRED, and STOP stays STOP at every step. *)
Theorem decision_monotone (sd : Seeds) (m : ChecklistActionsPayload) (sw : StopWork) :
  Forall (fun f => forall x : StopWork,
            (severity (decision x) <= severity (decision (f x)))%nat
            /\ (decision x = VStr (js "STOP") -> decision (f x) = VStr (js "STOP")))
         (decision_steps (s_autoTriggers sd) m)
  /\ (severity (decision sw) <= severity (decision (final_stop_work sd m sw)))%nat
  /\ decision (checklist_adjust STOP sw) = VStr (js "STOP")
  /\ decision (checklist_adjust REVIEW_REQUIRED sw) =
       (if decision_is (decision sw) "CONTINUE" then VStr (js "REVIEW_REQUIRED")
        else decision sw)
  /\ decision (checklist_adjust CONTINUE sw) = decision sw
  /\ (decision_hint m = STOP -> decision (final_stop_work sd m sw) = VStr (js "STOP")).
Proof.
  split; [|split; [|split; [|split; [|split]]]].
  - unfold decision_steps. repeat constructor.
    + apply trigger_guard_raises.
    + intro H. apply (STOP_kept_by_guards _ _ H).
    + apply default_decision_raises.
    + intro H. apply (STOP_kept_by_guards _ _ H).
    + apply checklist_adjust_raises.
    + apply STOP_kept_by_checklist.
    + rewrite checklist_triggers_decision. lia.
    + rewrite checklist_triggers_decision. auto.
  - unfold final_stop_work. rewrite checklist_triggers_decision.
    eapply Nat.le_trans; [apply trigger_guard_raises|].
    eapply Nat.le_trans; [apply default_decision_raises|].
    apply checklist_adjust_raises.
  - apply checklist_adjust_STOP.
  - apply checklist_adjust_REVIEW.
  - reflexivity.
  - intro H. unfold final_stop_work. rewrite checklist_triggers_decision, H.
    apply checklist_adjust_STOP.
Qed.

(** ** The procedure aggregator *)

Lemma influence_returned (refs : list value) (normalized : list ProcedureRef) :
  mapM normalizeProcedureRef refs = Returns normalized ->
  buildProcedureInfluence refs =
  Returns {| applied := map ref_source (filter parseable normalized);
             not_parseable := map ref_source (filter (fun p => negb (parseable p)) normalized);
             derived_controls := dedup_loop [] (candidates normalized) |}.
Proof. unfold buildProcedureInfluence. intros ->. reflexivity. Qed.

Lemma influence_returned_inv (refs : list value) (pi : ProcedureInfluence) :
  buildProcedureInfluence refs = Returns pi ->
  exists normalized,
    mapM normalizeProcedureRef refs = Returns normalized
    /\ derived_controls pi = dedup_loop [] (candidates normalized)
    /\ applied pi = map ref_source (filter parseable normalized).
Proof.
  unfold buildProcedureInfluence. intro H. apply bind_inv in H as [n [Hn H]].
  exists n. injection H as <-. auto.
Qed.















(** ** Clean lists, by computation *)

Lemma tidy_b_sound (s : jstring) : tidy_b s = true -> tidy s.
Proof.
  unfold tidy_b, nonblank. intro H. apply andb_true_iff in H as [H1 H2].
  split; [apply jstring_eqb_eq, H1|].
  apply is_empty_false. destruct (is_empty s); [discriminate | reflexivity].
Qed.

Lemma nodup_b_sound (l : list jstring) : nodup_b l = true -> NoDup l.
Proof.
  induction l as [|x r IH]; simpl; intro H; [constructor|].
  apply andb_true_iff in H as [H1 H2]. constructor; [|apply IH, H2].
  apply includes_not_In. destruct (includes r x); [discriminate | reflexivity].
Qed.

Lemma clean_b_sound (l : list jstring) : clean_b l = true -> clean l.
Proof.
  unfold clean_b. intro H. apply andb_true_iff in H as [H1 H2]. split.
  - apply Forall_forall. intros x Hx. apply tidy_b_sound.
    rewrite forallb_forall in H1. apply H1, Hx.
  - apply nodup_b_sound, H2.
Qed.

Lemma select_In (l : list (bool * jstring)) (x : jstring) :
  In x (select l) -> In x (map snd l).
Proof.
  unfold select. rewrite in_flat_map. intros [[b y] [Hin Hx]]. simpl in Hx.
  destruct b; [|contradiction]. destruct Hx as [<-|[]].
  apply in_map_iff. exists (true, y). auto.
Qed.

Lemma select_clean (l : list (bool * jstring)) : clean (map snd l) -> clean (select l).
Proof.
  induction l as [|[b x] r IH]; intros [Ht Hn]; [apply clean_nil|].
  simpl in Ht, Hn. inversion Ht; inversion Hn; subst.
  destruct IH as [IHt IHn]; [split; assumption|].
  unfold select in *. simpl. destruct b; simpl; [|split; assumption].
  split; [constructor; assumption|].
  constructor; [|assumption].
  intro Hin. apply select_In in Hin. contradiction.
Qed.

Lemma select_app (a b : list (bool * jstring)) : select (a ++ b) = select a ++ select b.
Proof. apply flat_map_app. Qed.

Lemma select_single (m : jstring) : [m] = select [(true, m)].
Proof. reflexivity. Qed.

Lemma push_if_select (c : bool) (m : jstring) : push_if c m = select [(c, m)].
Proof. destruct c; reflexivity. Qed.

Lemma row_missing_select (s : value) :
  flat_map row_missing (supMap s) =
  select (map (fun row => match row with
                          | (label, key, _) =>
                              (is_empty (supervisor_answer s key), sup_missing_msg label)
                          end) supItems).
Proof.
  unfold supMap, select. generalize supItems as l.
  induction l as [|[[label key] text] r IH]; simpl; [reflexivity|].
  rewrite IH. reflexivity.
Qed.

Lemma det_missing_select (s : value) (a : Answers) :
  det_missing s a = select (missing_flags s a).
Proof.
  unfold det_missing, missing_flags. rewrite sup_findings_spec. cbn [f_missing].
  rewrite select_app, row_missing_select. f_equal.
  rewrite !push_if_select, <- !select_app. reflexivity.
Qed.

Lemma missing_with_lesson_clean (s : value) (a : Answers) :
  clean (det_missing s a ++ [lesson_missing_msg]).
Proof.
  rewrite det_missing_select.
  rewrite (select_single lesson_missing_msg), <- select_app. apply select_clean.
  unfold missing_flags. rewrite !map_app, map_map.
  apply clean_b_sound. vm_compute. reflexivity.
Qed.

Lemma det_missing_clean (s : value) (a : Answers) : clean (det_missing s a).
Proof.
  destruct (missing_with_lesson_clean s a) as [Ht Hn].
  apply Forall_app in Ht as [Ht _]. apply NoDup_app_remove_r in Hn.
  split; assumption.
Qed.

(** ** The lesson-learned precondition *)

Lemma normalizeYesNo_range (v : value) (t : jstring) :
  normalizeYesNo v = Returns t -> t = [] \/ t = Si \/ t = No.
Proof.
  unfold normalizeYesNo. intro H. apply bind_inv in H as [text [_ H]].
  cbv zeta in H. injection H as <-.
  repeat match goal with
         | |- context [if ?c then _ else _] => destruct c
         end; auto.
Qed.

Lemma normalizeYesNo_again (v : value) (t : jstring) :
  normalizeYesNo v = Returns t -> normalizeYesNo (VStr t) = Returns t.
Proof.
  intro H. destruct (normalizeYesNo_range _ H) as [-> | [-> | ->]]; reflexivity.
Qed.

Lemma snapshot_incidents (estrella body : value) (p : ChecklistActionsPayload) :
  deriveChecklistDeterministic estrella body = Returns p ->
  exists t,
    normalizeYesNo (get (estrella_object estrella) "incidentsReference") = Returns t
    /\ get (snapshot p) "incidentsReference" = VStr t.
Proof.
  intro H. apply derive_returned in H as [a [Ha ->]].
  unfold read_answers in Ha.
  apply bind_inv in Ha as [incidents [Hi Ha]]. returned Ha. injection Ha as <-.
  exists incidents. split; [exact Hi | reflexivity].
Qed.

(** The flag the route tests is the normalized answer of the checklist. *)
Lemma incidents_flag (body : value) (base : ChecklistActionsPayload) :
  deriveChecklistDeterministic (coalesce (get body "estrella_format") VNull) body
    = Returns base ->
  normalizeYesNo (get (snapshot base) "incidentsReference") = incidents_answer body.
Proof.
  intro H. apply snapshot_incidents in H as [t [Ht ->]].
  unfold incidents_answer. rewrite Ht. apply (normalizeYesNo_again _ Ht).
Qed.

Lemma incidents_body_object (body : value) :
  incidents_answer body = Returns Si -> nullish body = false.
Proof.
  destruct body; try reflexivity; intro H; vm_compute in H; discriminate H.
Qed.

Lemma reconcile_not_400 (cfg : Config) (sd : Seeds) (ats : value) (e : reply)
    (err det : jstring) :
  reconcile cfg sd ats e <> Json400 err det.
Proof.
  unfold reconcile, server_error.
  destruct (build_document cfg sd ats e); discriminate.
Qed.

Lemma POST_not_400 (cfg : Config) (body : value) (draft e : reply) (p : prepared)
    (err det : jstring) :
  prepare cfg body = p ->
  (forall r, p = Answered r -> r = server_error) ->
  POST cfg body draft e <> Json400 err det.
Proof.
  intros Hp Hr. unfold POST. rewrite Hp. destruct p as [sd|r].
  - destruct draft; [discriminate | apply reconcile_not_400 ..].
  - rewrite (Hr r eq_refl). discriminate.
Qed.

(** *** Procedure references that are normalized already *)

Lemma normalizeProcedureRef_tidy (v : value) (p : ProcedureRef) :
  normalizeProcedureRef v = Returns p -> tidy_brief (brief p).
Proof.
  unfold normalizeProcedureRef. cbv zeta. intro H. returned H. injection H as <-.
  cbn [brief mandatory_permits critical_controls brief_stop_work mandatory_steps
       restrictions].
  unfold tidy_brief, tidy_controls.
  cbn [mandatory_permits critical_controls brief_stop_work mandatory_steps
       restrictions engineering administrative ppe].
  repeat split; eapply safeArrayStrings_tidy; eassumption.
Qed.

Lemma normalizeProcedureRef_value (p : ProcedureRef) :
  tidy_brief (brief p) -> normalizeProcedureRef (ProcedureRef_value p) = Returns p.
Proof.
  intros [Hmp [[Hen [Had Hpp]] [Hsw [Hms Hrs]]]].
  unfold normalizeProcedureRef.
  change (get (ProcedureRef_value p) "brief") with (Brief_value (brief p)).
  change (truthy (Brief_value (brief p)) && typeof_object (Brief_value (brief p)))
    with true.
  cbv iota zeta.
  change (get (Brief_value (brief p)) "critical_controls")
    with (Controls_value (critical_controls (brief p))).
  change (truthy (Controls_value (critical_controls (brief p)))
          && typeof_object (Controls_value (critical_controls (brief p)))) with true.
  cbv iota.
  change (get (ProcedureRef_value p) "title") with (VStr (title (ref_source p))).
  change (get (ProcedureRef_value p) "code") with (VStr (code (ref_source p))).
  change (get (ProcedureRef_value p) "origin") with (VStr (origin (ref_source p))).
  change (get (ProcedureRef_value p) "parseable") with (VBool (parseable p)).
  change (get (Brief_value (brief p)) "scope") with (VStr (scope (brief p))).
  change (get (Brief_value (brief p)) "mandatory_permits")
    with (VStrs (mandatory_permits (brief p))).
  change (get (Brief_value (brief p)) "stop_work")
    with (VStrs (brief_stop_work (brief p))).
  change (get (Brief_value (brief p)) "mandatory_steps")
    with (VStrs (mandatory_steps (brief p))).
  change (get (Brief_value (brief p)) "restrictions")
    with (VStrs (restrictions (brief p))).
  change (get (Controls_value (critical_controls (brief p))) "engineering")
    with (VStrs (engineering (critical_controls (brief p)))).
  change (get (Controls_value (critical_controls (brief p))) "administrative")
    with (VStrs (administrative (critical_controls (brief p)))).
  change (get (Controls_value (critical_controls (brief p))) "ppe")
    with (VStrs (ppe (critical_controls (brief p)))).
  rewrite !safeArrayStrings_id by assumption. cbn [bind].
  destruct p as [[t c o] pa [sc mp [en ad pp] sw ms rs]]. reflexivity.
Qed.

(** References the route has normalized are normalized to themselves when
    the aggregator normalizes them again. *)
Lemma procedure_refs_normalized_once (refs : list value) (normalized : list ProcedureRef) :
  mapM normalizeProcedureRef refs = Returns normalized ->
  mapM normalizeProcedureRef (map ProcedureRef_value normalized) = Returns normalized.
Proof.
  intro H.
  rewrite (mapM_map normalizeProcedureRef ProcedureRef_value (fun p => p));
    [rewrite map_id; reflexivity|].
  intros p Hp. destruct (mapM_In _ _ _ H Hp) as [v [_ Hv]].
  apply normalizeProcedureRef_value, (normalizeProcedureRef_tidy _ Hv).
Qed.

(** *** What the route has computed when it reaches the drafting call *)

Lemma prepare_Ready (cfg : Config) (body : value) (sd : Seeds) :
  prepare cfg body = Ready sd ->
  exists base incidentsFlag lessonLearnedRef autoTriggersEnv,
    normalizeEnvironment (get body "environment") = Returns (s_environment sd)
    /\ normalizeNormRefs (get body "normative_refs") = Returns (s_normativeRefs sd)
    /\ deriveChecklistDeterministic (coalesce (get body "estrella_format") VNull) body
       = Returns base
    /\ normalizeYesNo (get (snapshot base) "incidentsReference") = Returns incidentsFlag
    /\ extractLessonLearnedRef body = Returns lessonLearnedRef
    /\ (jstring_eqb incidentsFlag Si
        && match lessonLearnedRef with Some _ => false | None => true end
        && REQUIRE_LESSON_LEARNED_ON_INCIDENTS cfg = false)
    /\ s_checklistBase sd
       = (if jstring_eqb incidentsFlag Si
             && match lessonLearnedRef with Some _ => false | None => true end
          then flexible_mode base else base)
    /\ mapM normalizeProcedureRef (procedure_refs_combined body lessonLearnedRef)
       = Returns (s_procedure_refs sd)
    /\ buildProcedureInfluence (map ProcedureRef_value (s_procedure_refs sd))
       = Returns (s_procedureInfluence sd)
    /\ computeStopWorkTriggers (with_environment body (s_environment sd))
       = Returns autoTriggersEnv
    /\ s_autoTriggers sd = mergeUnique autoTriggersEnv (lesson_triggers lessonLearnedRef)
    /\ nullish body = false
    /\ s_meta sd = {| meta_title := pickString (get body "jobTitle") (js "ATS");
                      company := pickString (get body "company") [];
                      location := pickString (get body "location") [];
                      date := pickString (get body "date") [];
                      shift := pickString (get body "shift") [] |}
    /\ s_tasks sd = tasks_of body.
Proof.
  unfold prepare. destruct (prepare_steps cfg body) as [p|] eqn:E; [|discriminate].
  intros ->. unfold prepare_steps in E.
  apply bind_inv in E as [environment [Henv E]].
  apply bind_inv in E as [normativeRefs [Hnorm E]].
  cbv zeta in E.
  apply bind_inv in E as [base [Hbase E]].
  apply bind_inv in E as [incidentsFlag [Hflag E]].
  apply bind_inv in E as [lessonLearnedRef [Hll E]].
  cbv zeta in E.
  match type of E with
  | (if ?c then _ else _) = _ => destruct c eqn:Hgate; [discriminate E|]
  end.
  apply bind_inv in E as [procedure_refs [Hrefs E]].
  apply bind_inv in E as [procedureInfluence [Hinf E]].
  apply bind_inv in E as [autoTriggersEnv [Htrig E]].
  cbv zeta in E.
  destruct (nullish body) eqn:Hbody; [discriminate E|].
  injection E as <-. cbn [s_environment s_normativeRefs s_checklistBase s_procedure_refs
                          s_procedureInfluence s_autoTriggers s_meta s_tasks].
  exists base, incidentsFlag, lessonLearnedRef, autoTriggersEnv.
  split; [exact Henv|]. split; [exact Hnorm|]. split; [exact Hbase|].
  split; [exact Hflag|]. split; [exact Hll|]. split; [exact Hgate|].
  split; [reflexivity|].
  split; [destruct lessonLearnedRef; exact Hrefs|].
  split; [exact Hinf|]. split; [exact Htrig|].
  split; [destruct lessonLearnedRef; reflexivity|].
  repeat split.
Qed.

(** On the normalized environment the trigger rules never throw: its texts
    are strings or [null]. *)
Lemma text_of_opt (o : option jstring) :
  text_of (VOptStr o) = Returns (match o with Some s => s | None => [] end).
Proof.
  destruct o as [s|]; [|reflexivity]. unfold text_of, or_else. simpl.
  destruct s; reflexivity.
Qed.

Lemma computeStopWorkTriggers_returns (body : value) (environment : Environment) :
  exists t, computeStopWorkTriggers (with_environment body environment) = Returns t.
Proof.
  unfold computeStopWorkTriggers.
  change (get (with_environment body environment) "environment")
    with (Environment_value environment).
  change (or_else (Environment_value environment) (VObj []))
    with (Environment_value environment).
  cbv zeta.
  change (get (Environment_value environment) "weather")
    with (VOptStr (weather environment)).
  change (get (Environment_value environment) "wind") with (VOptStr (wind environment)).
  change (get (Environment_value environment) "lighting")
    with (VOptStr (lighting environment)).
  change (get (Environment_value environment) "terrain")
    with (VOptStr (terrain environment)).
  change (get (Environment_value environment) "visibility")
    with (VOptStr (visibility environment)).
  change (get (Environment_value environment) "timeOfDay")
    with (VOptStr (timeOfDay environment)).
  rewrite !text_of_opt. cbn [bind]. eexists. reflexivity.
Qed.

(** The other way round: when every normalization returns and the lesson
    gate lets the request through, the route reaches the drafting call. *)
Lemma prepare_reaches (cfg : Config) (body : value) (environment : Environment)
    (normativeRefs : list NormRef) (base : ChecklistActionsPayload)
    (incidentsFlag : jstring) (lessonLearnedRef : option ProcedureRef)
    (procedure_refs : list ProcedureRef) :
  normalizeEnvironment (get body "environment") = Returns environment ->
  normalizeNormRefs (get body "normative_refs") = Returns normativeRefs ->
  deriveChecklistDeterministic (coalesce (get body "estrella_format") VNull) body
    = Returns base ->
  normalizeYesNo (get (snapshot base) "incidentsReference") = Returns incidentsFlag ->
  extractLessonLearnedRef body = Returns lessonLearnedRef ->
  jstring_eqb incidentsFlag Si
  && match lessonLearnedRef with Some _ => false | None => true end
  && REQUIRE_LESSON_LEARNED_ON_INCIDENTS cfg = false ->
  mapM normalizeProcedureRef (procedure_refs_combined body lessonLearnedRef)
    = Returns procedure_refs ->
  nullish body = false ->
  exists sd, prepare cfg body = Ready sd.
Proof.
  intros Henv Hnorm Hbase Hflag Hll Hgate Hrefs Hbody.
  destruct (computeStopWorkTriggers_returns body environment) as [autoTriggersEnv Htrig].
  unfold prepare, prepare_steps.
  rewrite Henv. cbn [bind]. rewrite Hnorm. cbn [bind]. cbv zeta.
  rewrite Hbase. cbn [bind]. rewrite Hflag. cbn [bind]. rewrite Hll. cbn [bind].
  rewrite Hgate.
  assert (Hr : mapM normalizeProcedureRef
                 match lessonLearnedRef with
                 | Some ll => pickArray (get body "procedure_refs") ++ [ProcedureRef_value ll]
                 | None => pickArray (get body "procedure_refs")
                 end = Returns procedure_refs)
    by (destruct lessonLearnedRef; exact Hrefs).
  rewrite Hr. cbn [bind].
  rewrite (influence_returned _ (procedure_refs_normalized_once _ Hr)). cbn [bind].
  unfold with_environment in Htrig. rewrite Htrig. cbn [bind].
  rewrite Hbody. eexists. reflexivity.
Qed.

(** C8 (as amended): for a request whose environment, normative references
    and checklist are read without a [TypeError], an affirmative incidents
    answer without a usable lesson-learned brief is answered with status 400
    and its message in the strict mode (the default); in the flexible mode
    the request is never answered 400, it reaches the drafting call as soon
    as its procedure references are read without a [TypeError], and it does
    so with a checklist seed that has one more
    missing entry, one more high-priority administrative action, and a hint
    that is not CONTINUE. *)
Theorem lesson_gate (cfg : Config) (body : value) (draft enrichment : reply)
    (environment : Environment) (normativeRefs : list NormRef)
    (base : ChecklistActionsPayload) :
  normalizeEnvironment (get body "environment") = Returns environment ->
  normalizeNormRefs (get body "normative_refs") = Returns normativeRefs ->
  deriveChecklistDeterministic (coalesce (get body "estrella_format") VNull) body
    = Returns base ->
  incidents_answer body = Returns Si ->
  extractLessonLearnedRef body = Returns None ->
  (REQUIRE_LESSON_LEARNED_ON_INCIDENTS cfg = true ->
     POST cfg body draft enrichment
     = Json400 (js "Lección aprendida requerida")
         (js "Marcaste 'Si' en incidentes en trabajos similares. Debes cargar una lección aprendida y procesarla con /api/lesson-learned-brief antes de generar el ATS."))
  /\ (REQUIRE_LESSON_LEARNED_ON_INCIDENTS cfg = false ->
      (forall err det, POST cfg body draft enrichment <> Json400 err det)
      /\ (forall procedure_refs,
            mapM normalizeProcedureRef (pickArray (get body "procedure_refs"))
              = Returns procedure_refs ->
            exists sd, prepare cfg body = Ready sd)
      /\ (forall sd,
            prepare cfg body = Ready sd ->
            missing (s_checklistBase sd) = missing base ++ [lesson_missing_msg]
            /\ actions (s_checklistBase sd) = actions base ++ [lesson_action]
            /\ critical_fails (s_checklistBase sd) = critical_fails base
            /\ decision_hint (s_checklistBase sd)
               = match decision_hint base with
                 | CONTINUE => REVIEW_REQUIRED
                 | h => h
                 end
            /\ decision_hint (s_checklistBase sd) <> CONTINUE))
  /\ priority lesson_action = high
  /\ category lesson_action = Administrative
  /\ (require_lesson_env cfg = None -> REQUIRE_LESSON_LEARNED_ON_INCIDENTS cfg = true)
  /\ (require_lesson_env cfg = Some (js "false") ->
      REQUIRE_LESSON_LEARNED_ON_INCIDENTS cfg = false).
Proof.
  intros Henv Hnorm Hbase Hinc Hll.
  assert (Hflag : normalizeYesNo (get (snapshot base) "incidentsReference") = Returns Si)
    by (rewrite (incidents_flag _ Hbase); exact Hinc).
  assert (Hsteps : prepare_steps cfg body
                   = if REQUIRE_LESSON_LEARNED_ON_INCIDENTS cfg
                     then Returns (Answered lesson_required)
                     else prepare_steps cfg body).
  { destruct (REQUIRE_LESSON_LEARNED_ON_INCIDENTS cfg) eqn:Hreq; [|reflexivity].
    unfold prepare_steps.
    rewrite Henv. cbn [bind]. rewrite Hnorm. cbn [bind]. cbv zeta.
    rewrite Hbase. cbn [bind]. rewrite Hflag. cbn [bind]. rewrite Hll. cbn [bind].
    rewrite Hreq. reflexivity. }
  split; [|split; [|split; [|split; [|split]]]].
  - intro Hreq. unfold POST, prepare. rewrite Hsteps, Hreq. reflexivity.
  - intro Hreq. split; [|split].
    + intros err det. eapply POST_not_400; [reflexivity|].
      intros r Hr. unfold prepare in Hr.
      destruct (prepare_steps cfg body) as [p|] eqn:E; [|injection Hr as <-; reflexivity].
      subst p. exfalso. unfold prepare_steps in E.
      rewrite Henv in E. cbn [bind] in E. rewrite Hnorm in E. cbn [bind] in E.
      cbv zeta in E.
      rewrite Hbase in E. cbn [bind] in E. rewrite Hflag in E. cbn [bind] in E.
      rewrite Hll in E. cbn [bind] in E. rewrite Hreq, andb_false_r in E.
      returned E. destruct (nullish body); discriminate E.
    + intros procedure_refs Hrefs.
      apply (@prepare_reaches cfg body environment normativeRefs base Si None
               procedure_refs);
        [exact Henv | exact Hnorm | exact Hbase | exact Hflag | exact Hll
        | rewrite Hreq; apply andb_false_r | exact Hrefs
        | apply incidents_body_object, Hinc].
    + intros sd Hsd. apply prepare_Ready in Hsd
        as [base' [flag' [ll' [t [_ [_ [Hb [Hf [Hl [_ [Hcl _]]]]]]]]]]].
      rewrite Hbase in Hb. injection Hb as <-.
      rewrite Hflag in Hf. injection Hf as <-.
      rewrite Hll in Hl. injection Hl as <-.
      rewrite Hcl. change (jstring_eqb Si Si && true) with true. cbv iota.
      unfold flexible_mode. cbn [missing actions critical_fails decision_hint].
      split; [|split; [|split; [|split]]]; try reflexivity.
      * apply derive_returned in Hbase as [a [_ ->]]. cbn [missing].
        unfold mergeUnique.
        destruct (missing_with_lesson_clean
                    (estrella_object (coalesce (get body "estrella_format") VNull)) a)
          as [Ht Hn].
        exact (mergeUnique_loop_id [] Ht Hn).
      * match goal with
        | |- match ?h with _ => _ end <> _ => destruct h; discriminate
        end.
  - reflexivity.
  - reflexivity.
  - intro H. unfold REQUIRE_LESSON_LEARNED_ON_INCIDENTS. rewrite H. reflexivity.
  - intro H. unfold REQUIRE_LESSON_LEARNED_ON_INCIDENTS. rewrite H. reflexivity.
Qed.

Lemma lesson_gate_witness :
  exists environment normativeRefs base,
    normalizeEnvironment (get incidents_without_lesson "environment") = Returns environment
    /\ normalizeNormRefs (get incidents_without_lesson "normative_refs")
       = Returns normativeRefs
    /\ deriveChecklistDeterministic
         (coalesce (get incidents_without_lesson "estrella_format") VNull)
         incidents_without_lesson = Returns base
    /\ incidents_answer incidents_without_lesson = Returns Si
    /\ extractLessonLearnedRef incidents_without_lesson = Returns None
    /\ POST strict_mode incidents_without_lesson Unparseable Unparseable
       = Json400 (js "Lección aprendida requerida")
           (js "Marcaste 'Si' en incidentes en trabajos similares. Debes cargar una lección aprendida y procesarla con /api/lesson-learned-brief antes de generar el ATS.")
    /\ (forall err det,
          POST flexible incidents_without_lesson Unparseable Unparseable
          <> Json400 err det).
Proof.
  destruct (normalizeEnvironment (get incidents_without_lesson "environment"))
    as [environment|] eqn:H1; [|vm_compute in H1; discriminate H1].
  destruct (normalizeNormRefs (get incidents_without_lesson "normative_refs"))
    as [normativeRefs|] eqn:H2; [|vm_compute in H2; discriminate H2].
  destruct (deriveChecklistDeterministic
              (coalesce (get incidents_without_lesson "estrella_format") VNull)
              incidents_without_lesson)
    as [base|] eqn:H3; [|vm_compute in H3; discriminate H3].
  assert (H4 : incidents_answer incidents_without_lesson = Returns Si) by reflexivity.
  assert (H5 : extractLessonLearnedRef incidents_without_lesson = Returns None)
    by reflexivity.
  exists environment, normativeRefs, base.
  split; [reflexivity|]. split; [reflexivity|]. split; [reflexivity|].
  split; [exact H4|]. split; [exact H5|]. split.
  - destruct (@lesson_gate strict_mode incidents_without_lesson Unparseable Unparseable
                environment normativeRefs base H1 H2 H3 H4 H5) as [Hstrict _].
    apply Hstrict. reflexivity.
  - destruct (@lesson_gate flexible incidents_without_lesson Unparseable Unparseable
                environment normativeRefs base H1 H2 H3 H4 H5) as [_ [Hflex _]].
    apply Hflex. reflexivity.
Defined.

(** The request of C8 with a danger type that [String] cannot convert: the
    incidents answer is affirmative and there is no lesson learned, yet the
    strict mode answers 500, not 400, whatever the drafting service does. *)
Lemma lesson_gate_TypeError :
  incidents_answer incidents_unreadable = Returns Si
  /\ extractLessonLearnedRef incidents_unreadable = Returns None
  /\ REQUIRE_LESSON_LEARNED_ON_INCIDENTS strict_mode = true
  /\ deriveChecklistDeterministic
       (coalesce (get incidents_unreadable "estrella_format") VNull) incidents_unreadable
     = Throws
  /\ (forall draft enrichment,
        POST strict_mode incidents_unreadable draft enrichment
        = Json500 (js "Error generando ATS")).
Proof.
  split; [reflexivity|]. split; [reflexivity|]. split; [reflexivity|].
  split; [vm_compute; reflexivity|].
  intros draft enrichment.
  assert (H : prepare strict_mode incidents_unreadable = Answered server_error)
    by (vm_compute; reflexivity).
  unfold POST. rewrite H. reflexivity.
Qed.

(** ** Answers of the route *)

(** Names the steps of a post-processing that returned. *)
Ltac steps_of H :=
  destruct H as [Hwritable Hmeta Henv Hhz0 Hc0 Hst0 Hsw0 Henriched Hmerged Hcontrols
                 Hstop Hnormative Hrecs Hhz1 Hhz Hsteps Hused Hinfluence].

Lemma build_document_built (cfg : Config) (sd : Seeds) (ats : value) (e : reply)
    (doc : ATS) :
  build_document cfg sd ats e = Returns doc <->
  exists hz0 c0 st0 sw0 enriched hz1, built cfg sd ats e doc hz0 c0 st0 sw0 enriched hz1.
Proof.
  split.
  - unfold build_document. destruct (writable ats) eqn:Hw; [|discriminate].
    cbn [negb]. cbv zeta. intro H.
    apply bind_inv in H as [env [Henv H]].
    apply bind_inv in H as [hz0 [Hhz0 H]].
    apply bind_inv in H as [c0 [Hc0 H]].
    apply bind_inv in H as [st0 [Hst0 H]].
    apply bind_inv in H as [sw0 [Hsw0 H]].
    apply bind_inv in H as [enriched [Hen H]].
    apply bind_inv in H as [merged [Hm H]].
    apply bind_inv in H as [normative [Hn H]].
    apply bind_inv in H as [recs [Hr H]].
    apply bind_inv in H as [hz1 [Hhz1 H]].
    apply bind_inv in H as [hz2 [Hhz2 H]].
    injection H as <-.
    exists hz0, c0, st0, sw0, enriched, hz1.
    constructor; cbn [meta environment hazards controls steps stop_work
                      procedure_refs_used procedure_influence checklist_actions
                      normative_refs recommendations]; auto.
  - intros [hz0 [c0 [st0 [sw0 [enriched [hz1 H]]]]]]. steps_of H.
    unfold build_document. rewrite Hwritable. cbn [negb]. cbv zeta.
    rewrite Henv. cbn [bind].
    rewrite Hhz0. cbn [bind].
    rewrite Hc0. cbn [bind].
    rewrite Hst0. cbn [bind].
    rewrite Hsw0. cbn [bind].
    rewrite Henriched. cbn [bind].
    rewrite Hmerged. cbn [bind].
    rewrite Hnormative. cbn [bind].
    rewrite Hrecs. cbn [bind].
    rewrite <- Hstop, Hhz1. cbn [bind].
    rewrite Hhz. cbn [bind].
    rewrite <- Hmeta, <- Hcontrols, <- Hsteps, <- Hused, <- Hinfluence.
    destruct doc; reflexivity.
Qed.

Lemma reconcile_200 (cfg : Config) (sd : Seeds) (ats : value) (e : reply) (ans : value) :
  reconcile cfg sd ats e = Json200 ans <->
  exists doc, build_document cfg sd ats e = Returns doc /\ ans = answer ats doc.
Proof.
  unfold reconcile, server_error. split.
  - destruct (build_document cfg sd ats e) as [doc|]; [|discriminate].
    intro H. injection H as <-. exists doc. auto.
  - intros [doc [-> ->]]. reflexivity.
Qed.

Lemma POST_200 (cfg : Config) (body : value) (draft e : reply) (sd : Seeds) (ans : value) :
  prepare cfg body = Ready sd ->
  (POST cfg body draft e = Json200 ans <->
   draft <> CallFails
   /\ exists doc,
        build_document cfg sd (draft_value sd draft) e = Returns doc
        /\ ans = answer (draft_value sd draft) doc).
Proof.
  intros Hsd. unfold POST. rewrite Hsd.
  destruct draft as [| |ats]; cbn [draft_value].
  - split; [discriminate | intros [H _]; congruence].
  - rewrite reconcile_200. split; [intro H; split; [discriminate | exact H] | tauto].
  - rewrite reconcile_200. split; [intro H; split; [discriminate | exact H] | tauto].
Qed.

(** The route answers 200 with a document or 500, once it has reached the
    drafting call. *)
Lemma POST_200_or_500 (cfg : Config) (body : value) (draft e : reply) (sd : Seeds) :
  prepare cfg body = Ready sd ->
  (exists ans, POST cfg body draft e = Json200 ans)
  \/ POST cfg body draft e = server_error.
Proof.
  intros Hsd. unfold POST. rewrite Hsd.
  destruct draft as [| |ats]; [right; reflexivity | |]; unfold reconcile;
    destruct (build_document _ _ _ _); eauto.
Qed.

Lemma post_stop_work_triggers (sd : Seeds) (ats : value) (sw0 : StopWork) :
  post_stop_work sd ats = Returns sw0 ->
  auto_triggers sw0 = s_autoTriggers sd /\ criteria sw0 = generalCriteria
  /\ decision sw0 = get (or_else (get ats "stop_work") (VObj [])) "decision".
Proof.
  unfold post_stop_work. cbv zeta. destruct (writable _); [|discriminate].
  intro H. injection H as <-. auto.
Qed.

Lemma trigger_guard_not_CONTINUE (t : list jstring) (sw : StopWork) :
  t <> [] -> decision (trigger_guard t sw) <> VStr (js "CONTINUE").
Proof.
  intro Ht. apply has_items_true in Ht. unfold trigger_guard. rewrite Ht. simpl.
  destruct (decision_is (decision sw) "CONTINUE") eqn:E.
  - simpl. intro H. vm_compute in H. discriminate H.
  - intro H. apply decision_is_eq in H. congruence.
Qed.

Lemma default_decision_triggered (t : list jstring) (sw : StopWork) :
  t <> [] -> default_decision t sw = sw.
Proof.
  intro Ht. apply has_items_true in Ht. unfold default_decision. rewrite Ht. reflexivity.
Qed.

Lemma checklist_adjust_not_CONTINUE (h : ChecklistDecisionHint) (sw : StopWork) :
  decision sw <> VStr (js "CONTINUE") ->
  decision (checklist_adjust h sw) <> VStr (js "CONTINUE").
Proof.
  intro H. unfold checklist_adjust. destruct h; [| |exact H].
  - destruct (negb (decision_is (decision sw) "STOP")); [|exact H].
    simpl. intro E. vm_compute in E. discriminate E.
  - destruct (decision_is (decision sw) "CONTINUE"); [|exact H].
    simpl. intro E. vm_compute in E. discriminate E.
Qed.

Lemma steps_keep_triggers (t : list jstring) (h : ChecklistDecisionHint) (sw : StopWork) :
  auto_triggers (checklist_adjust h (default_decision t (trigger_guard t sw)))
  = auto_triggers sw.
Proof.
  unfold checklist_adjust, default_decision, trigger_guard.
  destruct h;
    repeat match goal with
           | |- context [if ?c then _ else _] => destruct c
           end; reflexivity.
Qed.

Lemma merge_checklist_STOP (sd : Seeds) (ats : value)
    (enriched merged : ChecklistActionsPayload) :
  merge_checklist sd ats enriched = Returns merged ->
  critical_fails (s_checklistBase sd) <> [] ->
  decision_hint merged = STOP.
Proof.
  unfold merge_checklist. cbv zeta. intros Hm H. apply bind_inv in Hm as [m [_ Hm]].
  injection Hm as <-. apply has_items_true in H. cbn [decision_hint].
  rewrite H. reflexivity.
Qed.


(** The two seed guardrails on the final decision. *)
Lemma seed_guardrails (cfg : Config) (sd : Seeds) (ats : value) (e : reply) (doc : ATS) :
  build_document cfg sd ats e = Returns doc ->
  (s_autoTriggers sd <> [] -> decision (stop_work doc) <> VStr (js "CONTINUE"))
  /\ (critical_fails (s_checklistBase sd) <> [] ->
      decision_hint (checklist_actions doc) = STOP
      /\ decision (stop_work doc) = VStr (js "STOP")).
Proof.
  intro H. apply build_document_built in H
    as [hz0 [c0 [st0 [sw0 [enriched [hz1 H]]]]]]. steps_of H.
  rewrite Hstop.
  unfold final_stop_work. rewrite checklist_triggers_decision. split.
  - intro Ht. apply checklist_adjust_not_CONTINUE.
    rewrite (@default_decision_triggered _ (trigger_guard (s_autoTriggers sd) sw0) Ht).
    apply trigger_guard_not_CONTINUE, Ht.
  - intro Hc. rewrite (@merge_checklist_STOP _ _ _ _ Hmerged Hc).
    split; [reflexivity | apply checklist_adjust_STOP].
Qed.

(** ** The answered body *)

Lemma serialize_obj (props : list (jstring * value)) :
  serialize (VObj props) = VObj (flat_map member props).
Proof. reflexivity. Qed.

Lemma serialize_arr (l : list value) : serialize (VArr l) = VArr (map element l).
Proof. reflexivity. Qed.

Lemma plain_defined (v : value) : plain v -> v <> VUndef /\ serialize v = v.
Proof. unfold plain. destruct v; simpl; intro H; split; congruence. Qed.

Lemma member_plain (k : jstring) (v : value) : plain v -> member (k, v) = [(k, v)].
Proof.
  intro H. destruct (plain_defined H) as [Hd Hs].
  destruct v; try congruence; simpl member; simpl in Hs; rewrite ?Hs; reflexivity.
Qed.

Lemma plain_object (props : list (jstring * value)) :
  Forall (fun p => plain (snd p)) props -> plain (VObj props).
Proof.
  intro H. unfold plain, element. rewrite serialize_obj. f_equal.
  induction H as [|[k v] r Hv _ IH]; [reflexivity|].
  change (flat_map member ((k, v) :: r)) with (member (k, v) ++ flat_map member r).
  cbn [snd] in Hv. rewrite (member_plain k Hv), IH. reflexivity.
Qed.

Lemma plain_array {A : Type} (f : A -> value) (l : list A) :
  (forall x, plain (f x)) -> plain (VArr (map f l)).
Proof.
  intro H. unfold plain, element. rewrite serialize_arr, map_map. f_equal.
  apply map_ext. exact H.
Qed.

Lemma plain_str (s : jstring) : plain (VStr s).
Proof. reflexivity. Qed.

Lemma plain_strs (l : list jstring) : plain (VStrs l).
Proof. apply plain_array. exact plain_str. Qed.

Lemma plain_optstr (o : option jstring) : plain (VOptStr o).
Proof. destruct o; reflexivity. Qed.

Create HintDb plain.
#[local] Hint Resolve plain_str plain_strs plain_optstr : plain.

(** A record written property by property is plain when its values are. *)
Ltac plain_record := apply plain_object; repeat constructor; cbn [snd]; auto with plain.

Lemma plain_meta (m : Meta) : plain (Meta_value m).
Proof. unfold Meta_value, prop. plain_record. Qed.

Lemma plain_step (s : Step) : plain (Step_value s).
Proof. unfold Step_value, prop. plain_record. Qed.

Lemma plain_source (s : Source) : plain (Source_value s).
Proof. unfold Source_value, prop. plain_record. Qed.

Lemma plain_controls (c : Controls) : plain (Controls_value c).
Proof. unfold Controls_value, prop. plain_record. Qed.

#[local] Hint Resolve plain_meta plain_step plain_source plain_controls : plain.

Lemma plain_derived_control (d : DerivedControl) : plain (DerivedControl_value d).
Proof. unfold DerivedControl_value, prop. plain_record. Qed.

Lemma plain_procedure_influence (p : ProcedureInfluence) :
  plain (ProcedureInfluence_value p).
Proof.
  unfold ProcedureInfluence_value, prop. apply plain_object.
  repeat constructor; cbn [snd]; apply plain_array;
    first [exact plain_source | exact plain_derived_control].
Qed.

Lemma plain_norm_ref (n : NormRef) : plain (NormRef_value n).
Proof. unfold NormRef_value, prop. plain_record. Qed.

Lemma plain_based_on (b : jstring * option jstring) : plain (based_on_value b).
Proof. unfold based_on_value, prop. plain_record. Qed.

Lemma plain_recommendation (r : Recommendation) : plain (Recommendation_value r).
Proof.
  unfold Recommendation_value, prop. apply plain_object.
  repeat constructor; cbn [snd]; auto with plain.
  apply plain_array. exact plain_based_on.
Qed.

Lemma plain_action (a : ChecklistAction) : plain (ChecklistAction_value a).
Proof. unfold ChecklistAction_value, prop. plain_record. Qed.

Lemma plain_payload (p : ChecklistActionsPayload) :
  plain (snapshot p) -> plain (Payload_value p).
Proof.
  intro Hs. unfold Payload_value, prop. apply plain_object.
  repeat constructor; cbn [snd]; auto with plain.
  apply plain_array. exact plain_action.
Qed.

Lemma plain_det_snapshot (s : value) (a : Answers) : plain (det_snapshot s a).
Proof.
  unfold det_snapshot, prop. apply plain_object.
  repeat constructor; cbn [snd]; auto with plain.
Qed.

Lemma serialize_plain (v : value) : plain v -> serialize v = v.
Proof. intro H. apply (plain_defined H). Qed.

(** What is written over an object or an array is never [undefined]. *)
Lemma member_overwrite (k : jstring) (o : value) (written : list (jstring * value)) :
  member (k, overwrite o written) = [(k, serialize (overwrite o written))].
Proof. destruct o; reflexivity. Qed.

(** The body answered for a draft that is a JSON object: the eleven
    properties the route wrote, then the other properties of the draft. *)
Lemma answer_object (props : list (jstring * value)) (doc : ATS) :
  exists rest,
    answer (VObj props) doc = VObj (answered_members (VObj props) doc ++ rest).
Proof.
  unfold answer, ATS_value.
  cbv beta iota delta [overwrite].
  rewrite serialize_obj, flat_map_app. eexists. f_equal. f_equal.
  unfold answered_members, prop.
  cbn [flat_map app].
  fold (overwrite (or_else (get (VObj props) "controls") (VObj []))
          (Controls_written (controls doc))).
  fold (overwrite (or_else (get (VObj props) "stop_work") (VObj []))
          (StopWork_value (stop_work doc))).
  rewrite !member_overwrite.
  rewrite (member_plain _ (plain_meta _)).
  rewrite (member_plain _ (plain_strs _)).
  rewrite !(member_plain _ (plain_array _ _ plain_step)).
  rewrite !(member_plain _ (plain_array _ _ plain_source)).
  rewrite !(member_plain _ (plain_array _ _ plain_norm_ref)).
  rewrite !(member_plain _ (plain_array _ _ plain_recommendation)).
  rewrite (member_plain _ (plain_procedure_influence _)).
  reflexivity.
Qed.

Lemma answer_array (l : list value) (doc : ATS) :
  answer (VArr l) doc = VArr (map element l).
Proof. reflexivity. Qed.

Lemma answered_hazards (props : list (jstring * value)) (doc : ATS) :
  get (answer (VObj props) doc) "hazards" = VStrs (hazards doc)
  /\ get (answer (VObj props) doc) "steps" = VArr (map Step_value (steps doc)).
Proof.
  destruct (answer_object props doc) as [rest ->]. split; reflexivity.
Qed.

(** ** Completeness of hazards and steps *)

Lemma merge_if_clean (c : bool) (h : string) (hz : list jstring) :
  clean hz -> clean (merge_if c h hz).
Proof. intro H. unfold merge_if. destruct c; [apply mergeUnique_clean | exact H]. Qed.

Lemma buildFallbackHazards_clean (checklist : ChecklistActionsPayload) (tasks : Tasks)
    (environment : Environment) (autoTriggers fallback : list jstring) :
  buildFallbackHazards checklist tasks environment autoTriggers = Returns fallback ->
  clean fallback /\ fallback <> [].
Proof.
  unfold buildFallbackHazards. intro H.
  apply bind_inv in H as [dangers [_ H]]. apply bind_inv in H as [envDangers [_ H]].
  cbv zeta in H. injection H as <-.
  match goal with
  | |- context [if has_items ?h then _ else _] =>
      assert (Hc : clean h) by (repeat apply merge_if_clean; apply mergeUnique_clean);
      destruct (has_items h) eqn:E
  end.
  - split; [exact Hc | apply has_items_true, E].
  - split; [apply clean_b_sound; vm_compute; reflexivity | discriminate].
Qed.

Lemma mergeUnique_loop_length (out l : list jstring) :
  (List.length (mergeUnique_loop out l) <= List.length out + List.length l)%nat.
Proof.
  revert out; induction l as [|s r IH]; intro out; simpl; [lia|].
  destruct (is_empty (trim s)); [specialize (IH out); lia|].
  destruct (includes out (trim s)); [specialize (IH out); lia|].
  specialize (IH (out ++ [trim s])). rewrite length_app in IH. simpl in IH. lia.
Qed.

Lemma mergeUnique_loop_absorb (out c : list jstring) :
  (forall s, In s c -> trim s = [] \/ In (trim s) out) ->
  mergeUnique_loop out c = out.
Proof.
  induction c as [|s r IH]; intro H; simpl; [reflexivity|].
  destruct (H s (or_introl eq_refl)) as [E|E].
  - rewrite E. simpl. apply IH. intros s' Hs'. apply H. right. exact Hs'.
  - destruct (is_empty (trim s)); [apply IH; intros s' Hs'; apply H; right; exact Hs'|].
    apply includes_In in E. rewrite E.
    apply IH. intros s' Hs'. apply H. right. exact Hs'.
Qed.

Lemma mergeUnique_onto_clean (m c : list jstring) :
  clean m -> mergeUnique m c = mergeUnique_loop m c.
Proof.
  intros [Ht Hn]. unfold mergeUnique. rewrite mergeUnique_loop_app.
  rewrite (mergeUnique_loop_id [] Ht Hn). reflexivity.
Qed.

Lemma mergeUnique_self (a : list jstring) : clean a -> mergeUnique a a = a.
Proof.
  intro Hc. rewrite (mergeUnique_onto_clean _ Hc). apply mergeUnique_loop_absorb.
  intros s Hs. right. destruct Hc as [Ht _]. rewrite Forall_forall in Ht.
  destruct (Ht s Hs) as [-> _]. exact Hs.
Qed.

(** The hazards the draft has are among the first entries of the merge. *)
Lemma firstn_mergeUnique_keeps (n : nat) (a b : list jstring) (h : jstring) :
  (List.length a <= n)%nat -> Forall tidy a -> In h a -> In h (firstn n (mergeUnique a b)).
Proof.
  intros Hlen Ht Hin. unfold mergeUnique. rewrite mergeUnique_loop_app.
  destruct (mergeUnique_loop_prefix (mergeUnique_loop [] a) b) as [t ->].
  pose proof (mergeUnique_loop_length [] a) as Hl. simpl in Hl.
  rewrite firstn_app, firstn_all2 by lia.
  apply in_or_app. left. apply mergeUnique_loop_In. right.
  rewrite Forall_forall in Ht. destruct (Ht h Hin) as [Htr Hne].
  exists h. auto.
Qed.

Lemma harden_hazards_keeps (fallback : outcome (list jstring)) (hz hz2 : list jstring)
    (h : jstring) :
  harden_hazards fallback hz = Returns hz2 -> Forall tidy hz -> In h hz -> In h hz2.
Proof.
  unfold harden_hazards. intros H Ht Hin.
  destruct (List.length hz <? 3)%nat eqn:E; [|injection H as <-; exact Hin].
  apply bind_inv in H as [fb [_ H]]. apply Returns_inj in H. rewrite <- H.
  apply Nat.ltb_lt in E. apply firstn_mergeUnique_keeps; [lia | exact Ht | exact Hin].
Qed.

Lemma buildFallbackSteps_length (meta : Meta) (hz : list jstring) (controls : Controls)
    (tasks : Tasks) (checklist : ChecklistActionsPayload) :
  (5 <= List.length (buildFallbackSteps meta hz controls tasks checklist))%nat.
Proof.
  unfold buildFallbackSteps. rewrite !length_app.
  destruct (lifting tasks), (hotWork tasks), (workAtHeight tasks); simpl; lia.
Qed.

(** Sanitizing a sanitized step again changes nothing. *)
Lemma sanitize_step_again (v : value) (s : Step) :
  sanitize_step v = Returns s -> resanitize_step s = s.
Proof.
  unfold sanitize_step. intro H. returned H. injection H as <-.
  unfold resanitize_step. cbn [step step_hazards step_controls].
  rewrite !trimmed_nonblank_id by (eapply safeArrayStrings_tidy; eassumption).
  reflexivity.
Qed.

Lemma post_steps_again (ats : value) (st : list Step) :
  post_steps ats = Returns st -> map resanitize_step st = st.
Proof.
  unfold post_steps. intro H. rewrite <- (map_id st) at 2. apply map_ext_in.
  intros s Hs. destruct (mapM_In _ _ _ H Hs) as [v [_ Hv]].
  apply (sanitize_step_again _ Hv).
Qed.

(** A draft the route post-processes into a document is an object or an
    array. *)
Lemma built_object (cfg : Config) (sd : Seeds) (ats : value) (e : reply) (doc : ATS) :
  build_document cfg sd ats e = Returns doc -> isArray ats = false ->
  exists props, ats = VObj props.
Proof.
  unfold build_document. destruct ats; try discriminate.
  intros _ _. eexists. reflexivity.
Qed.

(** C5 (as amended): for a draft that is a JSON object, the answered
    document has at least one hazard and at least four steps; every hazard
    of the draft is kept; with three or more hazards the draft's hazards are
    the document's, with fewer the synthesized hazards are merged after them
    (cut at twelve), with none the synthesized hazards are the document's;
    four or more steps of the draft are kept, fewer are replaced by the
    synthesized steps, which are at least five. *)
Theorem completeness_floor (cfg : Config) (body : value) (draft enrichment : reply)
    (sd : Seeds) (ans : value) :
  prepare cfg body = Ready sd ->
  POST cfg body draft enrichment = Json200 ans ->
  isArray (draft_value sd draft) = false ->
  exists doc draft_hazards draft_steps,
    build_document cfg sd (draft_value sd draft) enrichment = Returns doc
    /\ get ans "hazards" = VStrs (hazards doc)
    /\ get ans "steps" = VArr (map Step_value (steps doc))
    /\ safeArrayStrings (get (draft_value sd draft) "hazards") = Returns draft_hazards
    /\ post_steps (draft_value sd draft) = Returns draft_steps
    /\ hazards doc <> []
    /\ (4 <= List.length (steps doc))%nat
    /\ (forall h, In h draft_hazards -> In h (hazards doc))
    /\ ((3 <= List.length draft_hazards)%nat -> hazards doc = draft_hazards)
    /\ ((List.length draft_hazards < 3)%nat ->
        exists fallback,
          buildFallbackHazards (checklist_actions doc) (s_tasks sd) (environment doc)
            (auto_triggers (stop_work doc)) = Returns fallback
          /\ (draft_hazards = [] -> hazards doc = fallback)
          /\ (draft_hazards <> [] ->
              hazards doc = firstn 12 (mergeUnique draft_hazards fallback)))
    /\ ((4 <= List.length draft_steps)%nat -> steps doc = draft_steps)
    /\ ((List.length draft_steps < 4)%nat ->
        (5 <= List.length (steps doc))%nat
        /\ exists hz,
             steps doc = map resanitize_step
                           (buildFallbackSteps (meta doc) hz (controls doc)
                              (s_tasks sd) (checklist_actions doc))).
Proof.
  intros Hsd Hpost Hobj.
  apply (@POST_200 cfg body draft enrichment sd ans Hsd) in Hpost
    as [_ [doc [Hdoc ->]]].
  destruct (@built_object _ _ _ _ _ Hdoc Hobj) as [props Hprops].
  pose proof Hdoc as Hb.
  apply build_document_built in Hb as [hz0 [c0 [st0 [sw0 [enriched [hz1 Hb]]]]]].
  steps_of Hb.
  exists doc, hz0, st0.
  split; [exact Hdoc|].
  split; [rewrite Hprops; apply answered_hazards|].
  split; [rewrite Hprops; apply answered_hazards|].
  split; [exact Hhz0|]. split; [exact Hst0|].
  set (fbo := buildFallbackHazards (checklist_actions doc) (s_tasks sd) (environment doc)
                (auto_triggers (stop_work doc))) in *.
  set (fs := fun hz => buildFallbackSteps (meta doc) hz (controls doc) (s_tasks sd)
                         (checklist_actions doc)) in *.
  assert (Hdt : Forall tidy hz0) by (apply (safeArrayStrings_tidy _ Hhz0)).
  assert (H1 : (hz0 <> [] /\ hz1 = hz0)
               \/ (hz0 = [] /\ fbo = Returns hz1 /\ clean hz1 /\ hz1 <> [])).
  { unfold hazards_or_fallback in Hhz1. destruct hz0 as [|h0 r].
    - right. simpl in Hhz1. split; [reflexivity|]. split; [exact Hhz1|].
      apply (buildFallbackHazards_clean _ _ _ _ Hhz1).
    - left. simpl in Hhz1. injection Hhz1 as <-. split; [discriminate | reflexivity]. }
  assert (H1t : Forall tidy hz1).
  { destruct H1 as [[_ ->]|[_ [_ [[Ht _] _]]]]; assumption. }
  assert (H1n : hz1 <> []).
  { destruct H1 as [[Hn ->]|[_ [_ [_ Hn]]]]; assumption. }
  assert (Hfs : forall hz, (5 <= List.length (fs hz))%nat)
    by (intro hz; apply buildFallbackSteps_length).
  split; [|split; [|split; [|split; [|split; [|split]]]]].
  - destruct hz1 as [|h0 r] eqn:E; [congruence|].
    intro Hnil. assert (Hin : In h0 (hazards doc))
      by (apply (harden_hazards_keeps _ _ Hhz); [exact H1t | left; reflexivity]).
    rewrite Hnil in Hin. contradiction.
  - rewrite Hsteps. unfold complete_steps. rewrite !length_map.
    destruct (has_items st0).
    + destruct (List.length st0 <? 4)%nat eqn:E.
      * specialize (Hfs (hazards doc)). lia.
      * apply Nat.ltb_ge in E. lia.
    + destruct (List.length (fs hz1) <? 4)%nat eqn:E.
      * specialize (Hfs (hazards doc)). lia.
      * specialize (Hfs hz1). lia.
  - intros h Hin. apply (harden_hazards_keeps _ _ Hhz); [exact H1t|].
    destruct H1 as [[_ ->]|[-> _]]; [exact Hin | contradiction].
  - intro Hlen. destruct H1 as [[_ ->]|[-> _]]; [|simpl in Hlen; lia].
    unfold harden_hazards in Hhz.
    destruct (List.length hz0 <? 3)%nat eqn:El; [apply Nat.ltb_lt in El; lia|].
    injection Hhz as ->. reflexivity.
  - intro Hlen. destruct H1 as [[Hne ->]|[-> [Hfb [Hclean _]]]].
    + unfold harden_hazards in Hhz. apply Nat.ltb_lt in Hlen. rewrite Hlen in Hhz.
      apply bind_inv in Hhz as [fb [Hfb Hhz]]. apply Returns_inj in Hhz.
      exists fb. split; [exact Hfb|]. split; [intro; contradiction|].
      intros _. symmetry. exact Hhz.
    + exists hz1. split; [exact Hfb|]. split; [|intro H; contradiction H; reflexivity].
      intros _. unfold harden_hazards in Hhz.
      destruct (List.length hz1 <? 3)%nat eqn:El.
      * rewrite Hfb in Hhz. cbn [bind] in Hhz. apply Returns_inj in Hhz.
        rewrite (mergeUnique_self Hclean) in Hhz. apply Nat.ltb_lt in El.
        rewrite firstn_all2 in Hhz by lia. symmetry. exact Hhz.
      * injection Hhz as Hhz. symmetry. exact Hhz.
  - intro Hlen. rewrite Hsteps. unfold complete_steps. cbv zeta.
    assert (Hi : has_items st0 = true)
      by (destruct st0; [simpl in Hlen; lia | reflexivity]).
    assert (El : (List.length st0 <? 4)%nat = false) by (apply Nat.ltb_ge; lia).
    rewrite Hi, El. apply (post_steps_again _ Hst0).
  - intro Hlen. rewrite Hsteps. unfold complete_steps. cbv zeta.
    destruct (has_items st0).
    + apply Nat.ltb_lt in Hlen. rewrite Hlen. rewrite !length_map.
      split; [apply Hfs|]. exists (hazards doc). reflexivity.
    + destruct (List.length (fs hz1) <? 4)%nat eqn:El.
      * rewrite !length_map. split; [apply Hfs|].
        exists (hazards doc). reflexivity.
      * rewrite !length_map. split; [apply Hfs|]. exists hz1. reflexivity.
Qed.

(** With [quiet_request] and a draft of one step and no hazard, the answered
    document has one hazard and five steps, none of them the draft's step;
    and a draft that is a JSON array is answered as the array it is, with no
    hazard and no step. *)
Lemma one_hazard_steps_replaced :
  option_map (fun ans => (List.length (pickArray (get ans "hazards")),
                          existsb (fun s => match get s "step" with
                                            | VStr t => is_str t "Cerrar la línea y drenar."
                                            | _ => false
                                            end)
                                  (pickArray (get ans "steps")),
                          List.length (pickArray (get ans "steps"))))
    (document (POST strict_mode quiet_request (Parsed draft_continue) Unparseable))
  = Some (1%nat, false, 5%nat)
  /\ POST strict_mode quiet_request (Parsed (VArr [])) Unparseable = Json200 (VArr []).
Proof. split; vm_compute; reflexivity. Qed.

Lemma completeness_floor_witness :
  exists sd ans doc,
    prepare strict_mode quiet_request = Ready sd
    /\ POST strict_mode quiet_request (Parsed draft_continue) Unparseable = Json200 ans
    /\ isArray (draft_value sd (Parsed draft_continue)) = false
    /\ get ans "hazards" = VStrs (hazards doc)
    /\ get ans "steps" = VArr (map Step_value (steps doc))
    /\ hazards doc <> []
    /\ (4 <= List.length (steps doc))%nat.
Proof.
  assert (Hp : exists sd, prepare strict_mode quiet_request = Ready sd)
    by (vm_compute; eexists; reflexivity).
  assert (Hd : exists ans, POST strict_mode quiet_request (Parsed draft_continue)
                             Unparseable = Json200 ans)
    by (vm_compute; eexists; reflexivity).
  destruct Hp as [sd Hsd]. destruct Hd as [ans Hans].
  destruct (@completeness_floor strict_mode quiet_request (Parsed draft_continue)
              Unparseable sd ans Hsd Hans eq_refl)
    as [doc [hz0 [st0 [_ [H1 [H2 [_ [_ [H3 [H4 _]]]]]]]]]].
  exists sd, ans, doc. repeat split; assumption.
Defined.

(** ** The checklist seed through the sanitizer *)

Lemma tidy_action_b_sound (a : ChecklistAction) : tidy_action_b a = true -> tidy_action a.
Proof.
  unfold tidy_action_b. intro H. apply andb_true_iff in H as [H1 H2].
  split; [exact H1|]. apply Forall_forall. intros x Hx. apply tidy_b_sound.
  rewrite forallb_forall in H2. apply H2, Hx.
Qed.

Lemma parse_hint_text (h : ChecklistDecisionHint) : parse_hint (VStr (hint_text h)) = Some h.
Proof. destruct h; reflexivity. Qed.

Lemma parse_priority_text (p : Priority) :
  parse_priority (VStr (Priority_text p)) = Some p.
Proof. destruct p; reflexivity. Qed.

Lemma parse_level_text (l : Level) : parse_level (VStr (Level_text l)) = Some l.
Proof. destruct l; reflexivity. Qed.

Lemma get_action (a : ChecklistAction) :
  get (ChecklistAction_value a) "priority" = VStr (Priority_text (priority a))
  /\ get (ChecklistAction_value a) "category" = VStr (Level_text (category a))
  /\ get (ChecklistAction_value a) "action" = VStr (action a)
  /\ get (ChecklistAction_value a) "evidence" = VStrs (evidence a).
Proof. repeat split. Qed.

Lemma sanitize_action_value (a : ChecklistAction) :
  Forall tidy (evidence a) -> sanitize_action (ChecklistAction_value a) = Returns a.
Proof.
  intro H. destruct (get_action a) as [E1 [E2 [E3 E4]]].
  unfold sanitize_action. rewrite E1, E2, E3, E4.
  rewrite parse_priority_text, parse_level_text, (safeArrayStrings_id H).
  destruct a; reflexivity.
Qed.

Lemma sanitize_actions_value (l : list ChecklistAction) :
  Forall tidy_action l ->
  mapM sanitize_action (map ChecklistAction_value l) = Returns l
  /\ filter (fun a => nonblank (trim (action a))) l = l.
Proof.
  intro H. split.
  - rewrite (mapM_map sanitize_action ChecklistAction_value (fun a => a));
      [rewrite map_id; reflexivity|].
    intros a Ha. rewrite Forall_forall in H. apply sanitize_action_value, (H a Ha).
  - induction H as [|a r [Hn He] _ IH]; simpl; [reflexivity|].
    rewrite Hn, IH. reflexivity.
Qed.

(** The six properties of a payload spread before other properties. *)
Lemma get_payload (p : ChecklistActionsPayload) (rest : list (jstring * value)) :
  let o := VObj (spread (Payload_value p) ++ rest) in
  get o "decision_hint" = VStr (hint_text (decision_hint p))
  /\ get o "missing" = VStrs (missing p)
  /\ get o "critical_fails" = VStrs (critical_fails p)
  /\ get o "derived_controls" = Controls_value (cl_derived_controls p)
  /\ get o "actions" = VArr (map ChecklistAction_value (actions p))
  /\ get o "snapshot" = snapshot p.
Proof. repeat split. Qed.

Lemma get_controls (c : Controls) :
  get (Controls_value c) "engineering" = VStrs (engineering c)
  /\ get (Controls_value c) "administrative" = VStrs (administrative c)
  /\ get (Controls_value c) "ppe" = VStrs (ppe c).
Proof. repeat split. Qed.

Lemma sanitize_settled (p fallback : ChecklistActionsPayload)
    (rest : list (jstring * value)) :
  settled p ->
  sanitizeChecklistActions (VObj (spread (Payload_value p) ++ rest)) fallback
  = Returns p.
Proof.
  intros [Hm Hf [Hce [Hca Hcp]] Ha Hs _ _].
  destruct (get_payload p rest) as [E1 [E2 [E3 [E4 [E5 E6]]]]].
  destruct (get_controls (cl_derived_controls p)) as [C1 [C2 C3]].
  destruct (sanitize_actions_value Ha) as [A1 A2].
  unfold sanitizeChecklistActions.
  replace (truthy (VObj (spread (Payload_value p) ++ rest))
           && typeof_object (VObj (spread (Payload_value p) ++ rest)))
    with true by reflexivity.
  cbv zeta. cbv iota.
  rewrite E1, E2, E3, E4, E5, E6, C1, C2, C3, Hs, parse_hint_text, A1.
  cbn [bind]. rewrite A2.
  rewrite !safeArrayStrings_id by assumption. cbn [bind].
  destruct p as [h m f [ce ca cp] a s]; reflexivity.
Qed.

(** A payload spread first never makes the sanitizer throw: its lists hold
    strings. *)
Lemma sanitize_payload_returns (p fallback : ChecklistActionsPayload)
    (rest : list (jstring * value)) :
  exists m,
    sanitizeChecklistActions (VObj (spread (Payload_value p) ++ rest)) fallback
    = Returns m
    /\ critical_fails m = trimmed_nonblank (critical_fails p)
    /\ missing m = trimmed_nonblank (missing p).
Proof.
  destruct (get_payload p rest) as [E1 [E2 [E3 [E4 [E5 E6]]]]].
  destruct (get_controls (cl_derived_controls p)) as [C1 [C2 C3]].
  unfold sanitizeChecklistActions.
  replace (truthy (VObj (spread (Payload_value p) ++ rest))
           && typeof_object (VObj (spread (Payload_value p) ++ rest)))
    with true by reflexivity.
  cbv zeta. cbv iota.
  rewrite E1, E2, E3, E4, E5, C1, C2, C3.
  assert (A : exists l, mapM sanitize_action (map ChecklistAction_value (actions p))
                        = Returns l).
  { generalize (actions p) as acts. induction acts as [|a r IH]; [eexists; reflexivity|].
    destruct IH as [l IH].
    simpl. destruct (get_action a) as [_ [_ [_ G]]].
    unfold sanitize_action at 1. rewrite G, safeArrayStrings_VStrs. cbn [bind].
    rewrite IH. cbn [bind]. eexists. reflexivity. }
  destruct A as [l ->]. cbn [bind].
  rewrite !safeArrayStrings_VStrs. cbn [bind].
  eexists. split; [reflexivity|]. split; reflexivity.
Qed.

Lemma sup_fail_msg_tidy (l k t : string) :
  In (l, k, t) supItems ->
  tidy (sup_fail_msg l) /\ tidy_action (sup_action t).
Proof.
  intro H. row_cases H;
    (split; [apply tidy_b_sound | apply tidy_action_b_sound]); vm_compute; reflexivity.
Qed.

Lemma sup_findings_tidy (s : value) :
  Forall tidy (f_criticalFails (sup_findings s))
  /\ Forall tidy_action (f_actions (sup_findings s)).
Proof.
  rewrite sup_findings_spec. cbn [f_criticalFails f_actions]. unfold supMap.
  split; apply Forall_forall; intros x Hx; apply in_flat_map in Hx as [[[l v] t] [Hin Hx]];
    apply in_map_iff in Hin as [[[l' k] t'] [E Hin]]; injection E as -> <- ->;
    simpl in Hx;
    destruct (negb (is_empty (supervisor_answer s k))
              && is_str (supervisor_answer s k) "NO"); try contradiction;
    destruct Hx as [<-|[]].
  - apply (proj1 (@sup_fail_msg_tidy _ _ _ Hin)).
  - apply (proj2 (@sup_fail_msg_tidy _ _ _ Hin)).
Qed.

Lemma late_actions_tidy (a : Answers) (body : value) :
  Forall tidy_action (det_late_actions a body).
Proof.
  unfold det_late_actions.
  repeat (apply Forall_app; split);
    match goal with
    | |- Forall _ (if ?c then _ else _) => destruct c
    end;
    try apply Forall_nil;
    (apply Forall_cons; [apply tidy_action_b_sound; vm_compute; reflexivity
                        | apply Forall_nil]).
Qed.

Lemma PPE_MAP_tidy (k c : jstring) : PPE_MAP k = Some c -> tidy c.
Proof.
  unfold PPE_MAP.
  repeat match goal with
         | |- (if is_str ?x ?lit then _ else _) = _ -> _ =>
             destruct (is_str x lit);
             [intro H; injection H as <-; apply tidy_b_sound; vm_compute; reflexivity|]
         end.
  match goal with
  | |- (if ?c then _ else _) = _ -> _ => destruct c eqn:E; [|discriminate]
  end.
  intro H. injection H as <-. apply includes_In in E. simpl in E.
  destruct (is_str k "constructor");
    [apply tidy_b_sound; vm_compute; reflexivity|].
  repeat (destruct E as [E|E];
          [rewrite <- E; apply tidy_b_sound; vm_compute; reflexivity|]).
  contradiction.
Qed.

Lemma det_controls_tidy (a : Answers) : tidy_controls (det_controls a).
Proof.
  unfold det_controls, tidy_controls. cbn [engineering administrative ppe].
  split; [constructor|]. split.
  - rewrite !push_if_select, <- !select_app. apply select_clean.
    apply clean_b_sound. vm_compute. reflexivity.
  - apply Forall_forall. intros x Hx. apply in_flat_map in Hx as [k [_ Hx]].
    unfold ppe_of in Hx. destruct (PPE_MAP k) as [c|] eqn:E; [|contradiction].
    destruct Hx as [<-|[]]. apply (@PPE_MAP_tidy _ _ E).
Qed.

Lemma derive_settled (estrella body : value) (p : ChecklistActionsPayload) :
  deriveChecklistDeterministic estrella body = Returns p -> settled p.
Proof.
  intro H. apply derive_returned in H as [a [_ ->]].
  set (s := estrella_object estrella).
  destruct (sup_findings_tidy s) as [Hf Ha].
  constructor; cbn [missing critical_fails cl_derived_controls actions snapshot
                    decision_hint].
  - apply det_missing_clean.
  - exact Hf.
  - apply det_controls_tidy.
  - unfold det_actions. apply Forall_app. split; [exact Ha | apply late_actions_tidy].
  - reflexivity.
  - intro H. apply has_items_true in H. unfold decide_hint. rewrite H. reflexivity.
  - intro H. apply has_items_true in H. unfold decide_hint. rewrite H.
    destruct (has_items (f_criticalFails (sup_findings s))); discriminate.
Qed.

Lemma flexible_settled (p : ChecklistActionsPayload) :
  settled p -> settled (flexible_mode p).
Proof.
  intros [Hm Hf Hc Ha Hs Hstop Hrev].
  constructor; unfold flexible_mode;
    cbn [missing critical_fails cl_derived_controls actions snapshot decision_hint];
    try assumption.
  - apply (proj1 (mergeUnique_clean (missing p) [lesson_missing_msg])).
  - apply Forall_app. split; [exact Ha|].
    apply Forall_cons; [|apply Forall_nil].
    apply tidy_action_b_sound. vm_compute. reflexivity.
  - intro H. rewrite (Hstop H). reflexivity.
  - intros _. destruct (decision_hint p); discriminate.
Qed.

(** The snapshot of the checklist seed is the evaluator's. *)
Lemma prepare_snapshot (cfg : Config) (body : value) (sd : Seeds) :
  prepare cfg body = Ready sd ->
  exists s a, snapshot (s_checklistBase sd) = det_snapshot s a.
Proof.
  intro H. apply prepare_Ready in H
    as [base [flag [ll [t [_ [_ [Hb [_ [_ [_ [Hcl _]]]]]]]]]]].
  apply derive_returned in Hb as [a [_ Hb]]. rewrite Hcl.
  eexists _, a. destruct (_ && _); rewrite Hb; reflexivity.
Qed.

Lemma prepare_seeds (cfg : Config) (body : value) (sd : Seeds) :
  prepare cfg body = Ready sd ->
  settled (s_checklistBase sd) /\ clean (s_autoTriggers sd).
Proof.
  intro H. apply prepare_Ready in H
    as [base [flag [ll [t [_ [_ [Hb [_ [_ [_ [Hcl [_ [_ [_ [Ht _]]]]]]]]]]]]]]].
  rewrite Hcl, Ht. split; [|apply mergeUnique_clean].
  pose proof (derive_settled _ _ Hb) as Hs.
  destruct (_ && _); [apply flexible_settled, Hs | exact Hs].
Qed.

(** With the seed as the enriched checklist the merged checklist is the
    seed. *)
Lemma merge_checklist_seed (sd : Seeds) (ats : value) :
  settled (s_checklistBase sd) ->
  merge_checklist sd ats (s_checklistBase sd) = Returns (s_checklistBase sd).
Proof.
  intro Hs. unfold merge_checklist. cbv zeta.
  replace (or_else (Payload_value (s_checklistBase sd)) (VObj []))
    with (Payload_value (s_checklistBase sd)) by reflexivity.
  rewrite (sanitize_settled _ _ Hs). cbn [bind]. f_equal.
  destruct Hs as [_ _ _ _ _ Hstop Hrev].
  destruct (s_checklistBase sd) as [h m f c a s] eqn:E.
  cbn [decision_hint missing critical_fails cl_derived_controls actions snapshot] in *.
  f_equal. destruct f as [|f0 fr].
  - simpl. destruct m as [|m0 mr]; [reflexivity|]. simpl.
    destruct h; try reflexivity. exfalso. apply Hrev; [discriminate | reflexivity].
  - simpl. symmetry. apply Hstop. discriminate.
Qed.

(** Whatever the enrichment came to, merging the checklist returns, and its
    critical fails are those of the enriched checklist. *)
Lemma merge_checklist_returns (sd : Seeds) (ats : value)
    (enriched : ChecklistActionsPayload) :
  exists merged,
    merge_checklist sd ats enriched = Returns merged
    /\ critical_fails merged = trimmed_nonblank (critical_fails enriched).
Proof.
  unfold merge_checklist. cbv zeta.
  replace (or_else (Payload_value enriched) (VObj []))
    with (Payload_value enriched) by reflexivity.
  destruct (sanitize_payload_returns enriched (s_checklistBase sd)
              (spread (or_else (coalesce (get ats "checklist_actions")
                                         (Payload_value (s_checklistBase sd)))
                               (VObj []))))
    as [m [-> [Hf _]]].
  cbn [bind]. eexists. split; [reflexivity|]. exact Hf.
Qed.

(** ** The members of the answered document *)

Lemma lookup_none (k : jstring) (l : list (jstring * value)) :
  ~ In k (map fst l) -> lookup k l = VUndef.
Proof.
  induction l as [|[k' v] r IH]; intro H; simpl; [reflexivity|].
  destruct (jstring_eqb k k') eqn:E.
  - apply jstring_eqb_eq in E. exfalso. apply H. left. symmetry. exact E.
  - apply IH. intro Hin. apply H. right. exact Hin.
Qed.

Lemma lookup_skip (k : jstring) (pre rest : list (jstring * value)) :
  ~ In k (map fst pre) -> lookup k (pre ++ rest) = lookup k rest.
Proof.
  induction pre as [|[k' v] r IH]; intro H; simpl; [reflexivity|].
  destruct (jstring_eqb k k') eqn:E.
  - apply jstring_eqb_eq in E. exfalso. apply H. left. symmetry. exact E.
  - apply IH. intro Hin. apply H. right. exact Hin.
Qed.

Lemma member_keys (l : list (jstring * value)) (k : jstring) :
  In k (map fst (flat_map member l)) -> In k (map fst l).
Proof.
  induction l as [|[k' v] r IH]; [intros []|].
  change (flat_map member ((k', v) :: r)) with (member (k', v) ++ flat_map member r).
  rewrite map_app, in_app_iff. intros [H|H]; [|right; apply IH, H].
  left. destruct v; simpl in H; try contradiction; destruct H as [H|[]]; exact H.
Qed.

(** Reading a property that was written once, through [serialize]. *)
Lemma lookup_written (k : jstring) (v : value) (written rest : list (jstring * value)) :
  In (k, v) written ->
  NoDup (map fst written) ->
  (forall p, In p rest -> ~ In (fst p) (map fst written)) ->
  lookup k (flat_map member (written ++ rest)) = serialize v.
Proof.
  intros Hin Hn Hrest. induction written as [|[k' v'] r IH]; [contradiction|].
  simpl in Hn. inversion Hn as [|? ? Hk Hn']; subst.
  change (flat_map member (((k', v') :: r) ++ rest))
    with (member (k', v') ++ flat_map member (r ++ rest)).
  destruct Hin as [E|Hin].
  - injection E as -> ->.
    assert (Hnone : ~ In k (map fst (flat_map member (r ++ rest)))).
    { intro H. apply member_keys in H. rewrite map_app, in_app_iff in H.
      destruct H as [H|H]; [exact (Hk H)|].
      apply in_map_iff in H as [p [Hp Hpin]]. apply (Hrest p Hpin).
      left. symmetry. exact Hp. }
    destruct v; try (simpl; rewrite jstring_eqb_refl; reflexivity).
    simpl. apply lookup_none, Hnone.
  - assert (Hne : jstring_eqb k k' = false).
    { destruct (jstring_eqb k k') eqn:E; [|reflexivity].
      apply jstring_eqb_eq in E. subst k'. exfalso. apply Hk.
      apply in_map_iff. exists (k, v). auto. }
    rewrite lookup_skip.
    + apply IH; [exact Hin | exact Hn'|].
      intros p Hp H. apply (Hrest p Hp). right. exact H.
    + intro H.
      assert (H' : In k (map fst (flat_map member [(k', v')])))
        by (cbn [flat_map]; rewrite app_nil_r; exact H).
      apply member_keys in H'. simpl in H'. destruct H' as [H'|[]].
      subst k'. rewrite jstring_eqb_refl in Hne. discriminate Hne.
Qed.

Lemma get_overwritten (k : string) (v : value) (q written : list (jstring * value)) :
  In (js k, v) written ->
  nodup_b (map fst written) = true ->
  get (serialize (overwrite (VObj q) written)) k = serialize v.
Proof.
  intros Hin Hn. unfold overwrite. rewrite serialize_obj. unfold get.
  apply lookup_written; [exact Hin | apply nodup_b_sound, Hn|].
  intros p Hp. apply filter_In in Hp as [_ Hp]. apply includes_not_In.
  destruct (includes (map fst written) (fst p)); [discriminate Hp | reflexivity].
Qed.

(** What replaces a missing [stop_work] or [controls] is an object; a value
    that was there is kept. *)
Lemma or_else_object (v : value) :
  isArray v = false -> writable (or_else v (VObj [])) = true ->
  exists q, or_else v (VObj []) = VObj q.
Proof.
  unfold or_else. destruct (truthy v); [|eexists; reflexivity].
  destruct v; try discriminate; intros _ _. eexists. reflexivity.
Qed.

(** The members of the answered document, for a draft that is a JSON
    object. *)
Lemma answered_document (props : list (jstring * value)) (doc : ATS) :
  let ans := answer (VObj props) doc in
  get ans "meta" = Meta_value (meta doc)
  /\ get ans "environment" = serialize (Environment_value (environment doc))
  /\ get ans "procedure_refs_used" = VArr (map Source_value (procedure_refs_used doc))
  /\ get ans "procedure_influence" = ProcedureInfluence_value (procedure_influence doc)
  /\ get ans "checklist_actions" = serialize (Payload_value (checklist_actions doc))
  /\ get ans "normative_refs" = VArr (map NormRef_value (normative_refs doc))
  /\ get ans "recommendations" = VArr (map Recommendation_value (recommendations doc))
  /\ get ans "stop_work"
     = serialize (overwrite (or_else (get (VObj props) "stop_work") (VObj []))
                    (StopWork_value (stop_work doc)))
  /\ get ans "controls"
     = serialize (overwrite (or_else (get (VObj props) "controls") (VObj []))
                    (Controls_written (controls doc))).
Proof.
  intro ans. subst ans. destruct (answer_object props doc) as [rest ->].
  repeat split; reflexivity.
Qed.

Lemma answered_stop_work (props : list (jstring * value)) (doc : ATS) :
  isArray (get (VObj props) "stop_work") = false ->
  writable (or_else (get (VObj props) "stop_work") (VObj [])) = true ->
  let sw := get (answer (VObj props) doc) "stop_work" in
  get sw "decision" = serialize (decision (stop_work doc))
  /\ get sw "auto_triggers" = VStrs (auto_triggers (stop_work doc))
  /\ get sw "criteria" = VStrs (criteria (stop_work doc))
  /\ get sw "rationale" = VStr (rationale (stop_work doc)).
Proof.
  intros Ha Hw sw. subst sw.
  destruct (answered_document props doc) as [_ [_ [_ [_ [_ [_ [_ [-> _]]]]]]]].
  destruct (or_else_object _ Ha Hw) as [q ->].
  assert (Hn : nodup_b (map fst (StopWork_value (stop_work doc))) = true)
    by (vm_compute; reflexivity).
  split; [|split; [|split]].
  - apply get_overwritten; [left; reflexivity | exact Hn].
  - rewrite (@get_overwritten "auto_triggers" (VStrs (auto_triggers (stop_work doc))));
      [apply serialize_plain, plain_strs | right; left; reflexivity | exact Hn].
  - rewrite (@get_overwritten "criteria" (VStrs (criteria (stop_work doc))));
      [apply serialize_plain, plain_strs | do 2 right; left; reflexivity | exact Hn].
  - rewrite (@get_overwritten "rationale" (VStr (rationale (stop_work doc))));
      [reflexivity | do 3 right; left; reflexivity | exact Hn].
Qed.

Lemma answered_controls (props : list (jstring * value)) (doc : ATS) :
  isArray (get (VObj props) "controls") = false ->
  writable (or_else (get (VObj props) "controls") (VObj [])) = true ->
  let c := get (answer (VObj props) doc) "controls" in
  get c "engineering" = VStrs (engineering (controls doc))
  /\ get c "administrative" = VStrs (administrative (controls doc))
  /\ get c "ppe" = VStrs (ppe (controls doc)).
Proof.
  intros Ha Hw c. subst c.
  destruct (answered_document props doc) as [_ [_ [_ [_ [_ [_ [_ [_ ->]]]]]]]].
  destruct (or_else_object _ Ha Hw) as [q ->].
  assert (Hn : nodup_b (map fst (Controls_written (controls doc))) = true)
    by (vm_compute; reflexivity).
  split; [|split].
  - rewrite (@get_overwritten "engineering" (VStrs (engineering (controls doc))));
      [apply serialize_plain, plain_strs | left; reflexivity | exact Hn].
  - rewrite (@get_overwritten "administrative" (VStrs (administrative (controls doc))));
      [apply serialize_plain, plain_strs | right; left; reflexivity | exact Hn].
  - rewrite (@get_overwritten "ppe" (VStrs (ppe (controls doc))));
      [apply serialize_plain, plain_strs | do 2 right; left; reflexivity | exact Hn].
Qed.

(** The checklist of the answered document. *)
Lemma answered_checklist (props : list (jstring * value)) (doc : ATS) :
  let c := get (answer (VObj props) doc) "checklist_actions" in
  get c "decision_hint" = VStr (hint_text (decision_hint (checklist_actions doc)))
  /\ get c "missing" = VStrs (missing (checklist_actions doc))
  /\ get c "critical_fails" = VStrs (critical_fails (checklist_actions doc)).
Proof.
  intro c. subst c.
  destruct (answered_document props doc) as [_ [_ [_ [_ [-> _]]]]].
  unfold Payload_value. rewrite serialize_obj.
  cbn [flat_map app]. unfold prop.
  rewrite !(member_plain _ (plain_strs _)).
  rewrite (member_plain _ (plain_str _)).
  repeat split; reflexivity.
Qed.

(** ** The checklist of the document when no enrichment reply is parsed *)

Lemma enrich_unparseable (k : bool) (base : ChecklistActionsPayload) :
  enrichChecklistWithAI k base Unparseable = Returns base.
Proof.
  unfold enrichChecklistWithAI. destruct (negb k); [reflexivity|].
  destruct (negb _); reflexivity.
Qed.

Lemma enrich_without_key (base : ChecklistActionsPayload) (e : reply) :
  enrichChecklistWithAI false base e = Returns base.
Proof. reflexivity. Qed.

(** Without the drafting service, or with an enrichment reply that does not
    parse, the checklist of the document is the seed. *)
Lemma seed_checklist_kept (cfg : Config) (body : value) (sd : Seeds) (ats : value)
    (enrichment : reply) (doc : ATS) :
  prepare cfg body = Ready sd ->
  build_document cfg sd ats enrichment = Returns doc ->
  enrichChecklistWithAI (api_key cfg) (s_checklistBase sd) enrichment
    = Returns (s_checklistBase sd) ->
  checklist_actions doc = s_checklistBase sd.
Proof.
  intros Hsd Hdoc Hen. destruct (prepare_seeds _ _ Hsd) as [Hset _].
  apply build_document_built in Hdoc as [hz0 [c0 [st0 [sw0 [enriched [hz1 Hb]]]]]].
  steps_of Hb. rewrite Hen in Henriched. apply Returns_inj in Henriched.
  subst enriched. rewrite (merge_checklist_seed sd ats Hset) in Hmerged.
  apply Returns_inj in Hmerged. symmetry. exact Hmerged.
Qed.

Lemma plain_seed (cfg : Config) (body : value) (sd : Seeds) :
  prepare cfg body = Ready sd -> plain (Payload_value (s_checklistBase sd)).
Proof.
  intro Hsd. apply plain_payload.
  destruct (prepare_snapshot _ _ Hsd) as [s [a ->]]. apply plain_det_snapshot.
Qed.

(** ** Runs of the route on the sample requests *)

(** With [quiet_request], a draft deciding CONTINUE and an enrichment reply
    adding a critical fail, the answered trigger list holds the checklist
    entry and the answered decision is CONTINUE. *)
Lemma triggers_with_CONTINUE :
  exists ans,
    POST strict_mode quiet_request (Parsed draft_continue) (Parsed enrichment_adds_fail)
    = Json200 ans
    /\ get (get ans "stop_work") "auto_triggers"
       = VStrs [js "Checklist: Permiso de trabajo vencido"]
    /\ get (get ans "stop_work") "decision" = VStr (js "CONTINUE").
Proof.
  eexists. split; [vm_compute; reflexivity|]. split; vm_compute; reflexivity.
Qed.

(** With the same run the answered checklist has a critical fail while its
    hint and the answered decision are CONTINUE. *)
Lemma critical_fail_with_CONTINUE :
  exists ans,
    POST strict_mode quiet_request (Parsed draft_continue) (Parsed enrichment_adds_fail)
    = Json200 ans
    /\ get (get ans "checklist_actions") "critical_fails"
       = VStrs [js "Permiso de trabajo vencido"]
    /\ get (get ans "checklist_actions") "decision_hint" = VStr (js "CONTINUE")
    /\ get (get ans "stop_work") "decision" = VStr (js "CONTINUE").
Proof.
  eexists. split; [vm_compute; reflexivity|]. repeat split; vm_compute; reflexivity.
Qed.

(** ** Failures of the enrichment sub-call *)

Lemma enrich_returns (k : bool) (base : ChecklistActionsPayload) (e : reply) :
  e <> CallFails -> exists p, enrichChecklistWithAI k base e = Returns p.
Proof.
  intro He. unfold enrichChecklistWithAI.
  destruct (negb k); [eexists; reflexivity|].
  cbv zeta. destruct (negb _); [eexists; reflexivity|].
  destruct e as [| |v]; [congruence | eexists; reflexivity|].
  destruct (enrich_parsed base v); eexists; reflexivity.
Qed.

Lemma enrich_call_fails (base : ChecklistActionsPayload) :
  has_items (actions base) || has_items (missing base) || has_items (critical_fails base)
  = true ->
  enrichChecklistWithAI true base CallFails = Throws.
Proof. intro H. unfold enrichChecklistWithAI. simpl. rewrite H. reflexivity. Qed.

(** The synthesizer of hazards returns on the snapshot of the evaluator. *)
Lemma fallback_on_seed (p : ChecklistActionsPayload) (s : value) (a : Answers)
    (tasks : Tasks) (environment : Environment) (autoTriggers : list jstring) :
  snapshot p = det_snapshot s a ->
  exists fb, buildFallbackHazards p tasks environment autoTriggers = Returns fb.
Proof.
  intro Hs. unfold buildFallbackHazards. rewrite Hs.
  change (get (det_snapshot s a) "dangerTypes") with (VStrs (dangerTypes a)).
  change (get (det_snapshot s a) "environmentDangers")
    with (VStrs (environmentDangers a)).
  rewrite !safeArrayStrings_VStrs. cbn [bind]. eexists. reflexivity.
Qed.

(** When the fallback returns, the two steps on the hazards return. *)
Lemma hazards_return (fallback : outcome (list jstring)) (fb hz0 : list jstring) :
  fallback = Returns fb ->
  exists hz1 hz2,
    hazards_or_fallback fallback hz0 = Returns hz1
    /\ harden_hazards fallback hz1 = Returns hz2.
Proof.
  intros ->. unfold hazards_or_fallback, harden_hazards.
  destruct (has_items hz0).
  - exists hz0. destruct (List.length hz0 <? 3)%nat; eexists; split; reflexivity.
  - exists fb. destruct (List.length fb <? 3)%nat; eexists; split; reflexivity.
Qed.

(** A document built with some enrichment reply is built with a reply that
    does not parse, too: every step that can throw, the enrichment call
    apart, is independent of the reply once the checklist is the seed. *)
Lemma built_without_reply (cfg : Config) (body : value) (sd : Seeds) (ats : value)
    (e : reply) (doc : ATS) :
  prepare cfg body = Ready sd ->
  build_document cfg sd ats e = Returns doc ->
  exists doc', build_document cfg sd ats Unparseable = Returns doc'.
Proof.
  intros Hsd Hdoc. destruct (prepare_seeds _ _ Hsd) as [Hset _].
  destruct (prepare_snapshot _ _ Hsd) as [s [a Hsnap]].
  apply build_document_built in Hdoc as [hz0 [c0 [st0 [sw0 [enriched [hz1 Hb]]]]]].
  steps_of Hb.
  set (base := s_checklistBase sd) in *.
  set (sw := final_stop_work sd base sw0).
  destruct (fallback_on_seed base (s_tasks sd) (environment doc) (auto_triggers sw)
              Hsnap) as [fb Hfb].
  destruct (hazards_return hz0 Hfb) as [h1 [h2 [Hh1 Hh2]]].
  eexists. apply build_document_built.
  exists hz0, c0, st0, sw0, base, h1.
  exact (@Build_built cfg sd ats Unparseable
           {| meta := post_meta sd ats;
              environment := environment doc;
              hazards := h2;
              controls := merge_controls sd base c0;
              steps := complete_steps
                         (fun hz => buildFallbackSteps (post_meta sd ats) hz
                                      (merge_controls sd base c0) (s_tasks sd) base)
                         h1 h2 st0;
              stop_work := sw;
              procedure_refs_used := applied (s_procedureInfluence sd);
              procedure_influence := s_procedureInfluence sd;
              checklist_actions := base;
              normative_refs := normative_refs doc;
              recommendations := recommendations doc |}
           hz0 c0 st0 sw0 base h1
           Hwritable eq_refl Henv Hhz0 Hc0 Hst0 Hsw0
           (enrich_unparseable (api_key cfg) base)
           (merge_checklist_seed sd ats Hset)
           eq_refl eq_refl Hnormative Hrecs Hh1 Hh2 eq_refl eq_refl eq_refl).
Qed.

Lemma reconcile_error_any (cfg : Config) (body : value) (sd : Seeds) (ats : value)
    (e : reply) :
  prepare cfg body = Ready sd ->
  reconcile cfg sd ats Unparseable = server_error -> reconcile cfg sd ats e = server_error.
Proof.
  intros Hsd H. unfold reconcile in *.
  destruct (build_document cfg sd ats e) as [doc|] eqn:E; [|reflexivity].
  destruct (@built_without_reply cfg body sd ats e doc Hsd E) as [doc' Hdoc'].
  rewrite Hdoc' in H. discriminate H.
Qed.

Lemma reconcile_call_fails (cfg : Config) (sd : Seeds) (ats : value) :
  api_key cfg = true ->
  has_items (actions (s_checklistBase sd)) || has_items (missing (s_checklistBase sd))
  || has_items (critical_fails (s_checklistBase sd)) = true ->
  reconcile cfg sd ats CallFails = server_error.
Proof.
  intros Hk Hs. unfold reconcile.
  destruct (build_document cfg sd ats CallFails) as [doc|] eqn:E; [|reflexivity].
  apply build_document_built in E as [hz0 [c0 [st0 [sw0 [enriched [hz1 Hb]]]]]].
  steps_of Hb. rewrite Hk, (enrich_call_fails _ Hs) in Henriched. discriminate Henriched.
Qed.

(** C9 (as amended): an enrichment reply that does not parse is absorbed, the
    checklist of the document is the deterministic seed unchanged, and no
    reply that is received makes the sub-call throw; an error answered with
    such a reply is answered whatever the reply.  A rejected call, made when
    the key is set and the seed has a signal, is answered with status 500. *)
Theorem enrichment_failures (cfg : Config) (body : value) (draft : reply) (sd : Seeds) :
  prepare cfg body = Ready sd ->
  enrichChecklistWithAI (api_key cfg) (s_checklistBase sd) Unparseable
  = Returns (s_checklistBase sd)
  /\ (forall ans, POST cfg body draft Unparseable = Json200 ans ->
        exists doc,
          build_document cfg sd (draft_value sd draft) Unparseable = Returns doc
          /\ ans = answer (draft_value sd draft) doc
          /\ checklist_actions doc = s_checklistBase sd
          /\ (isArray (draft_value sd draft) = false ->
              get ans "checklist_actions" = Payload_value (s_checklistBase sd)))
  /\ (forall e, e <> CallFails ->
        exists p, enrichChecklistWithAI (api_key cfg) (s_checklistBase sd) e = Returns p)
  /\ (POST cfg body draft Unparseable = server_error ->
      forall e, POST cfg body draft e = server_error)
  /\ (api_key cfg = true ->
      has_items (actions (s_checklistBase sd)) || has_items (missing (s_checklistBase sd))
      || has_items (critical_fails (s_checklistBase sd)) = true ->
      POST cfg body draft CallFails = Json500 (js "Error generando ATS")).
Proof.
  intro Hsd.
  split; [apply enrich_unparseable|]. split; [|split; [|split]].
  - intros ans Hans.
    apply (@POST_200 cfg body draft Unparseable sd ans Hsd) in Hans
      as [_ [doc [Hdoc ->]]].
    pose proof (@seed_checklist_kept cfg body sd _ Unparseable doc Hsd Hdoc
                  (enrich_unparseable _ _)) as Hkept.
    exists doc. split; [exact Hdoc|]. split; [reflexivity|]. split; [exact Hkept|].
    intro Hobj. destruct (@built_object _ _ _ _ _ Hdoc Hobj) as [props Hprops].
    rewrite Hprops.
    destruct (answered_document props doc) as [_ [_ [_ [_ [-> _]]]]].
    rewrite Hkept. apply serialize_plain, (plain_seed _ _ Hsd).
  - intros e He. apply enrich_returns, He.
  - unfold POST. rewrite Hsd. destruct draft; intros H e;
      [reflexivity | apply (@reconcile_error_any cfg body sd _ e Hsd H) ..].
  - intros Hk Hs. unfold POST. rewrite Hsd.
    destruct draft; [reflexivity | apply reconcile_call_fails; assumption ..].
Qed.

(** With [quiet_request] and the same draft, an enrichment reply that does
    not parse is answered with a document, a rejected enrichment call with
    status 500. *)
Lemma enrichment_call_rejected :
  (match POST strict_mode quiet_request (Parsed draft_continue) Unparseable with
   | Json200 _ => true
   | _ => false
   end) = true
  /\ POST strict_mode quiet_request (Parsed draft_continue) CallFails
     = Json500 (js "Error generando ATS").
Proof. split; vm_compute; reflexivity. Qed.

Lemma enrichment_failures_witness :
  exists sd ans,
    prepare strict_mode quiet_request = Ready sd
    /\ POST strict_mode quiet_request (Parsed draft_continue) Unparseable = Json200 ans
    /\ get ans "checklist_actions" = Payload_value (s_checklistBase sd).
Proof.
  assert (Hp : exists sd, prepare strict_mode quiet_request = Ready sd)
    by (vm_compute; eexists; reflexivity).
  assert (Hd : exists ans, POST strict_mode quiet_request (Parsed draft_continue)
                             Unparseable = Json200 ans)
    by (vm_compute; eexists; reflexivity).
  destruct Hp as [sd Hsd]. destruct Hd as [ans Hans].
  exists sd, ans. split; [exact Hsd|]. split; [exact Hans|].
  destruct (@enrichment_failures strict_mode quiet_request (Parsed draft_continue)
              sd Hsd) as [_ [H _]].
  destruct (H ans Hans) as [doc [_ [_ [_ Hc]]]].
  apply Hc. reflexivity.
Defined.

(** ** The output schema *)

Lemma validate_fields_from (pre : list (jstring * value))
    (ps : list (string * schema)) (vs : list value) :
  NoDup (map key_of ps) ->
  (forall ks, In ks ps -> ~ In (key_of ks) (map fst pre)) ->
  Forall2 (fun ks v => validate (snd ks) v = true) ps vs ->
  forallb (fun ks => validate (snd ks) (lookup (js (fst ks)) (pre ++ fields ps vs))) ps
  = true.
Proof.
  intros Hn Hpre H. revert pre Hn Hpre.
  induction H as [|ks v ps vs Hv _ IH]; intros pre Hn Hpre; [reflexivity|].
  simpl in Hn. inversion Hn as [|? ? Hk Hn']; subst. simpl.
  apply andb_true_iff. split.
  - rewrite lookup_skip by (apply Hpre; left; reflexivity).
    unfold fields. simpl. unfold key_of at 1. rewrite jstring_eqb_refl. exact Hv.
  - specialize (IH (pre ++ [(key_of ks, v)]) Hn').
    rewrite <- app_assoc in IH. apply IH.
    intros ks' Hin. rewrite map_app, in_app_iff. simpl. intros [Hp|[He|[]]].
    + apply (Hpre ks'); [right; exact Hin | exact Hp].
    + apply Hk. rewrite He. apply in_map. exact Hin.
Qed.

Lemma fields_keys (ps : list (string * schema)) (vs : list value) (p : jstring * value) :
  In p (fields ps vs) -> In (fst p) (map key_of ps).
Proof.
  destruct p as [k v]. unfold fields. intro H. apply in_combine_l in H. exact H.
Qed.

Theorem validate_fields (ps : list (string * schema)) (vs : list value) :
  nodup_b (map key_of ps) = true ->
  Forall2 (fun ks v => validate (snd ks) v = true) ps vs ->
  validate (SObject ps) (VObj (fields ps vs)) = true.
Proof.
  intros Hn H. simpl. apply andb_true_iff. split.
  - apply (validate_fields_from [] (nodup_b_sound _ Hn)); [|exact H].
    intros ks _ [].
  - apply forallb_forall. intros p Hp. apply includes_In.
    apply (fields_keys _ _ _ Hp).
Qed.

Lemma validate_array (s : schema) (A : Type) (f : A -> value) (l : list A) :
  (forall x, validate s (f x) = true) -> validate (SArray s) (VArr (map f l)) = true.
Proof.
  intro H. simpl. apply forallb_forall. intros v Hv.
  apply in_map_iff in Hv as [x [<- _]]. apply H.
Qed.

Lemma validate_strs (l : list jstring) : validate (SArray SString) (VStrs l) = true.
Proof. apply validate_array. reflexivity. Qed.

Lemma validate_optstr (o : option jstring) : validate SStringOrNull (VOptStr o) = true.
Proof. destruct o; reflexivity. Qed.

Lemma validate_optnum (o : option jsnum) : validate SNumberOrNull (VOptNum o) = true.
Proof. destruct o; reflexivity. Qed.

(** Show that a record's value is the schema's fields, then check them. *)
Ltac by_fields vs :=
  match goal with
  | |- validate (SObject ?ps) ?v = true =>
      let E := fresh "E" in
      assert (E : v = VObj (fields ps vs))
        by (unfold fields, prop, key_of; cbn [combine map fst snd]; reflexivity);
      rewrite E; clear E;
      apply validate_fields; [vm_compute; reflexivity|]
  end.

Ltac field_by tac := apply Forall2_cons; [tac|].

Lemma validate_str (s : jstring) : validate SString (VStr s) = true.
Proof. reflexivity. Qed.

Create HintDb schema.
#[local] Hint Resolve validate_str validate_strs validate_optstr validate_optnum : schema.

Ltac check_fields :=
  repeat (apply Forall2_cons; [solve [auto with schema]|]); apply Forall2_nil.

Lemma validate_meta (m : Meta) : validate meta_schema (Meta_value m) = true.
Proof.
  unfold meta_schema, Meta_value.
  by_fields [VStr (meta_title m); VStr (company m); VStr (location m); VStr (date m);
             VStr (shift m)].
  check_fields.
Qed.

Lemma validate_environment (e : Environment) :
  validate environment_schema (Environment_value e) = true.
Proof.
  unfold environment_schema, Environment_value.
  by_fields [VOptStr (timeOfDay e); VOptStr (weather e); VOptNum (temperatureC e);
             VOptNum (humidityPct e); VOptStr (wind e); VOptStr (lighting e);
             VOptStr (terrain e); VOptStr (visibility e); VOptStr (noiseLevel e);
             VOptStr (procedureUsedText e); VStrs (controlsAvailable e)].
  check_fields.
Qed.

Lemma validate_controls (c : Controls) : validate controls_schema (Controls_value c) = true.
Proof.
  unfold controls_schema, Controls_value.
  by_fields [VStrs (engineering c); VStrs (administrative c); VStrs (ppe c)].
  check_fields.
Qed.

Lemma validate_step (s : Step) : validate step_schema (Step_value s) = true.
Proof.
  unfold step_schema, Step_value.
  by_fields [VStr (step s); VStrs (step_hazards s); VStrs (step_controls s)].
  check_fields.
Qed.

Lemma validate_source (s : Source) : validate source_schema (Source_value s) = true.
Proof.
  unfold source_schema, Source_value.
  by_fields [VStr (title s); VStr (code s); VStr (origin s)].
  check_fields.
Qed.

Lemma validate_level (l : Level) : validate level_schema (VStr (Level_text l)) = true.
Proof. destruct l; reflexivity. Qed.

#[local] Hint Resolve validate_meta validate_environment validate_controls validate_step
  validate_source validate_level : schema.

Lemma validate_derived_control (d : DerivedControl) :
  validate derived_control_schema (DerivedControl_value d) = true.
Proof.
  unfold derived_control_schema, DerivedControl_value.
  by_fields [VStr (Level_text (level d)); VStr (control d); Source_value (source d)].
  check_fields.
Qed.

Lemma validate_procedure_influence (p : ProcedureInfluence) :
  validate procedure_influence_schema (ProcedureInfluence_value p) = true.
Proof.
  unfold procedure_influence_schema, ProcedureInfluence_value.
  by_fields [VArr (map Source_value (applied p)); VArr (map Source_value (not_parseable p));
             VArr (map DerivedControl_value (derived_controls p))].
  repeat (apply Forall2_cons;
          [apply validate_array; first [apply validate_source
                                       | apply validate_derived_control]|]).
  apply Forall2_nil.
Qed.

Lemma validate_action (a : ChecklistAction) :
  validate action_schema (ChecklistAction_value a) = true.
Proof.
  unfold action_schema, ChecklistAction_value.
  by_fields [VStr (Priority_text (priority a)); VStr (Level_text (category a));
             VStr (action a); VStrs (evidence a)].
  apply Forall2_cons; [destruct (priority a); reflexivity|].
  apply Forall2_cons; [destruct (category a); reflexivity|].
  check_fields.
Qed.

Lemma validate_payload (p : ChecklistActionsPayload) :
  validate snapshot_schema (snapshot p) = true ->
  validate checklist_actions_schema (Payload_value p) = true.
Proof.
  intro Hs. unfold checklist_actions_schema, Payload_value.
  by_fields [VStr (hint_text (decision_hint p)); VStrs (missing p);
             VStrs (critical_fails p); Controls_value (cl_derived_controls p);
             VArr (map ChecklistAction_value (actions p)); snapshot p].
  apply Forall2_cons; [destruct (decision_hint p); reflexivity|].
  do 3 (apply Forall2_cons; [solve [auto with schema]|]).
  apply Forall2_cons; [apply validate_array, validate_action|].
  apply Forall2_cons; [exact Hs | apply Forall2_nil].
Qed.

Lemma validate_det_snapshot (s : value) (a : Answers) :
  validate snapshot_schema (det_snapshot s a) = true.
Proof.
  unfold snapshot_schema, det_snapshot.
  by_fields [VStr (incidentsReference a);
             VStr (otherCompanies a);
             VStrs (dangerTypes a);
             VStrs (environmentDangers a);
             VStrs (emergencies a);
             VStrs (safetyEquipment a);
             VStrs (lifeSavingRules a);
             VObj [prop "stagesClarity" (VStr (supervisor_answer s "stagesClarity"));
                   prop "hazardsControlled" (VStr (supervisor_answer s "hazardsControlled"));
                   prop "isolationConfirmed"
                     (VStr (supervisor_answer s "isolationConfirmed"));
                   prop "commsAgreed" (VStr (supervisor_answer s "commsAgreed"));
                   prop "toolsOk" (VStr (supervisor_answer s "toolsOk"))]].
  do 7 (apply Forall2_cons; [solve [auto with schema]|]).
  apply Forall2_cons; [|apply Forall2_nil].
  unfold supervisor_checks_schema. cbn [snd].
  by_fields [VStr (supervisor_answer s "stagesClarity");
             VStr (supervisor_answer s "hazardsControlled");
             VStr (supervisor_answer s "isolationConfirmed");
             VStr (supervisor_answer s "commsAgreed");
             VStr (supervisor_answer s "toolsOk")].
  check_fields.
Qed.

Lemma validate_norm_ref (n : NormRef) : validate norm_ref_schema (NormRef_value n) = true.
Proof.
  unfold norm_ref_schema, NormRef_value.
  by_fields [VStr (standard n); VOptStr (clause n); VOptStr (note n); VOptStr (url n)].
  check_fields.
Qed.

Lemma validate_based_on (b : jstring * option jstring) :
  validate based_on_schema (based_on_value b) = true.
Proof.
  unfold based_on_schema, based_on_value.
  by_fields [VStr (fst b); VOptStr (snd b)].
  check_fields.
Qed.

Lemma validate_recommendation (r : Recommendation) :
  validate recommendation_schema (Recommendation_value r) = true.
Proof.
  unfold recommendation_schema, Recommendation_value.
  by_fields [VStr (topic r); VStr (recommendation r);
             VArr (map based_on_value (based_on r));
             VStr (Verification_text (verification r))].
  do 2 (apply Forall2_cons; [solve [auto with schema]|]).
  apply Forall2_cons; [apply validate_array, validate_based_on|].
  apply Forall2_cons; [destruct (verification r); reflexivity | apply Forall2_nil].
Qed.

Lemma validate_stop_work (sw : StopWork) :
  validate decision_schema (decision sw) = true ->
  validate stop_work_schema (VObj (StopWork_value sw)) = true.
Proof.
  intro Hd. unfold stop_work_schema, StopWork_value.
  by_fields [decision sw; VStrs (auto_triggers sw); VStrs (criteria sw);
             VStr (rationale sw)].
  apply Forall2_cons; [exact Hd|]. check_fields.
Qed.

(** The substitute document with the eleven properties written on it is
    valid once its decision is one of the three and its checklist snapshot
    has the schema's shape. *)
Theorem validate_substituted (sd : Seeds) (doc : ATS) :
  validate decision_schema (decision (stop_work doc)) = true ->
  validate snapshot_schema (snapshot (checklist_actions doc)) = true ->
  validate ATS_SCHEMA (ATS_value (substitute sd) doc) = true.
Proof.
  intros Hd Hs. unfold ATS_SCHEMA.
  by_fields [Meta_value (meta doc); Environment_value (environment doc);
             VStrs (hazards doc); Controls_value (controls doc);
             VArr (map Step_value (steps doc)); VObj (StopWork_value (stop_work doc));
             VArr (map Source_value (procedure_refs_used doc));
             ProcedureInfluence_value (procedure_influence doc);
             Payload_value (checklist_actions doc);
             VArr (map NormRef_value (normative_refs doc));
             VArr (map Recommendation_value (recommendations doc))].
  do 4 (apply Forall2_cons; [solve [auto with schema]|]).
  apply Forall2_cons; [apply validate_array, validate_step|].
  apply Forall2_cons; [apply validate_stop_work, Hd|].
  apply Forall2_cons; [apply validate_array, validate_source|].
  apply Forall2_cons; [apply validate_procedure_influence|].
  apply Forall2_cons; [apply validate_payload, Hs|].
  apply Forall2_cons; [apply validate_array, validate_norm_ref|].
  apply Forall2_cons; [apply validate_array, validate_recommendation|].
  apply Forall2_nil.
Qed.

(** *** Validity survives [JSON.stringify] *)

Lemma validate_undef (s : schema) : validate s VUndef = false.
Proof. destruct s; reflexivity. Qed.

Lemma validate_defined (s : schema) (v : value) : validate s v = true -> v <> VUndef.
Proof. intros H ->. rewrite validate_undef in H. discriminate H. Qed.

Lemma element_defined (v : value) : v <> VUndef -> element v = serialize v.
Proof. destruct v; try reflexivity. intro H. contradiction H. reflexivity. Qed.

Lemma lookup_member_defined (k : jstring) (props : list (jstring * value)) :
  lookup k props <> VUndef ->
  lookup k (flat_map member props) = serialize (lookup k props).
Proof.
  induction props as [|[k' v] r IH]; [intro H; contradiction H; reflexivity|].
  change (flat_map member ((k', v) :: r)) with (member (k', v) ++ flat_map member r).
  simpl lookup. destruct (jstring_eqb k k') eqn:E.
  - intro Hv. destruct v; try (contradiction Hv; reflexivity);
      simpl; rewrite E; reflexivity.
  - intro Hv. destruct v; simpl; rewrite ?E; apply IH, Hv.
Qed.

Theorem validate_serialize :
  forall (s : schema) (v : value), validate s v = true -> validate s (serialize v) = true.
Proof.
  fix IH 1. intros s v. destruct s as [| | |options|items|properties].
  - destruct v; try discriminate; reflexivity.
  - destruct v; try discriminate; reflexivity.
  - destruct v; try discriminate; [reflexivity|].
    intros _. simpl. destruct (num_val n); reflexivity.
  - destruct v; try discriminate. intro H. exact H.
  - destruct v as [| | | | |l|]; try discriminate.
    rewrite serialize_arr. cbn [validate].
    induction l as [|x r IHl]; [reflexivity|]. cbn [forallb map].
    intro H. apply andb_true_iff in H as [Hx Hr]. apply andb_true_iff. split.
    + rewrite (@element_defined x (@validate_defined items x Hx)). apply IH, Hx.
    + apply IHl, Hr.
  - destruct v as [| | | | | |props]; try discriminate.
    rewrite serialize_obj. cbn [validate].
    intro H. apply andb_true_iff in H as [Hp Hk]. apply andb_true_iff. split.
    + clear Hk. induction properties as [|[name sch] r IHp]; [reflexivity|].
      cbn [forallb fst snd] in Hp |- *.
      apply andb_true_iff in Hp as [Hx Hr]. apply andb_true_iff. split.
      * rewrite (@lookup_member_defined _ props (@validate_defined sch _ Hx)).
        apply IH, Hx.
      * apply IHp, Hr.
    + apply forallb_forall. intros p Hp'. rewrite forallb_forall in Hk.
      assert (Hin : In (fst p) (map fst props))
        by (apply member_keys, in_map, Hp').
      apply in_map_iff in Hin as [q [Hq Hqin]]. rewrite <- Hq. apply Hk, Hqin.
Qed.

(** ** Seeds that are normalized again *)

Lemma str_or_null_tidy (s : jstring) : tidy_opt (str_or_null (trim s)).
Proof.
  unfold str_or_null. destruct (is_empty (trim s)) eqn:E; simpl; [exact I|].
  apply tidy_trim, E.
Qed.

Lemma str_or_null_back (o : option jstring) : tidy_opt o -> str_or_null (opt_text o) = o.
Proof.
  destruct o as [s|]; simpl; [|reflexivity].
  intros [_ Hn]. unfold str_or_null. apply is_empty_false in Hn. rewrite Hn. reflexivity.
Qed.

Lemma normalizeNormRefs_tidy (v : value) (l : list NormRef) :
  normalizeNormRefs v = Returns l -> Forall tidy_norm_ref l.
Proof.
  unfold normalizeNormRefs. cbv zeta. intro H.
  apply bind_inv in H as [raw [Hraw H]]. apply Returns_inj in H. subst l.
  apply Forall_forall. intros n Hn.
  apply in_map_iff in Hn as [[[[s c] n0] u] [<- Hin]].
  apply filter_In in Hin as [Hin Hs].
  destruct (mapM_In _ _ _ Hraw Hin) as [x [_ Hx]].
  returned Hx. injection Hx as <- <- <- <-.
  repeat split; cbn [standard clause note url]; try apply str_or_null_tidy;
    try apply trim_trimmed.
  apply is_empty_false. unfold nonblank in Hs.
  destruct (is_empty (trim _)); [discriminate Hs | reflexivity].
Qed.

Lemma String_or_empty_opt (o : option jstring) :
  String_or_empty (VOptStr o) = Returns (opt_text o).
Proof. destruct o; reflexivity. Qed.

Lemma trim_opt_text (o : option jstring) : tidy_opt o -> trim (opt_text o) = opt_text o.
Proof. destruct o as [s|]; [intros [H _]; exact H | reflexivity]. Qed.

Lemma norm_ref_read (n : NormRef) :
  tidy_norm_ref n ->
  (s <- String_or_empty (get (NormRef_value n) "standard") ;;
   c <- String_or_empty (get (NormRef_value n) "clause") ;;
   n0 <- String_or_empty (get (NormRef_value n) "note") ;;
   u <- String_or_empty (get (NormRef_value n) "url") ;;
   Returns (trim s, trim c, trim n0, trim u))
  = Returns (standard n, opt_text (clause n), opt_text (note n), opt_text (url n)).
Proof.
  intros [[Hs _] [Hc [Hn Hu]]].
  change (get (NormRef_value n) "standard") with (VStr (standard n)).
  change (get (NormRef_value n) "clause") with (VOptStr (clause n)).
  change (get (NormRef_value n) "note") with (VOptStr (note n)).
  change (get (NormRef_value n) "url") with (VOptStr (url n)).
  rewrite !String_or_empty_opt. cbn [String_or_empty String_of bind].
  rewrite Hs, !trim_opt_text by assumption. reflexivity.
Qed.

Lemma normalizeNormRefs_values (l : list NormRef) :
  Forall tidy_norm_ref l -> normalizeNormRefs (VArr (map NormRef_value l)) = Returns l.
Proof.
  intro H. unfold normalizeNormRefs. cbn [pickArray]. cbv zeta.
  rewrite (mapM_map _ NormRef_value
             (fun n => (standard n, opt_text (clause n), opt_text (note n),
                        opt_text (url n))))
    by (intros n Hn; rewrite Forall_forall in H; apply norm_ref_read, (H n Hn)).
  cbn [bind]. f_equal.
  induction H as [|n r [[_ Hne] [Hc [Hn Hu]]] _ IH]; [reflexivity|].
  cbn [map filter]. unfold nonblank at 1. apply is_empty_false in Hne. rewrite Hne.
  cbn [negb map]. rewrite !str_or_null_back by assumption.
  f_equal; [destruct n; reflexivity | exact IH].
Qed.

Lemma toStrOrNull_back (v : value) : toStrOrNull (VOptStr (toStrOrNull v)) = toStrOrNull v.
Proof.
  destruct v; simpl; try reflexivity.
  destruct (is_empty (trim s)) eqn:E; simpl; [reflexivity|]. rewrite E. reflexivity.
Qed.

Lemma numOrNull_back (v : value) : numOrNull (VOptNum (numOrNull v)) = numOrNull v.
Proof. destruct v; reflexivity. Qed.

Lemma mapM_String_of_VStr (l : list jstring) : mapM String_of (map VStr l) = Returns l.
Proof.
  rewrite (mapM_map String_of VStr (fun s => s)); [rewrite map_id; reflexivity|].
  reflexivity.
Qed.

Lemma normalizeEnvironment_value (v : value) (e : Environment) :
  normalizeEnvironment v = Returns e ->
  normalizeEnvironment (Environment_value e) = Returns e.
Proof.
  unfold normalizeEnvironment at 1. cbv zeta. intro H.
  apply bind_inv in H as [ctl [Hctl H]]. apply Returns_inj in H.
  assert (Ht : Forall tidy ctl).
  { destruct (get _ "controlsAvailable"); try (injection Hctl as <-; constructor).
    returned Hctl. injection Hctl as <-. apply trimmed_nonblank_tidy. }
  assert (Hc : controlsAvailable e = ctl) by (rewrite <- H; reflexivity).
  unfold normalizeEnvironment.
  change (truthy (Environment_value e) && typeof_object (Environment_value e)) with true.
  cbv iota zeta.
  change (get (Environment_value e) "timeOfDay") with (VOptStr (timeOfDay e)).
  change (get (Environment_value e) "weather") with (VOptStr (weather e)).
  change (get (Environment_value e) "temperatureC") with (VOptNum (temperatureC e)).
  change (get (Environment_value e) "humidityPct") with (VOptNum (humidityPct e)).
  change (get (Environment_value e) "wind") with (VOptStr (wind e)).
  change (get (Environment_value e) "lighting") with (VOptStr (lighting e)).
  change (get (Environment_value e) "terrain") with (VOptStr (terrain e)).
  change (get (Environment_value e) "visibility") with (VOptStr (visibility e)).
  change (get (Environment_value e) "noiseLevel") with (VOptStr (noiseLevel e)).
  change (get (Environment_value e) "procedureUsedText")
    with (VOptStr (procedureUsedText e)).
  change (get (Environment_value e) "controlsAvailable")
    with (VStrs (controlsAvailable e)).
  unfold VStrs. rewrite mapM_String_of_VStr. cbn [bind].
  rewrite Hc, (trimmed_nonblank_id Ht).
  rewrite <- H.
  cbn [timeOfDay weather temperatureC humidityPct wind lighting terrain visibility
       noiseLevel procedureUsedText controlsAvailable].
  rewrite !toStrOrNull_back, !numOrNull_back. reflexivity.
Qed.

(** ** A draft that does not parse *)

Lemma substitute_meta (sd : Seeds) : post_meta sd (substitute sd) = s_meta sd.
Proof. destruct sd as [[t c l d s] e k a p n i b]. reflexivity. Qed.

Lemma substitute_environment (cfg : Config) (body : value) (sd : Seeds) :
  prepare cfg body = Ready sd ->
  post_environment sd (substitute sd) = Returns (s_environment sd).
Proof.
  intro Hsd. apply prepare_Ready in Hsd as [base [flag [ll [t [Henv _]]]]].
  unfold post_environment.
  change (coalesce (get (substitute sd) "environment")
            (Environment_value (s_environment sd)))
    with (Environment_value (s_environment sd)).
  apply (normalizeEnvironment_value _ Henv).
Qed.

Lemma substitute_normative (cfg : Config) (body : value) (sd : Seeds) :
  prepare cfg body = Ready sd ->
  normalizeNormRefs
    (coalesce (get (substitute sd) "normative_refs")
       (VArr (map NormRef_value (s_normativeRefs sd))))
  = Returns (s_normativeRefs sd).
Proof.
  intro Hsd. apply prepare_Ready in Hsd as [base [flag [ll [t [_ [Hnorm _]]]]]].
  change (coalesce (get (substitute sd) "normative_refs")
            (VArr (map NormRef_value (s_normativeRefs sd))))
    with (VArr (map NormRef_value (s_normativeRefs sd))).
  apply normalizeNormRefs_values, (normalizeNormRefs_tidy _ Hnorm).
Qed.

Lemma substitute_sanitized (sd : Seeds) :
  writable (substitute sd) = true
  /\ safeArrayStrings (get (substitute sd) "hazards") = Returns []
  /\ post_controls (substitute sd) = Returns no_controls
  /\ post_steps (substitute sd) = Returns []
  /\ post_stop_work sd (substitute sd) = Returns (substitute_stop_work sd)
  /\ post_recommendations sd (substitute sd) = Returns [].
Proof. repeat split. Qed.

(** What a document built from the substitute holds. *)
Lemma substitute_built (cfg : Config) (body : value) (sd : Seeds) (e : reply) (doc : ATS) :
  prepare cfg body = Ready sd ->
  build_document cfg sd (substitute sd) e = Returns doc ->
  meta doc = s_meta sd
  /\ environment doc = s_environment sd
  /\ normative_refs doc = s_normativeRefs sd
  /\ recommendations doc = []
  /\ procedure_refs_used doc = applied (s_procedureInfluence sd)
  /\ procedure_influence doc = s_procedureInfluence sd
  /\ stop_work doc = final_stop_work sd (checklist_actions doc) (substitute_stop_work sd)
  /\ controls doc = merge_controls sd (checklist_actions doc) no_controls.
Proof.
  intros Hsd Hdoc.
  apply build_document_built in Hdoc as [hz0 [c0 [st0 [sw0 [enriched [hz1 Hb]]]]]].
  steps_of Hb.
  destruct (substitute_sanitized sd) as [_ [_ [Sc [_ [Ssw Sr]]]]].
  rewrite (substitute_environment _ _ Hsd) in Henv. apply Returns_inj in Henv.
  rewrite (substitute_normative _ _ Hsd) in Hnormative. apply Returns_inj in Hnormative.
  rewrite Sc in Hc0. apply Returns_inj in Hc0.
  rewrite Ssw in Hsw0. apply Returns_inj in Hsw0.
  rewrite Sr in Hrecs. apply Returns_inj in Hrecs.
  subst c0 sw0.
  split; [rewrite Hmeta; apply substitute_meta|].
  repeat split; auto.
Qed.

(** The substitute is built into a document as soon as the enrichment and
    the synthesizer of hazards return. *)
Lemma substitute_builds (cfg : Config) (body : value) (sd : Seeds) (e : reply)
    (merged : ChecklistActionsPayload) (fb : list jstring) :
  prepare cfg body = Ready sd ->
  (exists enriched,
     enrichChecklistWithAI (api_key cfg) (s_checklistBase sd) e = Returns enriched
     /\ merge_checklist sd (substitute sd) enriched = Returns merged) ->
  buildFallbackHazards merged (s_tasks sd) (s_environment sd)
    (auto_triggers (final_stop_work sd merged (substitute_stop_work sd))) = Returns fb ->
  exists doc,
    build_document cfg sd (substitute sd) e = Returns doc
    /\ checklist_actions doc = merged.
Proof.
  intros Hsd [enriched [Hen Hm]] Hfb.
  destruct (substitute_sanitized sd) as [Sw [Sh [Sc [Sst [Ssw Sr]]]]].
  destruct (hazards_return [] Hfb) as [h1 [h2 [Hh1 Hh2]]].
  eexists. split.
  - apply build_document_built.
    exists [], no_controls, [], (substitute_stop_work sd), enriched, h1.
    exact (@Build_built cfg sd (substitute sd) e
             {| meta := post_meta sd (substitute sd);
                environment := s_environment sd;
                hazards := h2;
                controls := merge_controls sd merged no_controls;
                steps := complete_steps
                           (fun hz => buildFallbackSteps (post_meta sd (substitute sd)) hz
                                        (merge_controls sd merged no_controls)
                                        (s_tasks sd) merged)
                           h1 h2 [];
                stop_work := final_stop_work sd merged (substitute_stop_work sd);
                procedure_refs_used := applied (s_procedureInfluence sd);
                procedure_influence := s_procedureInfluence sd;
                checklist_actions := merged;
                normative_refs := s_normativeRefs sd;
                recommendations := [] |}
             [] no_controls [] (substitute_stop_work sd) enriched h1
             Sw eq_refl (substitute_environment _ _ Hsd) Sh Sc Sst Ssw Hen Hm
             eq_refl eq_refl (substitute_normative _ _ Hsd) Sr Hh1 Hh2
             eq_refl eq_refl eq_refl).
  - reflexivity.
Qed.

Lemma set_decision_valid (sw : StopWork) (d : string) (r : jstring) :
  In d ["STOP"; "CONTINUE"; "REVIEW_REQUIRED"]%string ->
  validate decision_schema (decision (set_decision sw d r)) = true.
Proof.
  intros [<-|[<-|[<-|[]]]]; reflexivity.
Qed.

Lemma final_decision_valid (sd : Seeds) (m : ChecklistActionsPayload) (sw : StopWork) :
  validate decision_schema (decision sw) = true ->
  validate decision_schema (decision (final_stop_work sd m sw)) = true.
Proof.
  intro H. unfold final_stop_work. rewrite checklist_triggers_decision.
  assert (H1 : validate decision_schema
                 (decision (trigger_guard (s_autoTriggers sd) sw)) = true).
  { unfold trigger_guard. destruct (_ && _); [|exact H].
    apply set_decision_valid. simpl. tauto. }
  assert (H2 : validate decision_schema
                 (decision (default_decision (s_autoTriggers sd)
                              (trigger_guard (s_autoTriggers sd) sw))) = true).
  { unfold default_decision. destruct (_ && _); [|exact H1].
    apply set_decision_valid. simpl. tauto. }
  unfold checklist_adjust. destruct (decision_hint m); [| |exact H2].
  - destruct (negb _); [|exact H2]. apply set_decision_valid. simpl. tauto.
  - destruct (decision_is _ _); [|exact H2]. apply set_decision_valid. simpl. tauto.
Qed.

Lemma final_triggers_extend (sd : Seeds) (m : ChecklistActionsPayload) (sw : StopWork) :
  clean (auto_triggers sw) ->
  exists t, auto_triggers (final_stop_work sd m sw) = auto_triggers sw ++ t.
Proof.
  intro Hc. unfold final_stop_work, checklist_triggers. cbv zeta.
  destruct (has_items _); cbn [auto_triggers]; rewrite steps_keep_triggers.
  - apply mergeUnique_extends, Hc.
  - exists []. symmetry. apply app_nil_r.
Qed.

Lemma trigger_guard_criteria (t : list jstring) (sw : StopWork) :
  criteria (trigger_guard t sw) = criteria sw.
Proof. unfold trigger_guard. destruct (_ && _); reflexivity. Qed.

Lemma default_decision_criteria (t : list jstring) (sw : StopWork) :
  criteria (default_decision t sw) = criteria sw.
Proof. unfold default_decision. destruct (_ && _); reflexivity. Qed.

Lemma checklist_adjust_criteria (h : ChecklistDecisionHint) (sw : StopWork) :
  criteria (checklist_adjust h sw) = criteria sw.
Proof.
  unfold checklist_adjust. destruct h; [| |reflexivity].
  - destruct (negb _); reflexivity.
  - destruct (decision_is _ _); reflexivity.
Qed.

Lemma checklist_triggers_criteria (m : ChecklistActionsPayload) (sw : StopWork) :
  criteria (checklist_triggers m sw) = criteria sw.
Proof. unfold checklist_triggers. cbv zeta. destruct (has_items _); reflexivity. Qed.

Lemma final_criteria (sd : Seeds) (m : ChecklistActionsPayload) (sw : StopWork) :
  criteria (final_stop_work sd m sw) = criteria sw.
Proof.
  unfold final_stop_work.
  rewrite checklist_triggers_criteria, checklist_adjust_criteria,
    default_decision_criteria, trigger_guard_criteria.
  reflexivity.
Qed.

Lemma post_stop_work_writable (sd : Seeds) (ats : value) (sw0 : StopWork) :
  post_stop_work sd ats = Returns sw0 ->
  writable (or_else (get ats "stop_work") (VObj [])) = true.
Proof.
  unfold post_stop_work. cbv zeta.
  destruct (writable (or_else (get ats "stop_work") (VObj []))); [reflexivity|].
  discriminate.
Qed.

(** The triggers and the criteria of an answered document, whatever the
    draft held there. *)
Lemma answered_triggers (cfg : Config) (body : value) (sd : Seeds)
    (props : list (jstring * value)) (e : reply) (doc : ATS) :
  prepare cfg body = Ready sd ->
  build_document cfg sd (VObj props) e = Returns doc ->
  isArray (get (VObj props) "stop_work") = false ->
  (exists t,
     get (get (answer (VObj props) doc) "stop_work") "auto_triggers"
     = VStrs (s_autoTriggers sd ++ t))
  /\ get (get (answer (VObj props) doc) "stop_work") "criteria" = VStrs generalCriteria.
Proof.
  intros Hsd Hdoc Harr. destruct (prepare_seeds _ _ Hsd) as [_ Hclean].
  apply build_document_built in Hdoc as [hz0 [c0 [st0 [sw0 [enriched [hz1 Hb]]]]]].
  steps_of Hb.
  pose proof (post_stop_work_writable _ _ Hsw0) as Hw.
  destruct (answered_stop_work props doc Harr Hw) as [_ [-> [-> _]]].
  destruct (post_stop_work_triggers _ _ Hsw0) as [Ht [Hc _]].
  rewrite Hstop, final_criteria, Hc. split; [|reflexivity].
  destruct (final_triggers_extend sd (checklist_actions doc) sw0) as [t Et];
    [rewrite Ht; exact Hclean|].
  exists t. rewrite Et, Ht. reflexivity.
Qed.

(** C4 (as amended): for a request that reaches the drafting call and a
    draft that does not parse.  When no enrichment reply is parsed (the
    sub-call answers the seed: no key, no signal, or a reply that does not
    parse) the request is answered with a document that validates against
    the schema and whose checklist is the seed; when the enrichment call is
    rejected the request is answered 500.  Whenever a document is answered,
    its trigger list starts with the trigger seed as it is, its criteria are
    the fixed ones, its meta, environment, procedure influence and normative
    references are the seeds', it has no recommendation, and it validates as
    soon as its checklist snapshot does.  And whatever the draft, parsed or
    not, the trigger list of an answered document starts with the trigger seed
    and its criteria are the fixed ones. *)
Theorem unparseable_draft (cfg : Config) (body : value) (enrichment : reply) (sd : Seeds) :
  prepare cfg body = Ready sd ->
  (enrichChecklistWithAI (api_key cfg) (s_checklistBase sd) enrichment
   = Returns (s_checklistBase sd) ->
   exists ans,
     POST cfg body Unparseable enrichment = Json200 ans
     /\ validate ATS_SCHEMA ans = true
     /\ get ans "checklist_actions" = Payload_value (s_checklistBase sd))
  /\ (enrichment = Unparseable \/ api_key cfg = false ->
      enrichChecklistWithAI (api_key cfg) (s_checklistBase sd) enrichment
      = Returns (s_checklistBase sd))
  /\ (enrichChecklistWithAI (api_key cfg) (s_checklistBase sd) enrichment = Throws ->
      POST cfg body Unparseable enrichment = Json500 (js "Error generando ATS"))
  /\ (forall ans,
        POST cfg body Unparseable enrichment = Json200 ans ->
        exists doc,
          build_document cfg sd (substitute sd) enrichment = Returns doc
          /\ ans = answer (substitute sd) doc
          /\ (exists t, get (get ans "stop_work") "auto_triggers"
                        = VStrs (s_autoTriggers sd ++ t))
          /\ get (get ans "stop_work") "criteria" = VStrs generalCriteria
          /\ get ans "meta" = Meta_value (s_meta sd)
          /\ get ans "environment" = serialize (Environment_value (s_environment sd))
          /\ get ans "procedure_refs_used"
             = VArr (map Source_value (applied (s_procedureInfluence sd)))
          /\ get ans "procedure_influence"
             = ProcedureInfluence_value (s_procedureInfluence sd)
          /\ get ans "normative_refs" = VArr (map NormRef_value (s_normativeRefs sd))
          /\ get ans "recommendations" = VArr []
          /\ (validate snapshot_schema (snapshot (checklist_actions doc)) = true ->
              validate ATS_SCHEMA ans = true))
  /\ (forall draft ans,
        POST cfg body draft enrichment = Json200 ans ->
        isArray (draft_value sd draft) = false ->
        isArray (get (draft_value sd draft) "stop_work") = false ->
        (exists t, get (get ans "stop_work") "auto_triggers"
                   = VStrs (s_autoTriggers sd ++ t))
        /\ get (get ans "stop_work") "criteria" = VStrs generalCriteria).
Proof.
  intro Hsd.
  destruct (prepare_seeds _ _ Hsd) as [Hset Hclean].
  assert (Hvalid : forall doc,
            build_document cfg sd (substitute sd) enrichment = Returns doc ->
            validate snapshot_schema (snapshot (checklist_actions doc)) = true ->
            validate ATS_SCHEMA (answer (substitute sd) doc) = true).
  { intros doc Hdoc Hs. apply validate_serialize, validate_substituted; [|exact Hs].
    destruct (@substitute_built cfg body sd enrichment doc Hsd Hdoc)
      as [_ [_ [_ [_ [_ [_ [-> _]]]]]]].
    apply final_decision_valid. unfold substitute_stop_work. cbn [decision].
    destruct (has_items _); reflexivity. }
  split; [|split; [|split; [|split]]].
  - intro Hen.
    destruct (prepare_snapshot _ _ Hsd) as [s [a Hsnap]].
    destruct (fallback_on_seed (s_checklistBase sd) (s_tasks sd) (s_environment sd)
                (auto_triggers (final_stop_work sd (s_checklistBase sd)
                                  (substitute_stop_work sd))) Hsnap) as [fb Hfb].
    destruct (@substitute_builds cfg body sd enrichment (s_checklistBase sd) fb Hsd)
      as [doc [Hdoc Hc]];
      [exists (s_checklistBase sd); split;
       [exact Hen | apply (merge_checklist_seed sd _ Hset)] | exact Hfb |].
    exists (answer (substitute sd) doc). split; [|split].
    + unfold POST. rewrite Hsd. unfold reconcile. rewrite Hdoc. reflexivity.
    + apply (Hvalid doc Hdoc). rewrite Hc, Hsnap. apply validate_det_snapshot.
    + destruct (answered_document (spread (substitute sd)) doc)
        as [_ [_ [_ [_ [Hch _]]]]].
      change (VObj (spread (substitute sd))) with (substitute sd) in Hch.
      rewrite Hch, Hc. apply serialize_plain, (plain_seed _ _ Hsd).
  - intros [->|Hk]; [apply enrich_unparseable | rewrite Hk; apply enrich_without_key].
  - intro Hen. unfold POST. rewrite Hsd. unfold reconcile.
    destruct (build_document cfg sd (substitute sd) enrichment) as [doc|] eqn:E;
      [|reflexivity].
    apply build_document_built in E as [hz0 [c0 [st0 [sw0 [enriched [hz1 Hb]]]]]].
    steps_of Hb. rewrite Hen in Henriched. discriminate Henriched.
  - intros ans Hans.
    apply (@POST_200 cfg body Unparseable enrichment sd ans Hsd) in Hans
      as [_ [doc [Hdoc ->]]].
    cbn [draft_value] in *. exists doc. split; [exact Hdoc|]. split; [reflexivity|].
    destruct (@substitute_built cfg body sd enrichment doc Hsd Hdoc)
      as [Hm [He [Hn [Hr [Hu [Hi _]]]]]].
    destruct (@answered_triggers cfg body sd (spread (substitute sd)) enrichment doc
                Hsd Hdoc eq_refl) as [Ht Hc].
    destruct (answered_document (spread (substitute sd)) doc)
      as [A1 [A2 [A3 [A4 [_ [A6 [A7 _]]]]]]].
    change (VObj (spread (substitute sd))) with (substitute sd) in *.
    split; [exact Ht|]. split; [exact Hc|].
    split; [rewrite A1, Hm; reflexivity|].
    split; [rewrite A2, He; reflexivity|].
    split; [rewrite A3, Hu; reflexivity|].
    split; [rewrite A4, Hi; reflexivity|].
    split; [rewrite A6, Hn; reflexivity|].
    split; [rewrite A7, Hr; reflexivity|].
    apply (Hvalid doc Hdoc).
  - intros draft ans Hans Hobj Harr.
    apply (@POST_200 cfg body draft enrichment sd ans Hsd) in Hans
      as [_ [doc [Hdoc ->]]].
    destruct (@built_object _ _ _ _ _ Hdoc Hobj) as [props Hprops].
    rewrite Hprops in *.
    apply (@answered_triggers cfg body sd props enrichment doc Hsd Hdoc Harr).
Qed.

Lemma unparseable_draft_witness :
  exists sd ans,
    prepare strict_mode storm_request = Ready sd
    /\ POST strict_mode storm_request Unparseable Unparseable = Json200 ans
    /\ validate ATS_SCHEMA ans = true
    /\ (exists t, get (get ans "stop_work") "auto_triggers"
                  = VStrs (s_autoTriggers sd ++ t)).
Proof.
  assert (Hp : exists sd, prepare strict_mode storm_request = Ready sd)
    by (vm_compute; eexists; reflexivity).
  destruct Hp as [sd Hsd].
  destruct (@unparseable_draft strict_mode storm_request Unparseable sd Hsd)
    as [Hseed [Hno [_ [Hany _]]]].
  destruct (Hseed (Hno (or_introl eq_refl))) as [ans [Hans [Hv _]]].
  destruct (Hany ans Hans) as [doc [_ [_ [Ht _]]]].
  exists sd, ans. split; [exact Hsd|]. split; [exact Hans|]. split; [exact Hv|].
  exact Ht.
Defined.

(** A draft that does not parse does not make every request succeed: with
    [storm_request] a rejected enrichment call is answered 500; a request
    body that is [null] is answered 500 and one that stops at the lesson
    gate 400, whatever the draft; and with an enrichment reply whose snapshot
    is an empty object the answered document does not validate. *)
Lemma unparseable_draft_not_answered :
  (exists sd, prepare strict_mode storm_request = Ready sd)
  /\ POST strict_mode storm_request Unparseable CallFails
     = Json500 (js "Error generando ATS")
  /\ POST strict_mode VNull Unparseable Unparseable = Json500 (js "Error generando ATS")
  /\ (exists err det,
        POST strict_mode incidents_without_lesson Unparseable Unparseable
        = Json400 err det)
  /\ (exists ans,
        POST strict_mode storm_request Unparseable (Parsed enrichment_bare_snapshot)
        = Json200 ans
        /\ validate ATS_SCHEMA ans = false).
Proof.
  split; [vm_compute; eexists; reflexivity|].
  split; [vm_compute; reflexivity|].
  split; [vm_compute; reflexivity|].
  split; [vm_compute; eexists _, _; reflexivity|].
  eexists. split; vm_compute; reflexivity.
Qed.

(** ** The draft's decision in the answered document *)

Lemma severity_serialize (d : value) : severity (serialize d) = severity d.
Proof. destruct d; try reflexivity. simpl. destruct (num_val n); reflexivity. Qed.

(** X4: the decision of an answered document is at least as severe as the
    one its draft brought. *)
Theorem draft_decision_not_lowered (cfg : Config) (body : value) (draft enrichment : reply)
    (sd : Seeds) (ans : value) :
  prepare cfg body = Ready sd ->
  POST cfg body draft enrichment = Json200 ans ->
  isArray (draft_value sd draft) = false ->
  isArray (get (draft_value sd draft) "stop_work") = false ->
  (severity (get (or_else (get (draft_value sd draft) "stop_work") (VObj [])) "decision")
   <= severity (get (get ans "stop_work") "decision"))%nat.
Proof.
  intros Hsd Hpost Hobj Harr.
  apply (@POST_200 cfg body draft enrichment sd ans Hsd) in Hpost
    as [_ [doc [Hdoc ->]]].
  destruct (@built_object _ _ _ _ _ Hdoc Hobj) as [props Hprops].
  rewrite Hprops in *.
  apply build_document_built in Hdoc as [hz0 [c0 [st0 [sw0 [enriched [hz1 Hb]]]]]].
  steps_of Hb.
  pose proof (post_stop_work_writable _ _ Hsw0) as Hw.
  destruct (answered_stop_work props doc Harr Hw) as [-> _].
  destruct (post_stop_work_triggers _ _ Hsw0) as [_ [_ <-]].
  rewrite severity_serialize, Hstop.
  unfold final_stop_work. rewrite checklist_triggers_decision.
  eapply Nat.le_trans; [apply trigger_guard_raises|].
  eapply Nat.le_trans; [apply default_decision_raises|].
  apply checklist_adjust_raises.
Qed.

(** ** The guardrails of the seeds in the answered document *)

Lemma serialize_str (d : value) (s : jstring) : serialize d = VStr s -> d = VStr s.
Proof.
  destruct d; simpl; try discriminate; [|intro H; exact H].
  destruct (num_val n); discriminate.
Qed.

(** The decision, the triggers and the checklist a client reads, for a draft
    that is a JSON object whose [stop_work] is no array. *)
Lemma answered_assessment (cfg : Config) (body : value) (draft enrichment : reply)
    (sd : Seeds) (ans : value) :
  prepare cfg body = Ready sd ->
  POST cfg body draft enrichment = Json200 ans ->
  isArray (draft_value sd draft) = false ->
  isArray (get (draft_value sd draft) "stop_work") = false ->
  exists doc,
    build_document cfg sd (draft_value sd draft) enrichment = Returns doc
    /\ get (get ans "stop_work") "decision" = serialize (decision (stop_work doc))
    /\ get (get ans "stop_work") "auto_triggers" = VStrs (auto_triggers (stop_work doc))
    /\ get (get ans "checklist_actions") "decision_hint"
       = VStr (hint_text (decision_hint (checklist_actions doc)))
    /\ get (get ans "checklist_actions") "critical_fails"
       = VStrs (critical_fails (checklist_actions doc)).
Proof.
  intros Hsd Hpost Hobj Harr.
  apply (@POST_200 cfg body draft enrichment sd ans Hsd) in Hpost
    as [_ [doc [Hdoc ->]]].
  destruct (@built_object _ _ _ _ _ Hdoc Hobj) as [props Hprops].
  exists doc. split; [exact Hdoc|]. rewrite Hprops in *.
  pose proof Hdoc as Hb.
  apply build_document_built in Hb as [hz0 [c0 [st0 [sw0 [enriched [hz1 Hb]]]]]].
  steps_of Hb.
  pose proof (post_stop_work_writable _ _ Hsw0) as Hw.
  destruct (answered_stop_work props doc Harr Hw) as [Hd [Ht _]].
  destruct (answered_checklist props doc) as [Hh [_ Hf]].
  auto.
Qed.

(** X1: when the deterministic trigger seed is not empty, the decision of
    the answered document is not CONTINUE, whatever the draft and the
    enrichment reply; the guard turns a draft's CONTINUE into
    REVIEW_REQUIRED. *)
Theorem seed_trigger_guardrail (cfg : Config) (body : value) (draft enrichment : reply)
    (sd : Seeds) (ans : value) :
  prepare cfg body = Ready sd ->
  POST cfg body draft enrichment = Json200 ans ->
  isArray (draft_value sd draft) = false ->
  isArray (get (draft_value sd draft) "stop_work") = false ->
  s_autoTriggers sd <> [] ->
  get (get ans "stop_work") "decision" <> VStr (js "CONTINUE")
  /\ (forall sw, decision sw = VStr (js "CONTINUE") ->
        decision (trigger_guard (s_autoTriggers sd) sw) = VStr (js "REVIEW_REQUIRED")).
Proof.
  intros Hsd Hpost Hobj Harr Ht.
  destruct (@answered_assessment cfg body draft enrichment sd ans Hsd Hpost Hobj Harr) as [doc [Hdoc [-> _]]].
  split.
  - intro H. apply serialize_str in H.
    destruct (@seed_guardrails cfg sd _ enrichment doc Hdoc) as [Hg _]. exact (Hg Ht H).
  - intros sw Hd. apply has_items_true in Ht. unfold trigger_guard.
    rewrite Ht, Hd. reflexivity.
Qed.

Lemma seed_trigger_guardrail_witness :
  exists sd ans,
    prepare strict_mode storm_request = Ready sd
    /\ POST strict_mode storm_request (Parsed draft_continue) Unparseable = Json200 ans
    /\ s_autoTriggers sd <> []
    /\ get (get ans "stop_work") "decision" <> VStr (js "CONTINUE").
Proof.
  assert (Hp : exists sd, prepare strict_mode storm_request = Ready sd
                          /\ s_autoTriggers sd <> [])
    by (vm_compute; eexists; split; [reflexivity | discriminate]).
  assert (Hd : exists ans, POST strict_mode storm_request (Parsed draft_continue)
                             Unparseable = Json200 ans)
    by (vm_compute; eexists; reflexivity).
  destruct Hp as [sd [Hsd Ht]]. destruct Hd as [ans Hans].
  exists sd, ans. split; [exact Hsd|]. split; [exact Hans|]. split; [exact Ht|].
  destruct (@seed_trigger_guardrail strict_mode storm_request (Parsed draft_continue)
              Unparseable sd ans Hsd Hans eq_refl eq_refl Ht) as [H _].
  exact H.
Defined.

(** X2: when the deterministic checklist seed has a critical fail, the hint
    of the answered checklist is STOP and the answered decision is STOP,
    whatever the draft and the enrichment reply. *)
Theorem seed_critical_fail_guardrail (cfg : Config) (body : value)
    (draft enrichment : reply) (sd : Seeds) (ans : value) :
  prepare cfg body = Ready sd ->
  POST cfg body draft enrichment = Json200 ans ->
  isArray (draft_value sd draft) = false ->
  isArray (get (draft_value sd draft) "stop_work") = false ->
  critical_fails (s_checklistBase sd) <> [] ->
  get (get ans "checklist_actions") "decision_hint" = VStr (js "STOP")
  /\ get (get ans "stop_work") "decision" = VStr (js "STOP").
Proof.
  intros Hsd Hpost Hobj Harr Hc.
  destruct (@answered_assessment cfg body draft enrichment sd ans Hsd Hpost Hobj Harr)
    as [doc [Hdoc [-> [_ [-> _]]]]].
  destruct (@seed_guardrails cfg sd _ enrichment doc Hdoc) as [_ Hg].
  destruct (Hg Hc) as [-> ->]. split; reflexivity.
Qed.

Lemma seed_critical_fail_guardrail_witness :
  exists sd ans,
    prepare strict_mode refused_request = Ready sd
    /\ POST strict_mode refused_request (Parsed draft_continue) Unparseable = Json200 ans
    /\ critical_fails (s_checklistBase sd) <> []
    /\ get (get ans "checklist_actions") "decision_hint" = VStr (js "STOP")
    /\ get (get ans "stop_work") "decision" = VStr (js "STOP").
Proof.
  assert (Hp : exists sd, prepare strict_mode refused_request = Ready sd
                          /\ critical_fails (s_checklistBase sd) <> [])
    by (vm_compute; eexists; split; [reflexivity | discriminate]).
  assert (Hd : exists ans, POST strict_mode refused_request (Parsed draft_continue)
                             Unparseable = Json200 ans)
    by (vm_compute; eexists; reflexivity).
  destruct Hp as [sd [Hsd Hc]]. destruct Hd as [ans Hans].
  exists sd, ans. split; [exact Hsd|]. split; [exact Hans|]. split; [exact Hc|].
  exact (@seed_critical_fail_guardrail strict_mode refused_request
           (Parsed draft_continue) Unparseable sd ans Hsd Hans eq_refl eq_refl Hc).
Defined.




Lemma draft_decision_not_lowered_witness :
  exists sd ans,
    prepare strict_mode storm_request = Ready sd
    /\ POST strict_mode storm_request (Parsed draft_continue) Unparseable = Json200 ans
    /\ (severity (VStr (js "CONTINUE"))
        <= severity (get (get ans "stop_work") "decision"))%nat.
Proof.
  assert (Hp : exists sd, prepare strict_mode storm_request = Ready sd)
    by (vm_compute; eexists; reflexivity).
  assert (Hd : exists ans, POST strict_mode storm_request (Parsed draft_continue)
                             Unparseable = Json200 ans)
    by (vm_compute; eexists; reflexivity).
  destruct Hp as [sd Hsd]. destruct Hd as [ans Hans].
  exists sd, ans. split; [exact Hsd|]. split; [exact Hans|].
  exact (@draft_decision_not_lowered strict_mode storm_request (Parsed draft_continue)
           Unparseable sd ans Hsd Hans eq_refl eq_refl).
Defined.

(** ** The normalizers *)

(** X5: [mergeUnique] returns trimmed, non-empty entries without repetition:
    exactly the trimmed entries of its two lists that are not empty; a clean
    first list is a prefix of the result, and merging a clean list with
    itself gives it back. *)
Theorem mergeUnique_spec (a b : list jstring) :
  clean (mergeUnique a b)
  /\ (forall x, In x (mergeUnique a b) <->
                x <> [] /\ exists s, In s (a ++ b) /\ trim s = x)
  /\ (clean a -> exists t, mergeUnique a b = a ++ t)
  /\ (clean a -> mergeUnique a a = a).
Proof.
  split; [apply mergeUnique_clean|]. split; [|split].
  - intro x. unfold mergeUnique. rewrite mergeUnique_loop_In. simpl. split.
    + intros [[]|[s [Hin [Hs Hne]]]]. split; [exact Hne|]. exists s. auto.
    + intros [Hne [s [Hin Hs]]]. right. exists s. auto.
  - apply mergeUnique_extends.
  - apply mergeUnique_self.
Qed.

Lemma mapM_Throws {A B : Type} (f : A -> outcome B) (l : list A) :
  mapM f l = Throws <-> exists x, In x l /\ f x = Throws.
Proof.
  induction l as [|x r IH]; simpl.
  - split; [discriminate | intros [x [[] _]]].
  - destruct (f x) as [y|] eqn:E; simpl.
    + destruct (mapM f r) as [ys|]; simpl.
      * split; [discriminate|]. intros [z [[<-|Hz] Hf]]; [congruence|].
        assert (H : Returns ys = Throws) by (apply IH; exists z; auto).
        discriminate H.
      * split; [|reflexivity]. intros _.
        destruct (proj1 IH eq_refl) as [z [Hz Hf]]. exists z. auto.
    + split; [|reflexivity]. intros _. exists x. auto.
Qed.

(** X6: [safeArrayStrings] gives the empty list for what is no array; what
    it returns is trimmed and free of empty strings, and is returned as it
    is when it is sanitized again; it throws exactly when [String] throws on
    an element. *)
Theorem safeArrayStrings_spec (v : value) :
  (isArray v = false -> safeArrayStrings v = Returns [])
  /\ (forall l, safeArrayStrings v = Returns l ->
                Forall tidy l /\ safeArrayStrings (VStrs l) = Returns l)
  /\ (forall l, safeArrayStrings (VStrs l) = Returns (trimmed_nonblank l))
  /\ (forall items, v = VArr items ->
        (safeArrayStrings v = Throws <->
         exists x, In x items /\ String_or_empty x = Throws)).
Proof.
  split; [|split; [|split]].
  - destruct v; simpl; intro H; try reflexivity; discriminate H.
  - intros l H. pose proof (safeArrayStrings_tidy _ H) as Ht.
    split; [exact Ht | apply safeArrayStrings_id, Ht].
  - apply safeArrayStrings_VStrs.
  - intros items ->. unfold safeArrayStrings. rewrite <- mapM_Throws.
    destruct (mapM String_or_empty items); simpl; split; congruence.
Qed.

(** X7: the normative references [normalizeNormRefs] returns have a
    non-empty trimmed standard and trimmed clause, note and url that are
    [null] when empty; they are returned as they are when they are
    normalized again; and what is no array gives no reference. *)
Theorem normalizeNormRefs_round_trip (v : value) (l : list NormRef) :
  normalizeNormRefs v = Returns l ->
  Forall tidy_norm_ref l
  /\ normalizeNormRefs (VArr (map NormRef_value l)) = Returns l
  /\ (isArray v = false -> l = []).
Proof.
  intro H. pose proof (normalizeNormRefs_tidy _ H) as Ht.
  split; [exact Ht|]. split; [apply normalizeNormRefs_values, Ht|].
  destruct v; simpl; intro Ha; try discriminate Ha;
    unfold normalizeNormRefs in H; simpl in H; injection H as <-; reflexivity.
Qed.

Lemma normalizeNormRefs_round_trip_witness :
  exists l,
    normalizeNormRefs sample_norm_refs = Returns l
    /\ map standard l = [js "ISO 45001"]
    /\ map clause l = [None]
    /\ normalizeNormRefs (VArr (map NormRef_value l)) = Returns l.
Proof.
  destruct (normalizeNormRefs sample_norm_refs) as [l|] eqn:E;
    [|vm_compute in E; discriminate E].
  destruct (@normalizeNormRefs_round_trip sample_norm_refs l E) as [_ [H _]].
  exists l. split; [reflexivity|].
  vm_compute in E. injection E as <-.
  split; [vm_compute; reflexivity|]. split; [reflexivity | exact H].
Defined.

(** X8: the environment [normalizeEnvironment] returns is returned as it is
    when it is normalized again, and the body written for it validates
    against the schema of the environment. *)
Theorem normalizeEnvironment_round_trip (v : value) (e : Environment) :
  normalizeEnvironment v = Returns e ->
  normalizeEnvironment (Environment_value e) = Returns e
  /\ Forall tidy (controlsAvailable e)
  /\ validate environment_schema (serialize (Environment_value e)) = true.
Proof.
  intro H. split; [apply (normalizeEnvironment_value _ H)|]. split.
  - unfold normalizeEnvironment in H. cbv zeta in H.
    apply bind_inv in H as [ctl [Hctl H]]. apply Returns_inj in H. rewrite <- H.
    cbn [controlsAvailable].
    destruct (get _ "controlsAvailable"); try (injection Hctl as <-; constructor).
    returned Hctl. injection Hctl as <-. apply trimmed_nonblank_tidy.
  - apply validate_serialize, validate_environment.
Qed.

Lemma normalizeEnvironment_round_trip_witness :
  exists e,
    normalizeEnvironment (get storm_request "environment") = Returns e
    /\ weather e = Some (js "Tormenta eléctrica")
    /\ normalizeEnvironment (Environment_value e) = Returns e.
Proof.
  destruct (normalizeEnvironment (get storm_request "environment")) as [e|] eqn:E;
    [|vm_compute in E; discriminate E].
  destruct (@normalizeEnvironment_round_trip _ e E) as [H _].
  exists e. split; [reflexivity|]. split; [|exact H].
  vm_compute in E. injection E as <-. vm_compute. reflexivity.
Defined.

(** X9: the lists of a brief [normalizeProcedureRef] returns are trimmed and
    free of empty strings, and the reference is returned as it is when it is
    normalized again, as the aggregator does with the references the route
    has normalized. *)
Theorem normalizeProcedureRef_round_trip (v : value) (p : ProcedureRef) :
  normalizeProcedureRef v = Returns p ->
  tidy_brief (brief p)
  /\ normalizeProcedureRef (ProcedureRef_value p) = Returns p.
Proof.
  intro H. pose proof (normalizeProcedureRef_tidy _ H) as Ht.
  split; [exact Ht | apply normalizeProcedureRef_value, Ht].
Qed.

Lemma normalizeProcedureRef_round_trip_witness :
  exists p,
    normalizeProcedureRef (brief_with "P-1" [" Usar barandas "; " "]%string) = Returns p
    /\ engineering (critical_controls (brief p)) = [js "Usar barandas"]
    /\ normalizeProcedureRef (ProcedureRef_value p) = Returns p.
Proof.
  destruct (normalizeProcedureRef (brief_with "P-1" [" Usar barandas "; " "]%string))
    as [p|] eqn:E; [|vm_compute in E; discriminate E].
  destruct (@normalizeProcedureRef_round_trip _ p E) as [_ H].
  exists p. split; [reflexivity|]. split; [|exact H].
  vm_compute in E. injection E as <-. vm_compute. reflexivity.
Defined.

(** X10: on the request with its normalized environment, as the route calls
    it, [computeStopWorkTriggers] returns: the texts it converts are strings
    or [null]. *)
Theorem triggers_on_normalized_environment (body : value) (environment : Environment) :
  exists t, computeStopWorkTriggers (with_environment body environment) = Returns t.
Proof. apply computeStopWorkTriggers_returns. Qed.

(** ** The fallback synthesizer *)

(** X11: the hazards the synthesizer returns are trimmed, without
    repetition, and never empty. *)
Theorem fallback_hazards_spec (checklist : ChecklistActionsPayload) (tasks : Tasks)
    (environment : Environment) (autoTriggers fallback : list jstring) :
  buildFallbackHazards checklist tasks environment autoTriggers = Returns fallback ->
  clean fallback /\ fallback <> [].
Proof. apply buildFallbackHazards_clean. Qed.

Lemma fallback_hazards_spec_witness :
  exists sd fallback,
    prepare strict_mode quiet_request = Ready sd
    /\ buildFallbackHazards (s_checklistBase sd) (s_tasks sd) (s_environment sd) []
       = Returns fallback
    /\ clean fallback /\ fallback <> [].
Proof.
  assert (Hp : exists sd, prepare strict_mode quiet_request = Ready sd)
    by (vm_compute; eexists; reflexivity).
  destruct Hp as [sd Hsd].
  destruct (prepare_snapshot _ _ Hsd) as [s [a Hs]].
  destruct (fallback_on_seed (s_checklistBase sd) (s_tasks sd) (s_environment sd) [] Hs)
    as [fb Hfb].
  exists sd, fb. split; [exact Hsd|]. split; [exact Hfb|].
  exact (@fallback_hazards_spec _ _ _ _ fb Hfb).
Defined.


(** ** The checklist seed and the enrichment sub-call *)



(** X14: the enrichment sub-call makes no call, and returns the seed,
    without an API key and for a seed with no action, no missing entry and
    no critical fail; when it makes the call, a reply that does not parse
    gives the seed and a rejected call is not caught. *)
Theorem enrichment_call_guard (base : ChecklistActionsPayload) (e : reply) :
  enrichChecklistWithAI false base e = Returns base
  /\ (has_items (actions base) || has_items (missing base)
      || has_items (critical_fails base) = false ->
      forall k, enrichChecklistWithAI k base e = Returns base)
  /\ (forall k, enrichChecklistWithAI k base Unparseable = Returns base)
  /\ (has_items (actions base) || has_items (missing base)
      || has_items (critical_fails base) = true ->
      enrichChecklistWithAI true base CallFails = Throws).
Proof.
  split; [reflexivity|]. split; [|split].
  - intros H k. unfold enrichChecklistWithAI. cbv zeta. rewrite H.
    destruct k; reflexivity.
  - intro k. apply enrich_unparseable.
  - apply enrich_call_fails.
Qed.
